(** * MultiModelVideo: ingestion pipeline and retrieval engine

    A shallow embedding of the Python services of the repository
    (src/services/video_processor.py, src/services/rag_service.py,
    src/services/ai_service.py, src/models/video_data.py,
    src/api/routes/chat.py and src/api/routes/videos.py) and the proofs of
    the properties its specification states about them.

    Conventions of the embedding:
    - a Python [float] is a rational number [Q]; arithmetic is exact, and two
      floats are equal when they are equal as rationals ([==]);
    - a Python [str] is a [string] of bytes; the digit class of a regular
      expression is the ASCII digits;
    - a function that can raise returns a [result]; a [try]/[except
      Exception] is a match on it;
    - an external capability (file system, vision model, embedding model,
      vector store, caption provider) is a parameter of the function that
      calls it. *)

From Stdlib Require Import List String Ascii QArith Qabs Lqa ZArith Lia Bool.
From Stdlib Require Import Sorted Permutation SetoidList DecimalString DecimalNat.
From Stdlib Require Import Qround.
From stdpp Require Import gmap strings.
Import ListNotations.

(** ** Python values that the services exchange *)

(** The exceptions the modelled code raises or catches. *)
Inductive exn : Type :=
| AttributeError (attr : string)
| TypeError
| KeyError (key : string)
| IndexError
| ValueError (msg : string)
| ValidationError (missing : list string)
| RuntimeError (msg : string)
| HTTPException (status_code : nat).

(** The outcome of a call that may raise. *)
Inductive result (A : Type) : Type :=
| Ok (a : A)
| Raise (e : exn).
Arguments Ok {A} a.
Arguments Raise {A} e.

Definition bind {A B : Type} (r : result A) (k : A -> result B) : result B :=
  match r with
  | Ok a => k a
  | Raise e => Raise e
  end.

Notation "'let*' x := r 'in' k" := (bind r (fun x => k))
  (at level 10, x name, r at level 100, k at level 200).

(** [mapM f l] runs [f] on the elements of [l] from left to right and stops
    at the first one that raises. *)
Fixpoint mapM {A B : Type} (f : A -> result B) (l : list A) : result (list B) :=
  match l with
  | [] => Ok []
  | x :: l' => let* y := f x in let* ys := mapM f l' in Ok (y :: ys)
  end.

(** Truth value of an [Optional[str]]: [None] and the empty string are
    false. *)
Definition truthy_str (o : option string) : bool :=
  match o with
  | Some s => negb (String.eqb s "")
  | None => false
  end.

(** [str(i)] for a non-negative integer. *)
Definition str_of_nat (i : nat) : string :=
  NilEmpty.string_of_uint (Nat.to_uint i).

(** ** The data model (src/models/video_data.py) *)

Record FrameData : Type := {
  fd_id : string;
  fd_frame_path : string;
  fd_timestamp : Q;
  fd_scene_description : option string;
  fd_objects_detected : list string;
  fd_confidence_scores : list (string * Q)
}.

Record TranscriptChunk : Type := {
  tc_id : string;
  tc_text : string;
  tc_start_time : Q;
  tc_end_time : Q;
  tc_confidence : option Q;
  tc_speaker : option string
}.

(** [frame.scene_description = d] *)
Definition set_scene_description (frame : FrameData) (d : string) : FrameData :=
  {| fd_id := fd_id frame;
     fd_frame_path := fd_frame_path frame;
     fd_timestamp := fd_timestamp frame;
     fd_scene_description := Some d;
     fd_objects_detected := fd_objects_detected frame;
     fd_confidence_scores := fd_confidence_scores frame |}.

(** ** Stable sorting: [sorted(l, key=...)] and [l.sort(key=..., reverse=True)] *)

(** [x] goes before the first element whose key is not smaller, so that it
    stays in front of the elements of equal key that followed it. *)
Fixpoint insert_sorted {A : Type} (key : A -> Q) (x : A) (l : list A) : list A :=
  match l with
  | [] => [x]
  | y :: l' =>
      if Qle_bool (key x) (key y) then x :: l else y :: insert_sorted key x l'
  end.

Definition sorted_by {A : Type} (key : A -> Q) (l : list A) : list A :=
  fold_right (insert_sorted key) [] l.

Definition key_le {A : Type} (key : A -> Q) (a b : A) : Prop :=
  (key a <= key b)%Q.

(** [l.sort(key=..., reverse=True)]: descending, and elements of equal key
    keep their order, which is the stable ascending sort on the negated
    key. *)
Definition sort_reverse {A : Type} (key : A -> Q) (l : list A) : list A :=
  sorted_by (fun x => (- key x)%Q) l.

(** ** Pseudo-transcript synthesis (src/services/video_processor.py) *)

Section FrameAnalysis.

(** [Path(p).exists()] and [ai_service.analyze_image(p)]; the latter catches
    every exception of the vision model and always returns a string. *)
Variable path_exists : string -> bool.
Variable analyze_image : string -> string.

(** [analyze_video_frames]: the frames are visited in list order (the
    batches of three only pace the calls); a frame whose image file is
    missing is skipped, every other frame gets the description the vision
    model returns and is kept. *)
Definition analyze_frame (frame : FrameData) : list FrameData :=
  if path_exists (fd_frame_path frame)
  then [set_scene_description frame (analyze_image (fd_frame_path frame))]
  else [].

Definition analyze_video_frames (frames : list FrameData) : list FrameData :=
  match frames with
  | [] => []
  | _ => flat_map analyze_frame frames
  end.

(** The loop [for i, frame in enumerate(sorted_frames)] of
    [generate_pseudo_transcript_from_frames], at index [i] with [rest]
    still to visit. [sorted_frames[i+1]] is read only under the guard
    [i < len(sorted_frames) - 1], where it exists. *)
Fixpoint pseudo_chunks (video_id : string) (sorted_frames : list FrameData)
    (i : nat) (rest : list FrameData) : list TranscriptChunk :=
  match rest with
  | [] => []
  | frame :: rest' =>
      let later := pseudo_chunks video_id sorted_frames (S i) rest' in
      if truthy_str (fd_scene_description frame) then
        let end_time :=
          if (i <? length sorted_frames - 1)%nat
          then fd_timestamp (nth (S i) sorted_frames frame)
          else (fd_timestamp frame + 5)%Q in
        {| tc_id := video_id ++ "_visual_transcript_" ++ str_of_nat i;
           tc_text := "Visual: " ++ default "" (fd_scene_description frame);
           tc_start_time := fd_timestamp frame;
           tc_end_time := end_time;
           tc_confidence := None;
           tc_speaker := None |} :: later
      else later
  end.

Definition generate_pseudo_transcript_from_frames (video_id : string)
    (frames : list FrameData) : list TranscriptChunk :=
  match frames with
  | [] => []
  | _ =>
      match analyze_video_frames frames with
      | [] => []
      | analyzed_frames =>
          let sorted_frames := sorted_by fd_timestamp analyzed_frames in
          pseudo_chunks video_id sorted_frames 0 sorted_frames
      end
  end.

End FrameAnalysis.

(** ** Caption acquisition (src/services/video_processor.py) *)

(** A raw caption entry of the provider, a dict with the keys [text],
    [start] and [duration], each of which may be absent. *)
Record CaptionEntry : Type := {
  ce_text : option string;
  ce_start : option Q;
  ce_duration : option Q
}.

(** The ASCII characters [str.strip()] removes: tab to carriage return,
    the four separators 28 to 31 and the space. *)
Definition is_space (c : ascii) : bool :=
  let n := nat_of_ascii c in
  ((9 <=? n)%nat && (n <=? 13)%nat) || ((28 <=? n)%nat && (n <=? 32)%nat).

Fixpoint lstrip (s : string) : string :=
  match s with
  | EmptyString => EmptyString
  | String c s' => if is_space c then lstrip s' else s
  end.

Fixpoint rstrip (s : string) : string :=
  match s with
  | EmptyString => EmptyString
  | String c s' =>
      match rstrip s' with
      | EmptyString => if is_space c then EmptyString else String c EmptyString
      | r => String c r
      end
  end.

Definition strip (s : string) : string := rstrip (lstrip s).

(** The chunk built from the entry at index [i]. *)
Definition caption_chunk (video_id : string) (i : nat) (entry : CaptionEntry)
  : TranscriptChunk :=
  {| tc_id := video_id ++ "_transcript_" ++ str_of_nat i;
     tc_text := strip (default "" (ce_text entry));
     tc_start_time := default 0%Q (ce_start entry);
     tc_end_time := (default 0 (ce_start entry) + default 0 (ce_duration entry))%Q;
     tc_confidence := None;
     tc_speaker := None |}.

(** The loop [for i, entry in enumerate(transcript_list)]: a chunk is kept
    when its stripped text is not empty. *)
Fixpoint caption_chunks (video_id : string) (i : nat)
    (transcript_list : list CaptionEntry) : list TranscriptChunk :=
  match transcript_list with
  | [] => []
  | entry :: rest =>
      let chunk := caption_chunk video_id i entry in
      if negb (String.eqb (tc_text chunk) "")
      then chunk :: caption_chunks video_id (S i) rest
      else caption_chunks video_id (S i) rest
  end.

(** [[0-9A-Za-z_-]] *)
Definition is_id_char (c : ascii) : bool :=
  let n := nat_of_ascii c in
  ((48 <=? n)%nat && (n <=? 57)%nat) || ((65 <=? n)%nat && (n <=? 90)%nat) ||
  ((97 <=? n)%nat && (n <=? 122)%nat) || (n =? 95)%nat || (n =? 45)%nat.

(** The first [n] characters of [s] when they all are identifier
    characters. *)
Fixpoint take_id_chars (n : nat) (s : string) : option string :=
  match n with
  | O => Some EmptyString
  | S n' =>
      match s with
      | String c s' =>
          if is_id_char c
          then option_map (String c) (take_id_chars n' s')
          else None
      | EmptyString => None
      end
  end.

(** [re.search(r'(?:v=|\/)([0-9A-Za-z_-]{11}).*', url)], group 1 of the
    leftmost match. *)
Fixpoint search_video_id (url : string) : option string :=
  match url with
  | EmptyString => None
  | String c rest =>
      let here :=
        if Ascii.eqb c "/" then take_id_chars 11 rest
        else if Ascii.eqb c "v" then
          match rest with
          | String "=" rest' => take_id_chars 11 rest'
          | _ => None
          end
        else None in
      match here with
      | Some yt_video_id => Some yt_video_id
      | None => search_video_id rest
      end
  end.

(** [extract_youtube_transcript]. [_get_best_transcript] is the fallback
    chain over the caption provider; it swallows the provider's failures and
    returns the entries, or the empty list. *)
Definition extract_youtube_transcript (YOUTUBE_TRANSCRIPT_AVAILABLE : bool)
    (_get_best_transcript : string -> list CaptionEntry)
    (url video_id : string) : list TranscriptChunk :=
  if negb YOUTUBE_TRANSCRIPT_AVAILABLE then []
  else
    match search_video_id url with
    | None => []
    | Some yt_video_id =>
        match _get_best_transcript yt_video_id with
        | [] => []
        | transcript_list => caption_chunks video_id 0 transcript_list
        end
    end.

(** The fields of an entry as the normalization reads them. *)
Definition entry_text (e : CaptionEntry) : string := strip (default "" (ce_text e)).
Definition entry_start (e : CaptionEntry) : Q := default 0%Q (ce_start e).
Definition entry_duration (e : CaptionEntry) : Q := default 0%Q (ce_duration e).
Definition chunk_fields (c : TranscriptChunk) : string * Q * Q :=
  (tc_text c, tc_start_time c, tc_end_time c).

(** The list that [extract_youtube_transcript] normalizes: the provider's
    entries for the identifier found in the URL, or nothing. *)
Definition provider_entries (available : bool)
    (provider : string -> list CaptionEntry) (url : string) : list CaptionEntry :=
  if available then
    match search_video_id url with
    | Some yt_video_id => provider yt_video_id
    | None => []
    end
  else [].

(** ** Video-identifier resolution (src/api/routes/chat.py) *)

(** An entry of [get_available_videos()], a dict read with
    [v.get('video_id')]. *)
Record VideoInfo : Type := {
  vi_video_id : option string;
  vi_status : option string
}.

(** [x in video_ids] for a string [x] and a list of [Optional[str]]. *)
Definition str_in (x : string) (video_ids : list (option string)) : bool :=
  existsb (fun o => match o with
                    | Some y => String.eqb x y
                    | None => false
                    end) video_ids.

(** [s[n:]] *)
Fixpoint str_drop (n : nat) (s : string) : string :=
  match n, s with
  | O, _ => s
  | S _, EmptyString => EmptyString
  | S n', String _ s' => str_drop n' s'
  end.

Definition _get_video_id_match (video_id : string)
    (available_videos : list VideoInfo) : option string :=
  let video_ids := map vi_video_id available_videos in
  if str_in video_id video_ids then Some video_id
  else if str_in ("youtube_" ++ video_id)%string video_ids
  then Some ("youtube_" ++ video_id)%string
  else if String.prefix "youtube_" video_id && str_in (str_drop 8 video_id) video_ids
  then Some (str_drop 8 video_id)
  else None.

(** ** Timestamp extraction (src/services/ai_service.py) *)

(** [\d], on bytes, and the value of a digit. *)
Definition is_digit (c : ascii) : bool :=
  let n := nat_of_ascii c in (48 <=? n)%nat && (n <=? 57)%nat.

Definition digit_val (c : ascii) : nat := (nat_of_ascii c - 48)%nat.

(** A match of [\[(\d{1,2}):(\d{2})\]] that starts at the head of [cs]:
    [int] of the two groups and the number of characters matched. The
    greedy [\d{1,2}] takes two digits when it can; when a second digit
    follows the first, the one-digit reading has no colon to continue
    with, so the two readings never both match. *)
Definition match_two_digit_minutes (cs : list ascii) : option (nat * nat * nat) :=
  match cs with
  | o :: m1 :: m2 :: c :: s1 :: s2 :: e :: _ =>
      if Ascii.eqb o "[" && is_digit m1 && is_digit m2 && Ascii.eqb c ":" &&
         is_digit s1 && is_digit s2 && Ascii.eqb e "]"
      then Some (10 * digit_val m1 + digit_val m2, 10 * digit_val s1 + digit_val s2, 7)%nat
      else None
  | _ => None
  end.

Definition match_one_digit_minutes (cs : list ascii) : option (nat * nat * nat) :=
  match cs with
  | o :: m1 :: c :: s1 :: s2 :: e :: _ =>
      if Ascii.eqb o "[" && is_digit m1 && Ascii.eqb c ":" &&
         is_digit s1 && is_digit s2 && Ascii.eqb e "]"
      then Some (digit_val m1, 10 * digit_val s1 + digit_val s2, 6)%nat
      else None
  | _ => None
  end.

Definition match_timestamp (cs : list ascii) : option (nat * nat * nat) :=
  match match_two_digit_minutes cs with
  | Some r => Some r
  | None => match_one_digit_minutes cs
  end.

(** [re.findall]: the matches from left to right, without overlap. [skip]
    counts the characters of the last match that are still to pass. *)
Fixpoint findall_from (skip : nat) (cs : list ascii) : list (nat * nat) :=
  match cs with
  | [] => []
  | _ :: rest =>
      match skip with
      | S k => findall_from k rest
      | O =>
          match match_timestamp cs with
          | Some (minutes, seconds, len) =>
              (minutes, seconds) :: findall_from (len - 1) rest
          | None => findall_from 0 rest
          end
      end
  end.

Definition findall_timestamps (response : string) : list (nat * nat) :=
  findall_from 0 (list_ascii_of_string response).

(** The occurrence of the pattern that starts at the head of [cs], if any,
    and the occurrences that start anywhere in [cs], from left to right. *)
Definition occurrence_at (cs : list ascii) : list (nat * nat) :=
  match match_timestamp cs with
  | Some (minutes, seconds, _) => [(minutes, seconds)]
  | None => []
  end.

Fixpoint occurrences (cs : list ascii) : list (nat * nat) :=
  match cs with
  | [] => []
  | _ :: rest => occurrence_at cs ++ occurrences rest
  end.

(** [x < y] on floats. *)
Definition Qlt_bool (x y : Q) : bool := negb (Qle_bool y x).

(** [min(l, key=...)] for a list [best :: l]: the first element of least
    key. *)
Fixpoint min_by {A : Type} (key : A -> Q) (best : A) (l : list A) : A :=
  match l with
  | [] => best
  | x :: l' => min_by key (if Qlt_bool (key x) (key best) then x else best) l'
  end.

(** [minutes * 60 + seconds] *)
Definition seconds_of (minutes seconds : nat) : Q :=
  inject_Z (Z.of_nat (minutes * 60 + seconds)).

Definition distance_to (timestamp x : Q) : Q := Qabs (x - timestamp).

(** [min(available_timestamps, key=lambda x: abs(x - timestamp))], which
    the code evaluates only for a non-empty list. *)
Definition closest_timestamp (available_timestamps : list Q) (timestamp : Q)
  : option Q :=
  match available_timestamps with
  | [] => None
  | x :: l => Some (min_by (distance_to timestamp) x l)
  end.

(** What one match appends to [timestamps]. *)
Definition accepted_reference (available_timestamps : list Q)
    (m : nat * nat) : list Q :=
  let timestamp := seconds_of (fst m) (snd m) in
  match closest_timestamp available_timestamps timestamp with
  | Some closest =>
      if Qle_bool (distance_to timestamp closest) 30 then [closest] else []
  | None => []
  end.

(** The list [timestamps] at the end of the loop. *)
Definition extracted_references (response : string)
    (available_timestamps : list Q) : list Q :=
  flat_map (accepted_reference available_timestamps) (findall_timestamps response).

(** [list(set(l))]: one element for each class of equal floats, the first
    one met. The order in which Python lists the elements of a set is not
    specified; the order of first occurrence stands for it here, and the
    properties below that depend on the order are stated for every
    permutation of this list. *)
Fixpoint list_set (l : list Q) : list Q :=
  match l with
  | [] => []
  | x :: l' => x :: List.filter (fun y => negb (Qeq_bool x y)) (list_set l')
  end.

Definition _extract_timestamps (response : string)
    (available_timestamps : list Q) : list Q :=
  list_set (extracted_references response available_timestamps).

(** ** The validator of [timestamp_references] (src/models/video_data.py)

    [ChatResponse.validate_timestamps] and [QueryResult.validate_timestamps]
    have the same body. *)
Definition validate_timestamps (v : list Q) : result (list Q) :=
  if existsb (fun t => Qlt_bool t 0) v
  then Raise (ValueError "Timestamps must be non-negative")
  else Ok (sorted_by (fun t => t) v).

(** ** Dynamically typed values, keyword arguments and model validation *)

(** The values found in vector-store metadata and passed to the model
    constructors. *)
Inductive pyval : Type :=
| PNone
| PStr (s : string)
| PNum (q : Q)
| PList (items : list string).

Definition truthy (v : pyval) : bool :=
  match v with
  | PNone => false
  | PStr s => negb (String.eqb s "")
  | PNum q => negb (Qeq_bool q 0)
  | PList items => match items with [] => false | _ => true end
  end.

(** [max(a, b)]: [b] when it is greater, else [a]. *)
Definition py_max (a b : Q) : Q := if Qlt_bool a b then b else a.

(** The keyword arguments of a constructor call, in the order written. *)
Definition kwargs : Type := list (string * pyval).

Fixpoint kw_get (name : string) (kw : kwargs) : option pyval :=
  match kw with
  | [] => None
  | (k, v) :: kw' => if String.eqb k name then Some v else kw_get name kw'
  end.

(** Validation of one declared field of a pydantic model: a required field
    that is absent, or a value of the wrong type, raises; keyword arguments
    that name no declared field are ignored. *)
Definition required_str (kw : kwargs) (name : string) : result string :=
  match kw_get name kw with
  | Some (PStr s) => Ok s
  | _ => Raise (ValidationError [name])
  end.

Definition required_float (kw : kwargs) (name : string) : result Q :=
  match kw_get name kw with
  | Some (PNum q) => Ok q
  | _ => Raise (ValidationError [name])
  end.

Definition optional_str (kw : kwargs) (name : string) : result (option string) :=
  match kw_get name kw with
  | None | Some PNone => Ok None
  | Some (PStr s) => Ok (Some s)
  | Some _ => Raise (ValidationError [name])
  end.

Definition optional_float (kw : kwargs) (name : string) : result (option Q) :=
  match kw_get name kw with
  | None | Some PNone => Ok None
  | Some (PNum q) => Ok (Some q)
  | Some _ => Raise (ValidationError [name])
  end.

(** [class SearchResult(BaseModel)]: [id], [content], [score], [video_id]
    and [type] are required, [timestamp] and [metadata] have defaults. *)
Record SearchResult : Type := {
  sr_id : string;
  sr_content : string;
  sr_score : Q;
  sr_timestamp : option Q;
  sr_video_id : string;
  sr_type : string;
  sr_metadata : gmap string pyval
}.

(** The constructor call [SearchResult(...)]. *)
Definition SearchResult_init (kw : kwargs) : result SearchResult :=
  let* id := required_str kw "id" in
  let* content := required_str kw "content" in
  let* score := required_float kw "score" in
  let* timestamp := optional_float kw "timestamp" in
  let* video_id := required_str kw "video_id" in
  let* type := required_str kw "type" in
  Ok {| sr_id := id; sr_content := content; sr_score := score;
        sr_timestamp := timestamp; sr_video_id := video_id; sr_type := type;
        sr_metadata := ∅ |}.

(** [getattr(x, name)] for a [SearchResult]: only the declared fields
    exist. *)
Definition SearchResult_getattr (x : SearchResult) (name : string) : result pyval :=
  if String.eqb name "id" then Ok (PStr (sr_id x))
  else if String.eqb name "content" then Ok (PStr (sr_content x))
  else if String.eqb name "score" then Ok (PNum (sr_score x))
  else if String.eqb name "timestamp"
  then Ok (match sr_timestamp x with Some t => PNum t | None => PNone end)
  else if String.eqb name "video_id" then Ok (PStr (sr_video_id x))
  else if String.eqb name "type" then Ok (PStr (sr_type x))
  else Raise (AttributeError name).

(** The constructor call [TranscriptChunk(...)], also reached as [VideoTranscript]. *)
Definition TranscriptChunk_init (kw : kwargs) : result TranscriptChunk :=
  let* id := required_str kw "id" in
  let* text := required_str kw "text" in
  let* start_time := required_float kw "start_time" in
  let* end_time := required_float kw "end_time" in
  let* confidence := optional_float kw "confidence" in
  let* speaker := optional_str kw "speaker" in
  Ok {| tc_id := id; tc_text := text; tc_start_time := start_time;
        tc_end_time := end_time; tc_confidence := confidence;
        tc_speaker := speaker |}.

(** The constructor call [FrameData(...)], also reached as [VideoFrame]. *)
Definition FrameData_init (kw : kwargs) : result FrameData :=
  let* id := required_str kw "id" in
  let* frame_path := required_str kw "frame_path" in
  let* timestamp := required_float kw "timestamp" in
  let* scene_description := optional_str kw "scene_description" in
  Ok {| fd_id := id; fd_frame_path := frame_path; fd_timestamp := timestamp;
        fd_scene_description := scene_description;
        fd_objects_detected := []; fd_confidence_scores := [] |}.

(** [getattr(frame, name)] for a [FrameData]: the class declares [id],
    [frame_path], [timestamp], [scene_description], [objects_detected] and
    [confidence_scores], and no [thumbnail_path]. *)
Definition FrameData_getattr (frame : FrameData) (name : string) : result pyval :=
  if String.eqb name "id" then Ok (PStr (fd_id frame))
  else if String.eqb name "frame_path" then Ok (PStr (fd_frame_path frame))
  else if String.eqb name "timestamp" then Ok (PNum (fd_timestamp frame))
  else if String.eqb name "scene_description"
  then Ok (match fd_scene_description frame with Some d => PStr d | None => PNone end)
  else if String.eqb name "objects_detected" then Ok (PList (fd_objects_detected frame))
  else Raise (AttributeError name).

(** ** Embeddings (src/services/ai_service.py) *)

Definition zero_vector : list Q := repeat 0%Q 384.

(** [generate_text_embeddings]: one vector for each text; when the model is
    not configured, or when embedding any of the texts raises, every text
    gets the zero vector of length 384. *)
Definition generate_text_embeddings (gemini_embedding_model : option string)
    (embed_content : string -> result (list Q)) (texts : list string)
  : list (list Q) :=
  match gemini_embedding_model with
  | None => map (fun _ => zero_vector) texts
  | Some _ =>
      match mapM embed_content texts with
      | Ok embeddings => embeddings
      | Raise _ => map (fun _ => zero_vector) texts
      end
  end.

(** ** The vector store (src/core/database.py) *)

(** A [where] filter: equality with a value or membership in a list. *)
Inductive where_cond : Type :=
| WhereEq (v : string)
| WhereIn (vs : list string).

Definition where_filter : Type := list (string * where_cond).

(** The dict a query returns: for each key, one row for each query
    embedding; [None] when the key is absent. *)
Record QueryResponse : Type := {
  qr_metadatas : option (list (list (gmap string pyval)));
  qr_documents : option (list (list string));
  qr_distances : option (list (list Q))
}.

(** One record of the collection. *)
Record StoreRecord : Type := {
  rec_id : string;
  rec_embedding : list Q;
  rec_metadata : gmap string pyval;
  rec_document : string
}.

(** [results[key][0]] *)
Definition first_row {A : Type} (key : string) (field : option (list (list A)))
  : result (list A) :=
  match field with
  | None => Raise (KeyError key)
  | Some [] => Raise IndexError
  | Some (row :: _) => Ok row
  end.

(** [results[key][0][i] if i < len(results[key][0]) else d] *)
Definition row_item {A : Type} (key : string) (field : option (list (list A)))
    (i : nat) (d : A) : result A :=
  let* row := first_row key field in
  Ok (if (i <? length row)%nat then nth i row d else d).

(** [results and "metadatas" in results and results["metadatas"]] *)
Definition has_metadatas (results : option QueryResponse) : bool :=
  match results with
  | Some r => match qr_metadatas r with
              | Some (_ :: _) => true
              | _ => false
              end
  | None => false
  end.

(** [for i, x in enumerate(l)] with a body that may raise, from index [i]. *)
Fixpoint mapM_enum {A B : Type} (f : nat -> A -> result B) (i : nat) (l : list A)
  : result (list B) :=
  match l with
  | [] => Ok []
  | x :: l' => let* y := f i x in let* ys := mapM_enum f (S i) l' in Ok (y :: ys)
  end.

(** [metadata.get(key, d)] *)
Definition dict_get (metadata : gmap string pyval) (key : string) (d : pyval) : pyval :=
  default d (metadata !! key).

(** [str] as a truth value. *)
Definition nonempty (s : string) : bool := negb (String.eqb s "").

(** [l.sort(key=lambda x: x.relevance_score, reverse=True)] on a list of
    [SearchResult]: the key of every element is read first. *)
Definition sort_by_relevance_score (l : list SearchResult) : result (list SearchResult) :=
  let* keyed :=
    mapM (fun x =>
            let* k := SearchResult_getattr x "relevance_score" in
            match k with
            | PNum q => Ok (q, x)
            | _ => Raise TypeError
            end) l in
  Ok (map snd (sort_reverse fst keyed)).

(** ** The retrieval engine and the content indexer (src/services/rag_service.py) *)

Section RagService.

(** The capabilities the service calls: [ai_service.generate_text_embeddings],
    [self.db.query_embeddings] and [uuid.uuid4()] at each use. *)
Variable embed_texts : list string -> result (list (list Q)).
Variable query_embeddings :
  list (list Q) -> nat -> option where_filter -> result (option QueryResponse).
Variable uuid4 : nat -> string.

(** [relevance_score = max(0, 1 - distance)] *)
Definition relevance_of_distance (distance : Q) : Q := py_max 0 (1 - distance).

(** The keyword arguments of the [SearchResult(...)] call for the hit at
    index [i]. *)
Definition search_result_kwargs (results : QueryResponse) (i : nat)
    (metadata : gmap string pyval) : result kwargs :=
  let* distance := row_item "distances" (qr_distances results) i 1%Q in
  let* document := row_item "documents" (qr_documents results) i "" in
  let relevance_score := relevance_of_distance distance in
  let timestamp := dict_get metadata "timestamp" (PNum 0) in
  let* timestamp :=
    if negb (truthy timestamp) then
      match metadata !! "start_time" with
      | Some start_time => Ok start_time
      | None => Ok timestamp
      end
    else Ok timestamp in
  Ok [ ("video_id", dict_get metadata "video_id" (PStr ""));
       ("timestamp", timestamp);
       ("relevance_score", PNum relevance_score);
       ("content_type", dict_get metadata "content_type" (PStr "unknown"));
       ("content", PStr document);
       ("thumbnail_path", dict_get metadata "thumbnail_path" PNone);
       ("frame_path", dict_get metadata "frame_path" PNone) ].

Definition search_similar_content_body (query : string)
    (video_ids : option (list string)) (content_type : option string)
    (max_results : nat) : result (list SearchResult) :=
  let* query_embedding := embed_texts [query] in
  let where_filter :=
    (match video_ids with
     | Some (v :: vs) => [("video_id", WhereIn (v :: vs))]
     | _ => []
     end) ++
    (if truthy_str content_type
     then [("content_type", WhereEq (default "" content_type))]
     else []) in
  let* results :=
    query_embeddings query_embedding max_results
      (match where_filter with [] => None | _ => Some where_filter end) in
  let* search_results :=
    match results with
    | Some r =>
        if has_metadatas results then
          let* metadatas := first_row "metadatas" (qr_metadatas r) in
          mapM_enum (fun i metadata =>
                       let* kw := search_result_kwargs r i metadata in
                       SearchResult_init kw) 0 metadatas
        else Ok []
    | None => Ok []
    end in
  sort_by_relevance_score search_results.

(** [search_similar_content]: the body runs inside [try]; [except
    Exception] logs and returns the empty list. *)
Definition search_similar_content (query : string)
    (video_ids : option (list string)) (content_type : option string)
    (max_results : nat) : result (list SearchResult) :=
  match search_similar_content_body query video_ids content_type max_results with
  | Ok search_results => Ok search_results
  | Raise _ => Ok []
  end.

(** What one hit of [retrieve_relevant_content] becomes. *)
Inductive retrieved : Type :=
| RetrievedTranscript (c : TranscriptChunk)
| RetrievedFrame (f : FrameData)
| RetrievedOther.

Definition retrieve_hit (video_id : string) (results : QueryResponse) (i : nat)
    (metadata : gmap string pyval) : result retrieved :=
  let content_type := dict_get metadata "content_type" PNone in
  let* document := row_item "documents" (qr_documents results) i "" in
  match content_type with
  | PStr "transcript" =>
      let* transcript :=
        TranscriptChunk_init
          [ ("id", dict_get metadata "chunk_id" (PStr ("temp_" ++ uuid4 i)));
            ("video_id", PStr video_id);
            ("text", PStr document);
            ("start_time", dict_get metadata "start_time" (PNum 0));
            ("end_time", dict_get metadata "end_time" (PNum 0)) ] in
      Ok (RetrievedTranscript transcript)
  | PStr "visual" =>
      let* frame :=
        FrameData_init
          [ ("id", dict_get metadata "frame_id" (PStr ("temp_" ++ uuid4 i)));
            ("video_id", PStr video_id);
            ("timestamp", dict_get metadata "timestamp" (PNum 0));
            ("frame_path", dict_get metadata "frame_path" (PStr ""));
            ("thumbnail_path", dict_get metadata "thumbnail_path" (PStr ""));
            ("scene_description", PStr document) ] in
      Ok (RetrievedFrame frame)
  | _ => Ok RetrievedOther
  end.

Definition transcripts_of (hits : list retrieved) : list TranscriptChunk :=
  flat_map (fun h => match h with RetrievedTranscript c => [c] | _ => [] end) hits.

Definition frames_of (hits : list retrieved) : list FrameData :=
  flat_map (fun h => match h with RetrievedFrame f => [f] | _ => [] end) hits.

Definition retrieve_relevant_content_body (query video_id : string)
    (max_results : nat) (content_types : option (list string))
  : result (list TranscriptChunk * list FrameData) :=
  let* query_embedding := embed_texts [query] in
  let where_filter :=
    ("video_id", WhereEq video_id) ::
    (match content_types with
     | Some (t :: ts) => [("content_type", WhereIn (t :: ts))]
     | _ => []
     end) in
  let* results := query_embeddings query_embedding max_results (Some where_filter) in
  let* hits :=
    match results with
    | Some r =>
        if has_metadatas results then
          let* metadatas := first_row "metadatas" (qr_metadatas r) in
          mapM_enum (retrieve_hit video_id r) 0 metadatas
        else Ok []
    | None => Ok []
    end in
  Ok (transcripts_of hits, frames_of hits).

(** [retrieve_relevant_content]: [except Exception] returns [[], []]. *)
Definition retrieve_relevant_content (query video_id : string)
    (max_results : nat) (content_types : option (list string))
  : result (list TranscriptChunk * list FrameData) :=
  match retrieve_relevant_content_body query video_id max_results content_types with
  | Ok r => Ok r
  | Raise _ => Ok ([], [])
  end.

End RagService.

Section ContentIndexer.

(** [ai_service.generate_text_embeddings] and the condition under which
    [self.db.add_embeddings] raises for a batch (database not initialized,
    batch rejected by the collection). *)
Variable embed_texts : list string -> result (list (list Q)).
Variable add_embeddings_error : list StoreRecord -> option exn.

(** [self.db.add_embeddings(ids, embeddings, metadatas, documents)]: one
    bulk call that adds the batch to the collection or raises. The four
    parallel lists of the source are one list of records here. *)
Definition add_embeddings (collection batch : list StoreRecord)
  : result (list StoreRecord) :=
  match add_embeddings_error batch with
  | Some e => Raise e
  | None => Ok (collection ++ batch)
  end.

(** [for i, x in enumerate(l)], from index [i]. *)
Fixpoint map_enum {A B : Type} (f : nat -> A -> B) (i : nat) (l : list A) : list B :=
  match l with
  | [] => []
  | x :: l' => f i x :: map_enum f (S i) l'
  end.

(** The record of the transcript chunk at index [i]. *)
Definition transcript_record (video_id : string) (i : nat)
    (p : TranscriptChunk * list Q) : StoreRecord :=
  let (chunk, embedding) := p in
  {| rec_id := video_id ++ "_transcript_" ++ str_of_nat i;
     rec_embedding := embedding;
     rec_metadata :=
       <["video_id" := PStr video_id]>
         (<["content_type" := PStr "transcript"]>
            (<["start_time" := PNum (tc_start_time chunk)]>
               (<["end_time" := PNum (tc_end_time chunk)]>
                  (<["chunk_id" := PStr (tc_id chunk)]> ∅))));
     rec_document := tc_text chunk |}.

(** The record of the described frame at index [i]; the metadata dict reads
    [frame.timestamp], [frame.id], [frame.frame_path] and
    [frame.thumbnail_path], in this order. *)
Definition frame_record (video_id : string) (i : nat)
    (p : FrameData * list Q) : result StoreRecord :=
  let (frame, embedding) := p in
  let* timestamp := FrameData_getattr frame "timestamp" in
  let* frame_id := FrameData_getattr frame "id" in
  let* frame_path := FrameData_getattr frame "frame_path" in
  let* thumbnail_path := FrameData_getattr frame "thumbnail_path" in
  Ok {| rec_id := video_id ++ "_frame_" ++ str_of_nat i;
        rec_embedding := embedding;
        rec_metadata :=
          <["video_id" := PStr video_id]>
            (<["content_type" := PStr "visual"]>
               (<["timestamp" := timestamp]>
                  (<["frame_id" := frame_id]>
                     (<["frame_path" := frame_path]>
                        (<["thumbnail_path" := thumbnail_path]> ∅)))));
        rec_document := default "" (fd_scene_description frame) |}.

Definition index_video_content_body (collection : list StoreRecord)
    (video_id : string) (transcript_chunks : list TranscriptChunk)
    (frames : list FrameData) : result (bool * list StoreRecord) :=
  let transcript_texts := map tc_text transcript_chunks in
  let* transcript_records :=
    match transcript_texts with
    | [] => Ok []
    | _ =>
        let* transcript_embeddings := embed_texts transcript_texts in
        Ok (map_enum (transcript_record video_id) 0
              (combine transcript_chunks transcript_embeddings))
    end in
  let frame_data :=
    List.filter (fun frame => truthy_str (fd_scene_description frame)) frames in
  let frame_descriptions :=
    map (fun frame => default "" (fd_scene_description frame)) frame_data in
  let* frame_records :=
    match frame_descriptions with
    | [] => Ok []
    | _ =>
        let* frame_embeddings := embed_texts frame_descriptions in
        mapM_enum (frame_record video_id) 0 (combine frame_data frame_embeddings)
    end in
  let batch := transcript_records ++ frame_records in
  match batch with
  | [] => Ok (false, collection)
  | _ =>
      let* collection' := add_embeddings collection batch in
      Ok (true, collection')
  end.

(** [index_video_content]: the flag returned and the collection afterwards;
    [except Exception] logs and returns [False]. *)
Definition index_video_content (collection : list StoreRecord)
    (video_id : string) (transcript_chunks : list TranscriptChunk)
    (frames : list FrameData) : bool * list StoreRecord :=
  match index_video_content_body collection video_id transcript_chunks frames with
  | Ok r => r
  | Raise _ => (false, collection)
  end.

End ContentIndexer.

(** The records [index_video_content] builds for the transcript chunks with
    the embeddings of [ai_service]. *)
Definition transcript_batch (gemini_embedding_model : option string)
    (embed_content : string -> result (list Q)) (video_id : string)
    (transcript_chunks : list TranscriptChunk) : list StoreRecord :=
  map_enum (transcript_record video_id) 0
    (combine transcript_chunks
       (generate_text_embeddings gemini_embedding_model embed_content
          (map tc_text transcript_chunks))).

(** ** The status tracker (src/api/routes/videos.py) *)

(** A value of the dict [processing_status]: a dict with the keys [status],
    [progress] and [message], and [note] once it was set. *)
Record StatusEntry : Type := {
  se_status : string;
  se_progress : Q;
  se_message : option string;
  se_note : option string
}.

(** [class ProcessingStatus(BaseModel)], with [progress] constrained to
    [0, 1]. *)
Record ProcessingStatus : Type := {
  ps_video_id : string;
  ps_status : string;
  ps_progress : Q;
  ps_message : option string;
  ps_note : option string
}.

Definition ProcessingStatus_init (video_id status : string) (progress : Q)
    (message note : option string) : result ProcessingStatus :=
  if Qle_bool 0 progress && Qle_bool progress 1
  then Ok {| ps_video_id := video_id; ps_status := status; ps_progress := progress;
             ps_message := message; ps_note := note |}
  else Raise (ValidationError ["progress"]).

(** [metadata_dict.get("status") != "processing"] *)
Definition not_processing (metadata_dict : gmap string pyval) : bool :=
  match dict_get metadata_dict "status" PNone with
  | PStr s => negb (String.eqb s "processing")
  | _ => true
  end.

(** [get_processing_status]: the response, or the HTTP error raised, and
    the tracker afterwards. [storage video_id] is [None] when the video
    directory or its [metadata.json] does not exist, and otherwise the
    outcome of reading and parsing the file. *)
Definition get_processing_status
    (storage : string -> option (result (gmap string pyval)))
    (processing_status : gmap string StatusEntry) (video_id : string)
  : result ProcessingStatus * gmap string StatusEntry :=
  match processing_status !! video_id with
  | Some status_data =>
      (ProcessingStatus_init video_id (se_status status_data)
         (se_progress status_data) (se_message status_data) (se_note status_data),
       processing_status)
  | None =>
      match storage video_id with
      | Some (Ok metadata_dict) =>
          let entry :=
            {| se_status :=
                 if not_processing metadata_dict then "completed" else "processing";
               se_progress :=
                 if not_processing metadata_dict then 1%Q else (1 # 2)%Q;
               se_message := Some "Video is available";
               se_note := None |} in
          let processing_status' := <[video_id := entry]> processing_status in
          match ProcessingStatus_init video_id (se_status entry) (se_progress entry)
                  (se_message entry) None with
          | Ok response => (Ok response, processing_status')
          | Raise _ => (Raise (HTTPException 404), processing_status')
          end
      | _ => (Raise (HTTPException 404), processing_status)
      end
  end.

(** ** The ingestion pipeline (src/api/routes/videos.py) *)

Inductive VideoStatus : Type :=
| UPLOADED | PROCESSING | COMPLETED | FAILED | TRANSCRIPT_ONLY.

Record VideoMetadata : Type := {
  vm_id : string;
  vm_title : string;
  vm_file_path : option string;
  vm_source_url : option string;
  vm_thumbnail_path : option string;
  vm_status : VideoStatus;
  vm_upload_date : string;
  vm_duration : option Q
}.

Definition is_transcript_only (status : VideoStatus) : bool :=
  match status with
  | TRANSCRIPT_ONLY => true
  | _ => false
  end.

(** [str(e)] *)
Definition exn_str (e : exn) : string :=
  match e with
  | AttributeError attr => "object has no attribute '" ++ attr ++ "'"
  | TypeError => "takes from 2 to 3 positional arguments but 4 were given"
  | KeyError key => "'" ++ key ++ "'"
  | IndexError => "list index out of range"
  | ValueError msg => msg
  | ValidationError _ => "validation error"
  | RuntimeError msg => msg
  | HTTPException _ => "http error"
  end.

(** What a run reads and writes: the dict [processing_status] and the
    collection of the vector store. [written] is not in the source: it
    records, in order, the value of [processing_status[video_id]] after
    each write of the run, which is what a reader polling the tracker can
    see. *)
Record PipelineState : Type := {
  tracker : gmap string StatusEntry;
  collection : list StoreRecord;
  written : list StatusEntry
}.

(** A step of the run: it returns or raises, and leaves a state. *)
Definition step (A : Type) : Type := PipelineState -> result A * PipelineState.

Definition ret {A : Type} (a : A) : step A := fun s => (Ok a, s).

Definition and_then {A B : Type} (m : step A) (k : A -> step B) : step B :=
  fun s =>
    match m s with
    | (Ok a, s') => k a s'
    | (Raise e, s') => (Raise e, s')
    end.

Notation "'let!' x := m 'in' k" := (and_then m (fun x => k))
  (at level 10, x name, m at level 100, k at level 200).

(** A call whose outcome is known. *)
Definition lift {A : Type} (r : result A) : step A := fun s => (r, s).

(** [processing_status[video_id] = entry] *)
Definition set_status (video_id : string) (entry : StatusEntry) : step unit :=
  fun s =>
    (Ok tt, {| tracker := <[video_id := entry]> (tracker s);
               collection := collection s;
               written := written s ++ [entry] |}).

(** [processing_status[video_id].update(...)], or an item assignment on
    that dict: [KeyError] when the tracker has no entry for the video. *)
Definition update_status (video_id : string) (change : StatusEntry -> StatusEntry)
  : step unit :=
  fun s =>
    match tracker s !! video_id with
    | Some entry => set_status video_id (change entry) s
    | None => (Raise (KeyError video_id), s)
    end.

Definition with_progress (progress : Q) (message : string) (entry : StatusEntry)
  : StatusEntry :=
  {| se_status := se_status entry; se_progress := progress;
     se_message := Some message; se_note := se_note entry |}.

Definition with_message (message : string) (entry : StatusEntry) : StatusEntry :=
  {| se_status := se_status entry; se_progress := se_progress entry;
     se_message := Some message; se_note := se_note entry |}.

Definition with_note (note : string) (entry : StatusEntry) : StatusEntry :=
  {| se_status := se_status entry; se_progress := se_progress entry;
     se_message := se_message entry; se_note := Some note |}.

Definition with_progress_only (progress : Q) (entry : StatusEntry) : StatusEntry :=
  {| se_status := se_status entry; se_progress := progress;
     se_message := se_message entry; se_note := se_note entry |}.

(** [0.3 + (0.3 * processed_frames / total_frames)] *)
Definition frame_progress (processed_frames total_frames : nat) : Q :=
  ((3 # 10) +
   ((3 # 10) * inject_Z (Z.of_nat processed_frames) / inject_Z (Z.of_nat total_frames)))%Q.

(** Both branches and the handler of [_analyze_frames_with_ai] leave the
    frame with this description. *)
Definition analysis_failed (frame : FrameData) : FrameData :=
  {| fd_id := fd_id frame;
     fd_frame_path := fd_frame_path frame;
     fd_timestamp := fd_timestamp frame;
     fd_scene_description := Some "Analysis failed";
     fd_objects_detected := [];
     fd_confidence_scores := fd_confidence_scores frame |}.

Section Pipeline.

(** The capabilities of one run: the file system, the vision model, the two
    frame samplers ([extract_frames] and [extract_video_frames] with the
    fallback budget), the caption provider, the embedding model and the
    vector store. [call_chapters full_video] is the outcome of the chapter
    synthesis call, on the branch for a video with a file or on the
    transcript-only branch. *)
Variable path_exists : string -> bool.
Variable analyze_image : string -> string.
Variable extract_frames : string -> string -> list FrameData.
Variable extract_video_frames : string -> string -> list FrameData.
Variable YOUTUBE_TRANSCRIPT_AVAILABLE : bool.
Variable _get_best_transcript : string -> list CaptionEntry.
Variable gemini_embedding_model : option string.
Variable embed_content : string -> result (list Q).
Variable add_embeddings_error : list StoreRecord -> option exn.
Variable call_chapters : bool -> result unit.

(** The loop of [_analyze_frames_with_ai]. [analyze_image] returns a
    string: when it is not empty, [analysis.get] raises, the handler of the
    iteration counts the frame and no progress is written; when it is
    empty, the frame is counted and the progress is written. A tracker
    without entry makes that write raise after the count, and the handler
    counts the frame once more. *)
Fixpoint analyze_frames_loop (video_id : string) (total_frames processed_frames : nat)
    (frames : list FrameData) : step (list FrameData) :=
  match frames with
  | [] => ret []
  | frame :: rest =>
      let analysis := analyze_image (fd_frame_path frame) in
      let! processed_frames :=
        if nonempty analysis then ret (S processed_frames)
        else
          fun s =>
            match update_status video_id
                    (with_progress_only (frame_progress (S processed_frames) total_frames)) s
            with
            | (Ok _, s') => (Ok (S processed_frames), s')
            | (Raise _, s') => (Ok (S (S processed_frames)), s')
            end in
      let! rest' := analyze_frames_loop video_id total_frames processed_frames rest in
      ret (analysis_failed frame :: rest')
  end.

Definition _analyze_frames_with_ai (frames : list FrameData) (video_id : string)
  : step (list FrameData) :=
  analyze_frames_loop video_id (length frames) 0 frames.

(** [metadata.file_path and Path(metadata.file_path).exists()] *)
Definition has_video_file (metadata : VideoMetadata) : bool :=
  match vm_file_path metadata with
  | Some p => nonempty p && path_exists p
  | None => false
  end.

(** The fallback of the pipeline when no caption was found for a video
    that is not transcript-only: the transcript chunks and the frames it
    leaves. *)
Definition pseudo_transcript_fallback (video_id : string) (metadata : VideoMetadata)
  : step (list TranscriptChunk * list FrameData) :=
  if has_video_file metadata then
    let! _ := update_status video_id
                (with_message "No transcript found. Analyzing video frames...") in
    match extract_video_frames (default "" (vm_file_path metadata)) video_id with
    | [] => ret ([], [])
    | sampled_frames =>
        let! _ := update_status video_id
                    (with_message "Generating frame descriptions...") in
        match analyze_video_frames path_exists analyze_image sampled_frames with
        | [] => ret ([], [])
        | frames =>
            ret (generate_pseudo_transcript_from_frames path_exists analyze_image
                   video_id frames, frames)
        end
    end
  else ret ([], []).

(** [rag_service.index_video_content], on the collection of the state. *)
Definition index_step (video_id : string) (transcript_chunks : list TranscriptChunk)
    (frames : list FrameData) : step bool :=
  fun s =>
    let (indexed, collection') :=
      index_video_content
        (fun texts => Ok (generate_text_embeddings gemini_embedding_model embed_content texts))
        add_embeddings_error (collection s) video_id transcript_chunks frames in
    (Ok indexed, {| tracker := tracker s; collection := collection';
                    written := written s |}).

(** The [try] block of [process_video_pipeline]. The summary, the thumbnail
    and the update of [metadata.json] catch their own exceptions and touch
    neither the tracker nor the collection. *)
Definition process_video_pipeline_body (video_id : string) (metadata : VideoMetadata)
  : step unit :=
  let transcript_only := is_transcript_only (vm_status metadata) in
  let! _ := set_status video_id
              {| se_status := "processing"; se_progress := 1 # 10;
                 se_message := Some "Starting video processing...";
                 se_note := None |} in
  let! frames :=
    if transcript_only then
      let! _ := update_status video_id
                  (with_progress (3 # 10) "Processing transcript-only video...") in
      ret []
    else if has_video_file metadata then
      let frames := extract_frames (default "" (vm_file_path metadata)) video_id in
      let! _ := update_status video_id
                  (with_progress (3 # 10) "Frames extracted, analyzing content...") in
      _analyze_frames_with_ai frames video_id
    else ret [] in
  let! _ := update_status video_id (with_progress (6 # 10) "Extracting transcript...") in
  let transcript_chunks :=
    match vm_source_url metadata with
    | Some url =>
        if nonempty url
        then extract_youtube_transcript YOUTUBE_TRANSCRIPT_AVAILABLE
               _get_best_transcript url video_id
        else []
    | None => []
    end in
  let! _ := update_status video_id (with_progress (7 # 10) "Processing video content...") in
  let! content :=
    match transcript_chunks with
    | [] =>
        if negb transcript_only
        then pseudo_transcript_fallback video_id metadata
        else ret (transcript_chunks, frames)
    | _ => ret (transcript_chunks, frames)
    end in
  let transcript_chunks := fst content in
  let frames := snd content in
  let! _ := update_status video_id (with_progress (8 # 10) "Generating chapters...") in
  let! _ := lift (call_chapters
                    (negb transcript_only && truthy_str (vm_file_path metadata))) in
  let! _ := update_status video_id
              (with_progress (8 # 10) "Creating embeddings and indexing...") in
  let! indexed := index_step video_id transcript_chunks frames in
  let! _ :=
    match transcript_chunks with
    | [] =>
        update_status video_id
          (with_note "No transcripts were found for this video. Limited search capabilities may be available based on visual content.")
    | _ => ret tt
    end in
  let! _ := update_status video_id (with_progress (9 # 10) "Generating summary...") in
  set_status video_id
    {| se_status := "completed"; se_progress := 1;
       se_message := Some "Video processing completed successfully";
       se_note := None |}.

(** [process_video_pipeline]: the state after the run. An exception of the
    body is recorded as a failure. *)
Definition process_video_pipeline (video_id : string) (metadata : VideoMetadata)
    (s : PipelineState) : PipelineState :=
  match process_video_pipeline_body video_id metadata s with
  | (Ok _, s') => s'
  | (Raise e, s') =>
      snd (set_status video_id
             {| se_status := "failed"; se_progress := 0;
                se_message := Some ("Processing failed: " ++ exn_str e)%string;
                se_note := None |} s')
  end.

End Pipeline.

(** The chapter synthesis call as the pipeline writes it: for a video with
    a file it passes three arguments to [generate_video_chapters(self,
    video_id, transcript_chunks=None)], otherwise it calls
    [generate_chapters_from_transcript], a method the video processor does
    not have. *)
Definition chapters_call_as_written (full_video : bool) : result unit :=
  if full_video then Raise TypeError
  else Raise (AttributeError "generate_chapters_from_transcript").

(** The progress checkpoints of the pipeline. *)
Definition checkpoints : list Q := [1 # 10; 3 # 10; 6 # 10; 7 # 10; 8 # 10; 9 # 10; 1]%Q.

(** A progress value the pipeline reports: a checkpoint, or the progress
    after [k] of [n] analyzed frames. *)
Definition reported (progress : Q) : Prop :=
  In progress checkpoints \/
  exists k n, (0 < k <= n)%nat /\ progress = frame_progress k n.

(** An entry written while the run is under way. *)
Definition in_progress (entry : StatusEntry) : Prop :=
  se_status entry = "processing" /\ reported (se_progress entry) /\
  (se_progress entry <= 9 # 10)%Q.

(** The run has written to the tracker, every entry it wrote is
    [in_progress], the progress never went down, it is at most [bound] now,
    and the tracker holds the last entry written. *)
Definition under_way (video_id : string) (bound : Q) (s : PipelineState) : Prop :=
  exists pre entry,
    written s = pre ++ [entry] /\
    tracker s !! video_id = Some entry /\
    Forall in_progress (written s) /\
    Sorted Qle (map se_progress (written s)) /\
    (exists first rest, written s = first :: rest /\ se_progress first = (1 # 10)%Q) /\
    (se_progress entry <= bound)%Q.

(** [hoare P m Q E]: from a state in [P], [m] returns [a] in a state of
    [Q a], or raises in a state of [E]. *)
Definition hoare {A : Type} (P : PipelineState -> Prop) (m : step A)
    (Q : A -> PipelineState -> Prop) (E : PipelineState -> Prop) : Prop :=
  forall s, P s ->
    match m s with
    | (Ok a, s') => Q a s'
    | (Raise _, s') => E s'
    end.

(** ** The caption fallback chain (src/services/video_processor.py) *)

(** A caption track of [YouTubeTranscriptApi.list_transcripts]: whether it
    is translatable, and the outcomes of [translate('en').fetch()] and of
    [fetch()]. *)
Record TranscriptTrack : Type := {
  tt_is_translatable : bool;
  tt_translate_en_fetch : result (list CaptionEntry);
  tt_fetch : result (list CaptionEntry)
}.

Section CaptionProvider.

(** [YouTubeTranscriptApi.get_transcript(id, languages=...)] and
    [YouTubeTranscriptApi.list_transcripts(id)]. *)
Variable get_transcript : string -> list string -> result (list CaptionEntry).
Variable list_transcripts : string -> result (list TranscriptTrack).

(** The loop of [_get_auto_transcript]: the first language whose transcript
    can be fetched. *)
Fixpoint first_language_transcript (yt_video_id : string) (languages : list string)
  : list CaptionEntry :=
  match languages with
  | [] => []
  | lang :: rest =>
      match get_transcript yt_video_id [lang] with
      | Ok transcript => transcript
      | Raise _ => first_language_transcript yt_video_id rest
      end
  end.

Definition common_languages : list string := ["en"; "es"; "fr"; "de"; "pt"; "it"].

Definition _get_auto_transcript (yt_video_id : string) : list CaptionEntry :=
  first_language_transcript yt_video_id common_languages.

(** [_get_any_transcript]: the first translatable track, translated to
    English; without one, the first track as it is; the empty list when
    anything raises or no track exists. *)
Definition _get_any_transcript (yt_video_id : string) : list CaptionEntry :=
  match
    (let* transcript_obj := list_transcripts yt_video_id in
     match List.find tt_is_translatable transcript_obj with
     | Some transcript => tt_translate_en_fetch transcript
     | None =>
         match transcript_obj with
         | transcript :: _ => tt_fetch transcript
         | [] => Ok []
         end
     end)
  with
  | Ok transcript => transcript
  | Raise _ => []
  end.

(** The strategies of [_get_best_transcript]: a name and the languages, or
    [None]. *)
Definition strategies : list (string * option (list string)) :=
  [ ("English", Some ["en"]);
    ("English variants", Some ["en-US"; "en-GB"]);
    ("Auto-generated", None);
    ("Any available", None) ].

(** The body of the [try] for one strategy. *)
Definition attempt_strategy (yt_video_id : string)
    (strategy : string * option (list string)) : result (list CaptionEntry) :=
  match snd strategy with
  | Some (l :: ls) => get_transcript yt_video_id (l :: ls)
  | _ =>
      if String.eqb (fst strategy) "Auto-generated"
      then Ok (_get_auto_transcript yt_video_id)
      else Ok (_get_any_transcript yt_video_id)
  end.

(** The loop over the strategies: the first one that does not raise
    returns. *)
Fixpoint first_strategy_result (yt_video_id : string)
    (remaining : list (string * option (list string))) : list CaptionEntry :=
  match remaining with
  | [] => []
  | strategy :: rest =>
      match attempt_strategy yt_video_id strategy with
      | Ok transcript => transcript
      | Raise _ => first_strategy_result yt_video_id rest
      end
  end.

Definition _get_best_transcript (yt_video_id : string) : list CaptionEntry :=
  first_strategy_result yt_video_id strategies.

End CaptionProvider.

(** ** Chapter synthesis (src/services/video_processor.py) *)

Record VideoChapter : Type := {
  ch_id : string;
  ch_title : string;
  ch_start_time : Q;
  ch_end_time : Q;
  ch_description : option string;
  ch_thumbnail_path : option string
}.

(** [s[:n]] *)
Fixpoint str_take (n : nat) (s : string) : string :=
  match n, s with
  | O, _ => EmptyString
  | S _, EmptyString => EmptyString
  | S n', String c s' => String c (str_take n' s')
  end.

(** [text[:100] + "..." if len(text) > 100 else text] *)
Definition chapter_description (text : string) : string :=
  if (100 <? String.length text)%nat then (str_take 100 text ++ "...")%string else text.

Definition chapter_of_chunk (i : nat) (chunk : TranscriptChunk) : VideoChapter :=
  {| ch_id := "transcript_chapter_" ++ str_of_nat i;
     ch_title := "Section " ++ str_of_nat (i + 1);
     ch_start_time := tc_start_time chunk;
     ch_end_time := tc_end_time chunk;
     ch_description := Some (chapter_description (tc_text chunk));
     ch_thumbnail_path := None |}.

(** [_generate_chapters_from_transcript]: one chapter for each of the first
    three chunks. *)
Definition _generate_chapters_from_transcript (video_id : string)
    (transcript_chunks : list TranscriptChunk) : list VideoChapter :=
  map_enum chapter_of_chunk 0 (firstn 3 transcript_chunks).

Definition default_chapter (i : nat) : VideoChapter :=
  {| ch_id := "chapter_" ++ str_of_nat i;
     ch_title := "Chapter " ++ str_of_nat (i + 1);
     ch_start_time := (inject_Z (Z.of_nat i) * 120)%Q;
     ch_end_time := (inject_Z (Z.of_nat (i + 1)) * 120)%Q;
     ch_description := Some ("Video content - part " ++ str_of_nat (i + 1))%string;
     ch_thumbnail_path := None |}.

Definition _generate_default_chapters (video_id : string) : list VideoChapter :=
  map default_chapter (seq 0 3).

(** [generate_video_chapters(video_id, transcript_chunks=None)] *)
Definition generate_video_chapters (video_id : string)
    (transcript_chunks : option (list TranscriptChunk)) : list VideoChapter :=
  match transcript_chunks with
  | Some (chunk :: chunks) =>
      _generate_chapters_from_transcript video_id (chunk :: chunks)
  | _ => _generate_default_chapters video_id
  end.

(** ** The frame sampler (src/services/video_processor.py) *)

(** [int(x)] for a float: truncation towards zero. *)
Definition py_int (q : Q) : Z := Z.quot (Qnum q) (Zpos (Qden q)).

(** What [cv2.VideoCapture(path)] gives: whether it opened, the frame rate
    and the frame count it reports, and whether [read()] returns a frame
    once the capture is positioned at a frame index. *)
Record VideoCapture : Type := {
  cap_is_opened : bool;
  cap_fps : Q;
  cap_frame_count : Q;
  cap_read : Z -> bool
}.

Section FrameSampler.

(** The file system and the decoder: whether the video file exists, the
    creation of the frames directory, the capture opened on a path, the
    path [str(frames_dir / f"frame_{i:04d}_{timestamp:.2f}.jpg")] of the
    image of the frame [i] at [timestamp], and the writing of that image and
    of its thumbnail.  The calls that touch the disk can raise. *)
Variable path_exists : string -> bool.
Variable mkdir_frames : string -> result unit.
Variable open_capture : string -> result VideoCapture.
Variable frame_file : string -> nat -> Q -> string.
Variable save_frame : string -> Z -> result unit.

(** [interval = total_frames / frames_to_sample if frames_to_sample > 0
    else total_frames] *)
Definition sample_interval (total_frames frames_to_sample : Z) : Q :=
  if (0 <? frames_to_sample)%Z
  then (inject_Z total_frames / inject_Z frames_to_sample)%Q
  else inject_Z total_frames.

(** [position = int(i * interval)] *)
Definition sample_position (total_frames frames_to_sample : Z) (i : nat) : Z :=
  py_int (inject_Z (Z.of_nat i) * sample_interval total_frames frames_to_sample).

(** One iteration of the loop: nothing when the frame cannot be read. *)
Definition sampled_frame (video_id : string) (fps : Q) (cap : VideoCapture)
    (total_frames frames_to_sample : Z) (i : nat) : result (list FrameData) :=
  let position := sample_position total_frames frames_to_sample i in
  if cap_read cap position then
    let timestamp := (inject_Z position / fps)%Q in
    let frame_path := frame_file video_id i timestamp in
    let* _ := save_frame frame_path position in
    Ok [ {| fd_id := video_id ++ "_frame_" ++ str_of_nat i;
            fd_frame_path := frame_path;
            fd_timestamp := timestamp;
            fd_scene_description := None;
            fd_objects_detected := [];
            fd_confidence_scores := [] |} ]
  else Ok [].

(** [fps = cap.get(cv2.CAP_PROP_FPS) or 30] *)
Definition capture_fps (cap : VideoCapture) : Q :=
  if Qeq_bool (cap_fps cap) 0 then 30%Q else cap_fps cap.

(** [min(max_frames, max(1, int(total_frames * sample_rate)))] *)
Definition frames_to_sample_of (total_frames max_frames : Z) (sample_rate : Q) : Z :=
  Z.min max_frames (Z.max 1 (py_int (inject_Z total_frames * sample_rate))).

(** The body of the [try] block. *)
Definition extract_video_frames_body (video_path video_id : string)
    (max_frames : Z) (sample_rate : Q) : result (list FrameData) :=
  if negb (path_exists video_path) then Ok []
  else
    let* _ := mkdir_frames video_id in
    let* cap := open_capture video_path in
    if negb (cap_is_opened cap) then Ok []
    else
      let fps := capture_fps cap in
      let total_frames := py_int (cap_frame_count cap) in
      let duration := if Qlt_bool 0 fps then (inject_Z total_frames / fps)%Q else 0%Q in
      if Qeq_bool duration 0 || (total_frames =? 0)%Z then Ok []
      else
        let frames_to_sample := frames_to_sample_of total_frames max_frames sample_rate in
        let* extracted :=
          mapM (sampled_frame video_id fps cap total_frames frames_to_sample)
               (seq 0 (Z.to_nat frames_to_sample)) in
        Ok (concat extracted).

(** [except Exception: return []] *)
Definition extract_video_frames (video_path video_id : string) (max_frames : Z)
    (sample_rate : Q) : list FrameData :=
  match extract_video_frames_body video_path video_id max_frames sample_rate with
  | Ok frames => frames
  | Raise _ => []
  end.

(** [extract_frames(video_path, video_id, max_frames=20)] passes no sampling
    rate, so the default 0.1 applies. *)
Definition extract_frames (video_path video_id : string) (max_frames : Z)
  : list FrameData :=
  extract_video_frames video_path video_id max_frames (1 # 10).

End FrameSampler.


(** ** Key frames and detailed descriptions (src/services/ai_service.py) *)

(** The indices of the ten key frames of a video of more than ten frames:
    [indices = [i * step for i in range(10)]], the last one replaced by
    [total_frames - 1] unless that index is already listed. *)
Definition key_indices (total_frames : nat) : list nat :=
  let step := (total_frames / 10)%nat in
  let indices := map (fun i => (i * step)%nat) (seq 0 10) in
  if existsb (Nat.eqb (total_frames - 1)) indices then indices
  else <[9%nat := (total_frames - 1)%nat]> indices.

(** [sorted_frames[i]], which raises out of range. *)
Definition frame_at (sorted_frames : list FrameData) (i : nat) : result FrameData :=
  match nth_error sorted_frames i with
  | Some frame => Ok frame
  | None => Raise IndexError
  end.

Section DetailedDescriptions.

(** [Path(p).exists()], and the vision model on the image at a path: the
    stripped text of the response, [None] for a response without text; the
    call raises where opening the image or the model does (also when no
    vision model is configured). *)
Variable path_exists : string -> bool.
Variable describe_image : string -> result (option string).

(** One iteration of the loop over the key frames.  A frame without a
    usable image, or whose analysis fails, is kept as it is. *)
Definition enhance_frame (frame : FrameData) : FrameData :=
  if String.eqb (fd_frame_path frame) "" || negb (path_exists (fd_frame_path frame))
  then frame
  else
    match describe_image (fd_frame_path frame) with
    | Ok (Some text) => set_scene_description frame text
    | Ok None => frame
    | Raise _ => frame
    end.

(** The body of the [try] block. *)
Definition generate_detailed_frame_descriptions_body (frames : list FrameData)
  : result (list FrameData) :=
  let sorted_frames := sorted_by fd_timestamp frames in
  let total_frames := length sorted_frames in
  let* key_frames :=
    if (total_frames <=? 10)%nat then Ok sorted_frames
    else mapM (frame_at sorted_frames) (key_indices total_frames) in
  Ok (map enhance_frame key_frames).

(** The frames of the input are taken to be distinct objects, so that the
    description set on one is not seen through another. *)
Definition generate_detailed_frame_descriptions (frames : list FrameData)
  : list FrameData :=
  match frames with
  | [] => []
  | _ =>
      match generate_detailed_frame_descriptions_body frames with
      | Ok enhanced_frames => enhanced_frames
      | Raise _ => frames
      end
  end.

End DetailedDescriptions.


(** ** Content around a timestamp (src/services/rag_service.py) *)

(** A metadata value compared with a float: only a number compares, any
    other value raises [TypeError]. *)
Definition py_num (v : pyval) : result Q :=
  match v with
  | PNum q => Ok q
  | _ => Raise TypeError
  end.

Section ContentWindow.

(** [self.db.query_embeddings] and [uuid.uuid4()] at each use. *)
Variable query_embeddings :
  list (list Q) -> nat -> option where_filter -> result (option QueryResponse).
Variable uuid4 : nat -> string.

(** What one record of the video becomes: a chunk or a frame when it lies
    in the window, nothing otherwise. *)
Definition window_hit (video_id : string) (start_time end_time : Q)
    (all_results : QueryResponse) (i : nat) (metadata : gmap string pyval)
  : result retrieved :=
  let content_type := dict_get metadata "content_type" PNone in
  let* document := row_item "documents" (qr_documents all_results) i "" in
  match content_type with
  | PStr "transcript" =>
      let start := dict_get metadata "start_time" (PNum 0) in
      let end_ := dict_get metadata "end_time" (PNum 0) in
      let* s := py_num start in
      if Qle_bool start_time s then
        let* e := py_num end_ in
        if Qle_bool e end_time then
          let* transcript :=
            TranscriptChunk_init
              [ ("id", dict_get metadata "chunk_id" (PStr ("temp_" ++ uuid4 i)));
                ("video_id", PStr video_id);
                ("text", PStr document);
                ("start_time", start);
                ("end_time", end_) ] in
          Ok (RetrievedTranscript transcript)
        else Ok RetrievedOther
      else Ok RetrievedOther
  | PStr "visual" =>
      let ts := dict_get metadata "timestamp" (PNum 0) in
      let* t := py_num ts in
      if Qle_bool start_time t && Qle_bool t end_time then
        let* frame :=
          FrameData_init
            [ ("id", dict_get metadata "frame_id" (PStr ("temp_" ++ uuid4 i)));
              ("video_id", PStr video_id);
              ("timestamp", ts);
              ("frame_path", dict_get metadata "frame_path" (PStr ""));
              ("thumbnail_path", dict_get metadata "thumbnail_path" (PStr ""));
              ("scene_description", PStr document) ] in
        Ok (RetrievedFrame frame)
      else Ok RetrievedOther
  | _ => Ok RetrievedOther
  end.

(** The body of the [try] block: all the records of the video are fetched
    with a dummy embedding and filtered by time, then both lists are
    sorted. *)
Definition get_content_around_timestamp_body (video_id : string)
    (timestamp window_seconds : Q)
  : result (list TranscriptChunk * list FrameData) :=
  let start_time := py_max 0 (timestamp - window_seconds) in
  let end_time := (timestamp + window_seconds)%Q in
  let* all_results :=
    query_embeddings [zero_vector] 1000 (Some [("video_id", WhereEq video_id)]) in
  let* hits :=
    match all_results with
    | Some r =>
        if has_metadatas all_results then
          let* metadatas := first_row "metadatas" (qr_metadatas r) in
          mapM_enum (window_hit video_id start_time end_time r) 0 metadatas
        else Ok []
    | None => Ok []
    end in
  Ok (sorted_by tc_start_time (transcripts_of hits),
      sorted_by fd_timestamp (frames_of hits)).

(** [except Exception: return [], []] *)
Definition get_content_around_timestamp (video_id : string)
    (timestamp window_seconds : Q) : list TranscriptChunk * list FrameData :=
  match get_content_around_timestamp_body video_id timestamp window_seconds with
  | Ok r => r
  | Raise _ => ([], [])
  end.

End ContentWindow.


(** ** Chat over a video (src/services/ai_service.py) *)

(** [chr(10)] and the indentation of the lines of the prompt. *)
Definition nl : string := String (ascii_of_nat 10) EmptyString.
Definition pad12 : string := "            ".

(** [l[-n:]] for a positive [n]. *)
Definition last_n {A : Type} (n : nat) (l : list A) : list A :=
  skipn (length l - n) l.

(** [d[key]] on a dict of strings. *)
Definition dict_item (d : gmap string string) (key : string) : result string :=
  match d !! key with
  | Some v => Ok v
  | None => Raise (KeyError key)
  end.

Section ChatWithVideo.

(** [self.gemini_text_model], [None] when no API key is configured; a call
    of [generate_content] gives the text of the response, [None] for a
    response that is falsy, or raises.  [format_1f x] is [f"{x:.1f}"].
    An argument [None] and an empty list take the same branches, so the
    optional lists are lists here. *)
Variable gemini_text_model : option (string -> result (option string)).
Variable format_1f : Q -> string.

(** The lines and the candidate timestamps the transcript adds. *)
Definition chunk_context (transcript_chunks : list TranscriptChunk)
  : list string * list Q :=
  match transcript_chunks with
  | [] => ([], [])
  | _ =>
      ("Transcript:" ::
         map (fun chunk =>
                "[" ++ format_1f (tc_start_time chunk) ++ "s]: " ++ tc_text chunk)
             (firstn 5 transcript_chunks),
       map tc_start_time (firstn 5 transcript_chunks))
  end%string.

(** The frames of [frames[:3]] that carry a description. *)
Definition described_frames (frames : list FrameData) : list FrameData :=
  List.filter (fun frame => truthy_str (fd_scene_description frame)) (firstn 3 frames).

(** The lines and the candidate timestamps the frames add. *)
Definition frame_context (frames : list FrameData) : list string * list Q :=
  match frames with
  | [] => ([], [])
  | _ =>
      ("Visual content:" ::
         map (fun frame =>
                "[" ++ format_1f (fd_timestamp frame) ++ "s]: "
                ++ default "" (fd_scene_description frame))
             (described_frames frames),
       map fd_timestamp (described_frames frames))
  end%string.

Definition history_line (msg : gmap string string) : result string :=
  let* role := dict_item msg "role" in
  let* content := dict_item msg "content" in
  Ok (role ++ ": " ++ content ++ nl)%string.

Definition conversation_context_of (conversation_history : list (gmap string string))
  : result string :=
  match conversation_history with
  | [] => Ok ""
  | _ =>
      let* lines := mapM history_line (last_n 3 conversation_history) in
      Ok (nl ++ "Previous conversation:" ++ nl ++ String.concat "" lines)%string
  end.

Definition chat_prompt (context_parts : list string)
    (conversation_context user_message : string) : string :=
  ("You are analyzing video content. Use the provided information to answer accurately."
   ++ nl ++ pad12
   ++ nl ++ pad12 ++ "Video Context:"
   ++ nl ++ pad12 ++ String.concat nl context_parts
   ++ nl ++ pad12
   ++ nl ++ pad12 ++ conversation_context
   ++ nl ++ pad12
   ++ nl ++ pad12 ++ "User Question: " ++ user_message
   ++ nl ++ pad12
   ++ nl ++ pad12
   ++ "Answer based on the video content. Reference timestamps when relevant (format: [MM:SS])."
   ++ nl ++ pad12)%string.

(** The body of the [try] block. *)
Definition chat_with_video_body (video_id user_message : string)
    (transcript_chunks : list TranscriptChunk) (frames : list FrameData)
    (conversation_history : list (gmap string string)) : result (string * list Q) :=
  match gemini_text_model with
  | None => Ok ("AI chat not available. Please configure Gemini API key.", [])
  | Some generate_content =>
      let context_parts :=
        fst (chunk_context transcript_chunks) ++ fst (frame_context frames) in
      let timestamps :=
        snd (chunk_context transcript_chunks) ++ snd (frame_context frames) in
      let* conversation_context := conversation_context_of conversation_history in
      let prompt := chat_prompt context_parts conversation_context user_message in
      let* response := generate_content prompt in
      let response_text := default "Unable to generate response" response in
      Ok (response_text, _extract_timestamps response_text timestamps)
  end.

(** [except Exception as e]: the apology with [str(e)], and no reference. *)
Definition chat_with_video (video_id user_message : string)
    (transcript_chunks : list TranscriptChunk) (frames : list FrameData)
    (conversation_history : list (gmap string string)) : string * list Q :=
  match chat_with_video_body video_id user_message transcript_chunks frames
          conversation_history with
  | Ok r => r
  | Raise e => (("Sorry, I encountered an error: " ++ exn_str e)%string, [])
  end.

End ChatWithVideo.


(** ** The videos of the store (src/services/rag_service.py) *)

(** [a == b] on metadata values. *)
Definition pyval_eqb (a b : pyval) : bool :=
  match a, b with
  | PNone, PNone => true
  | PStr s, PStr t => String.eqb s t
  | PNum p, PNum q => Qeq_bool p q
  | PList l, PList m => bool_decide (l = m)
  | _, _ => false
  end.

(** Two values that a set holds once. *)
Definition same_value (a b : pyval) : Prop := pyval_eqb a b = true.

(** A list cannot be put in a set. *)
Definition hashable (v : pyval) : result pyval :=
  match v with
  | PList _ => Raise TypeError
  | _ => Ok v
  end.

(** The elements of the set built by adding the values of [l] in order:
    one for each class of equal values.  They are listed in order of first
    occurrence, which stands for the unspecified order of the set. *)
Fixpoint py_set (l : list pyval) : list pyval :=
  match l with
  | [] => []
  | x :: l' => x :: List.filter (fun y => negb (pyval_eqb x y)) (py_set l')
  end.

(** One entry of [get_available_videos]. *)
Definition video_entry (video_id : pyval) : gmap string pyval :=
  <["video_id" := video_id]> (<["status" := PStr "processed"]> ∅).

(** What [_get_video_id_match] sees of an entry: [v.get('video_id')]; a
    value that is not a string is equal to no requested identifier, like
    [None]. *)
Definition video_info_of (v : gmap string pyval) : VideoInfo :=
  {| vi_video_id := match v !! "video_id" with
                    | Some (PStr s) => Some s
                    | _ => None
                    end;
     vi_status := match v !! "status" with
                  | Some (PStr s) => Some s
                  | _ => None
                  end |}.

(** The dict [get_video_stats] returns. *)
Record VideoStats : Type := {
  vs_video_id : option string;
  vs_transcript_chunks : nat;
  vs_frame_descriptions : nat;
  vs_total_content : nat
}.

(** [metadata.get('content_type', '') == t] *)
Definition content_type_is (t : string) (metadata : gmap string pyval) : bool :=
  pyval_eqb (dict_get metadata "content_type" (PStr "")) (PStr t).

Section StoreListing.

(** [if not self.db.client: await self.db.initialize()], which can raise,
    and [self.db.get_collection().get(where=..., include=["metadatas"])]
    followed by [.get('metadatas')]: [None] when the answer is falsy or
    holds no metadatas.  A metadata that is [None] is the empty dict here;
    the code treats both alike. *)
Variable ensure_client : result unit.
Variable collection_get :
  option where_filter -> result (option (list (gmap string pyval))).

(** The values added to [video_ids], in order. *)
Definition metadata_video_ids (metadatas : list (gmap string pyval)) : list pyval :=
  omap (fun metadata => metadata !! "video_id") metadatas.

Definition get_available_videos_body : result (list (gmap string pyval)) :=
  let* _ := ensure_client in
  let* all_docs := collection_get None in
  let* added :=
    match all_docs with
    | Some metadatas => mapM hashable (metadata_video_ids metadatas)
    | None => Ok []
    end in
  Ok (map video_entry (py_set added)).

(** [except Exception: return []] *)
Definition get_available_videos : list (gmap string pyval) :=
  match get_available_videos_body with
  | Ok available_videos => available_videos
  | Raise _ => []
  end.

Definition get_video_stats (video_id : string) : VideoStats :=
  match (let* _ := ensure_client in
         collection_get (Some [("video_id", WhereEq video_id)])) with
  | Ok video_docs =>
      let metadatas := default [] video_docs in
      let transcript_count := length (List.filter (content_type_is "transcript") metadatas) in
      let frame_count :=
        length (List.filter (fun metadata =>
                               negb (content_type_is "transcript" metadata)
                               && content_type_is "visual" metadata) metadatas) in
      {| vs_video_id := Some video_id;
         vs_transcript_chunks := transcript_count;
         vs_frame_descriptions := frame_count;
         vs_total_content := (transcript_count + frame_count)%nat |}
  | Raise _ =>
      {| vs_video_id := None; vs_transcript_chunks := 0; vs_frame_descriptions := 0;
         vs_total_content := 0 |}
  end.

End StoreListing.




(** ** The chat route (src/api/routes/chat.py, src/models/video_data.py) *)

Record ChatMessage : Type := {
  cm_role : string;
  cm_content : string;
  cm_timestamp : option Q
}.

Record ChatRequest : Type := {
  creq_message : string;
  creq_video_id : string;
  creq_chat_history : list ChatMessage
}.

Record ChatResponse : Type := {
  cr_response : string;
  cr_timestamp_references : list Q;
  cr_confidence : option Q;
  cr_sources_used : list string
}.

(** [0.0 <= confidence <= 1.0] for a confidence that is given. *)
Definition confidence_in_range (confidence : option Q) : bool :=
  match confidence with
  | Some c => Qle_bool 0 c && Qle_bool c 1
  | None => true
  end.

(** The constructor call [ChatResponse(...)]: the validator of
    [timestamp_references] runs on the list given and its result is what the
    model stores; every field that fails is reported in one
    [ValidationError]. *)
Definition ChatResponse_init (response : string) (timestamp_references : list Q)
    (confidence : option Q) (sources_used : list string) : result ChatResponse :=
  match validate_timestamps timestamp_references, confidence_in_range confidence with
  | Ok validated, true =>
      Ok {| cr_response := response; cr_timestamp_references := validated;
            cr_confidence := confidence; cr_sources_used := sources_used |}
  | Ok _, false => Raise (ValidationError ["confidence"])
  | Raise _, true => Raise (ValidationError ["timestamp_references"])
  | Raise _, false => Raise (ValidationError ["timestamp_references"; "confidence"])
  end.

(** The dict [get_context_for_query] returns. *)
Record QueryContext : Type := {
  ctx_transcript_chunks : list TranscriptChunk;
  ctx_frames : list FrameData;
  ctx_formatted_context : string
}.

(** [{"role": msg.role, "content": msg.content}] *)
Definition history_entry (msg : ChatMessage) : gmap string string :=
  <["role" := cm_role msg]> (<["content" := cm_content msg]> ∅).

Section ChatRoute.

(** The capabilities of the services the route goes through; [repr_list l]
    is the text an f-string gives for the list [l]. *)
Variable ensure_client : result unit.
Variable collection_get :
  option where_filter -> result (option (list (gmap string pyval))).
Variable embed_texts : list string -> result (list (list Q)).
Variable query_embeddings :
  list (list Q) -> nat -> option where_filter -> result (option QueryResponse).
Variable uuid4 : nat -> string.
Variable gemini_text_model : option (string -> result (option string)).
Variable format_1f : Q -> string.
Variable repr_list : list pyval -> string.

Definition _format_context_string (transcript_chunks : list TranscriptChunk)
    (frames : list FrameData) : string :=
  let transcript_parts :=
    map (fun chunk =>
           ("Transcript (" ++ format_1f (tc_start_time chunk) ++ "s): "
            ++ tc_text chunk)%string) transcript_chunks in
  let visual_parts :=
    map (fun frame =>
           ("Visual (" ++ format_1f (fd_timestamp frame) ++ "s): "
            ++ default "" (fd_scene_description frame))%string)
        (List.filter (fun frame => truthy_str (fd_scene_description frame)) frames) in
  let context_parts := transcript_parts ++ visual_parts in
  match context_parts with
  | [] => "No relevant context found."
  | _ => String.concat (nl ++ nl)%string context_parts
  end.

(** [get_context_for_query(video_id, query, max_results=5)]; the retrieval
    it calls has a handler of its own and hands back two empty lists when
    it fails. *)
Definition get_context_for_query (video_id query : string) : QueryContext :=
  match retrieve_relevant_content embed_texts query_embeddings uuid4 query video_id 5
          None with
  | Ok (transcript_chunks, frames) =>
      {| ctx_transcript_chunks := transcript_chunks;
         ctx_frames := frames;
         ctx_formatted_context := _format_context_string transcript_chunks frames |}
  | Raise _ =>
      {| ctx_transcript_chunks := []; ctx_frames := [];
         ctx_formatted_context := "Error retrieving context." |}
  end.

(** [0.8 if transcript_chunks or frames else 0.3] *)
Definition chat_confidence (transcript_chunks : list TranscriptChunk)
    (frames : list FrameData) : Q :=
  match transcript_chunks, frames with
  | [], [] => 3 # 10
  | _, _ => 8 # 10
  end.

(** The body of the [try] block of [send_chat_message]. *)
Definition send_chat_message_body (request : ChatRequest) : result ChatResponse :=
  let available_videos := get_available_videos ensure_client collection_get in
  let target_video_id :=
    _get_video_id_match (creq_video_id request) (map video_info_of available_videos) in
  if negb (truthy_str target_video_id) then
    let video_ids := map (fun v => dict_get v "video_id" PNone) available_videos in
    ChatResponse_init
      ("Video '" ++ creq_video_id request ++ "' not found. Available videos: "
       ++ repr_list video_ids)%string
      [] (Some 0%Q) []
  else
    let target := default "" target_video_id in
    let context := get_context_for_query target (creq_message request) in
    let transcript_chunks := ctx_transcript_chunks context in
    let frames := ctx_frames context in
    let chat_history := map history_entry (last_n 5 (creq_chat_history request)) in
    let answer :=
      chat_with_video gemini_text_model format_1f target (creq_message request)
        transcript_chunks frames chat_history in
    ChatResponse_init (fst answer) (snd answer)
      (Some (chat_confidence transcript_chunks frames)) [].

(** [except Exception: raise HTTPException(status_code=500, ...)] *)
Definition send_chat_message (request : ChatRequest) : result ChatResponse :=
  match send_chat_message_body request with
  | Ok response => Ok response
  | Raise _ => Raise (HTTPException 500)
  end.

End ChatRoute.


(** ** The RAG query (src/services/rag_service.py) *)

(** The fields of [QueryResult] that the query fills or leaves at their
    default; [qres_results_found] is [metadata["results_found"]]. *)
Record QueryResult : Type := {
  qres_response : string;
  qres_sources : list SearchResult;
  qres_confidence : Q;
  qres_results_found : nat;
  qres_timestamp_references : list Q
}.

(** The constructor call [QueryResult(response=..., sources=...,
    confidence=..., metadata=...)]: [timestamp_references] is not given, so
    it is the default and its validator does not run. *)
Definition QueryResult_init (response : string) (sources : list SearchResult)
    (confidence : Q) : result QueryResult :=
  if Qle_bool 0 confidence && Qle_bool confidence 1
  then Ok {| qres_response := response; qres_sources := sources;
             qres_confidence := confidence; qres_results_found := length sources;
             qres_timestamp_references := [] |}
  else Raise (ValidationError ["confidence"]).

(** The keyword arguments of the [SearchResult(...)] call of the query, but
    for [metadata=metadata], a dict, which the constructor stores as it is:
    [content], [timestamp], [confidence] and [video_id] are given, and [id],
    [score] and [type] are not. *)
Definition source_kwargs (doc : string) (metadata : gmap string pyval) (distance : Q)
  : kwargs :=
  [ ("content", PStr doc);
    ("timestamp", dict_get metadata "timestamp" (PNum 0));
    ("confidence", PNum (if Qeq_bool distance 0 then 8 # 10 else 1 - distance));
    ("video_id", dict_get metadata "video_id" (PStr "unknown")) ].

(** [results[key][0] if results.get(key) else []] *)
Definition row_or_empty {A : Type} (field : option (list (list A))) : list A :=
  match field with
  | Some (row :: _) => row
  | _ => []
  end.

(** [sub in s] *)
Fixpoint str_contains (sub s : string) : bool :=
  String.prefix sub s ||
  match s with
  | EmptyString => false
  | String _ s' => str_contains sub s'
  end.

Section RagQuery.

(** [if not self.db.client: await self.db.initialize()],
    [ai_service.generate_text_embeddings], [self.db.get_collection()]
    followed by [collection.query], [self._generate_response], which has a
    handler of its own and always returns a string, and the text an
    f-string gives for a metadata value. *)
Variable ensure_client : result unit.
Variable embed_texts : list string -> result (list (list Q)).
Variable collection_query :
  list (list Q) -> nat -> option where_filter -> result (option QueryResponse).
Variable _generate_response : string -> string -> option string -> string.
Variable format_value : pyval -> string.

(** One turn of the loop over the zipped documents, metadatas and
    distances: nothing for an empty metadata, else the source and its line
    of context. *)
Definition query_source (hit : string * gmap string pyval * Q)
  : result (option (SearchResult * string)) :=
  let '(doc, metadata, distance) := hit in
  if bool_decide (metadata = ∅) then Ok None
  else
    let* source := SearchResult_init (source_kwargs doc metadata distance) in
    Ok (Some (source,
              ("[" ++ format_value (dict_get metadata "timestamp" (PNum 0)) ++ "s] "
               ++ doc)%string)).

(** The argument of the log line, [len(results.get('documents', [[]])[0])]. *)
Definition logged_length (results : option QueryResponse) : result nat :=
  match results with
  | None => Raise (AttributeError "get")
  | Some r =>
      match qr_documents r with
      | None => Ok 0%nat
      | Some [] => Raise IndexError
      | Some (row :: _) => Ok (length row)
      end
  end.

(** The hits the loop runs over. *)
Definition query_hits (results : option QueryResponse)
  : list (string * gmap string pyval * Q) :=
  match results with
  | Some r =>
      match qr_documents r with
      | Some ((doc :: docs) :: _) =>
          combine (combine (doc :: docs) (row_or_empty (qr_metadatas r)))
                  (row_or_empty (qr_distances r))
      | _ => []
      end
  | None => []
  end.

(** The body of the [try] block. *)
Definition query_body (query : string) (video_id : option string)
    (max_results : nat) : result QueryResult :=
  let* _ := ensure_client in
  let* query_embeddings := embed_texts [query] in
  let* embedding :=
    match query_embeddings with
    | (x :: v) :: _ => Ok (x :: v)
    | _ => Raise (RuntimeError "Failed to generate query embeddings")
    end in
  let where_filter :=
    if truthy_str video_id then Some [("video_id", WhereEq (default "" video_id))]
    else None in
  let* results := collection_query [embedding] max_results where_filter in
  let* _ := logged_length results in
  let* found := mapM query_source (query_hits results) in
  let sources := map fst (omap (fun x => x) found) in
  let context_chunks := map snd (omap (fun x => x) found) in
  let response :=
    match context_chunks with
    | [] =>
        ("I couldn't find relevant content in the video to answer your question: '"
         ++ query ++ "'")%string
    | _ =>
        _generate_response query (String.concat nl (firstn max_results context_chunks))
          video_id
    end in
  QueryResult_init response sources
    (match sources with [] => 2 # 10 | _ => 8 # 10 end).

(** [except Exception as e: raise Exception(f"Failed to process query:
    {str(e)}")].  The exception raised is a plain [Exception]; no caller
    looks at its class, and it is written with [RuntimeError] here. *)
Definition query (query_text : string) (video_id : option string)
    (max_results : nat) : result QueryResult :=
  match query_body query_text video_id max_results with
  | Ok r => Ok r
  | Raise e => Raise (RuntimeError ("Failed to process query: " ++ exn_str e))
  end.

End RagQuery.

(** ** The chat endpoint (src/api/routes/chat.py) *)

Section ChatEndpoint.

Variable ensure_client : result unit.
Variable collection_get :
  option where_filter -> result (option (list (gmap string pyval))).
Variable collection_count : result nat.
Variable embed_texts : list string -> result (list (list Q)).
Variable collection_query :
  list (list Q) -> nat -> option where_filter -> result (option QueryResponse).
Variable _generate_response : string -> string -> option string -> string.
Variable format_value : pyval -> string.
Variable repr_list : list pyval -> string.

(** [stats.get("total_embeddings", 0)]: both [get_stats] hand back a dict
    without the count, or with 0, when the collection cannot be counted. *)
Definition total_embeddings : nat :=
  match collection_count with
  | Ok count => count
  | Raise _ => 0%nat
  end.

(** The response returned before the query, if any, and the identifier the
    query then runs with. *)
Definition before_query (request : ChatRequest)
  : result (ChatResponse + option string) :=
  let available_videos := get_available_videos ensure_client collection_get in
  if (total_embeddings =? 0)%nat then
    let* response :=
      ChatResponse_init
        "I don't have any video content in my database yet. Please upload and process a video first."
        [] (Some 1%Q) [] in
    Ok (inl response)
  else if nonempty (creq_video_id request) then
    match _get_video_id_match (creq_video_id request)
            (map video_info_of available_videos) with
    | Some target_video_id =>
        if nonempty target_video_id then
          let video_stats := get_video_stats ensure_client collection_get target_video_id in
          if (vs_transcript_chunks video_stats =? 0)%nat then
            match ChatResponse_init
                    ("Video '" ++ target_video_id
                     ++ "' exists but has no transcript content. It may still be processing.")%string
                    [] (Some (7 # 10)%Q) [] with
            | Ok response => Ok (inl response)
            | Raise _ => Ok (inr (Some target_video_id))
            end
          else Ok (inr (Some target_video_id))
        else
          let* response :=
            ChatResponse_init
              ("Video '" ++ creq_video_id request ++ "' not found. Available videos: "
               ++ repr_list (map (fun v => dict_get v "video_id" (PStr "unknown"))
                                 available_videos))%string
              [] (Some (8 # 10)%Q) [] in
          Ok (inl response)
    | None =>
        let* response :=
          ChatResponse_init
            ("Video '" ++ creq_video_id request ++ "' not found. Available videos: "
             ++ repr_list (map (fun v => dict_get v "video_id" (PStr "unknown"))
                               available_videos))%string
            [] (Some (8 # 10)%Q) [] in
        Ok (inl response)
    end
  else Ok (inr (Some (creq_video_id request))).

(** The body of the [try] block of the endpoint. *)
Definition chat_endpoint_body (request : ChatRequest) : result ChatResponse :=
  let* early := before_query request in
  match early with
  | inl response => Ok response
  | inr video_id =>
      let* result :=
        query ensure_client embed_texts collection_query _generate_response format_value
          (creq_message request) video_id 10 in
      if negb (nonempty (qres_response result))
         || str_contains "No video content was provided" (qres_response result)
      then
        ChatResponse_init
          "I found the video but couldn't retrieve specific content for your question. Please try asking 'Summarize this video'."
          [] (Some (3 # 10)%Q) []
      else
        ChatResponse_init (qres_response result) (qres_timestamp_references result)
          (Some (qres_confidence result)) (map sr_id (qres_sources result))
  end.

(** [except Exception as e: raise HTTPException(status_code=500, ...)] *)
Definition chat_endpoint (request : ChatRequest) : result ChatResponse :=
  match chat_endpoint_body request with
  | Ok response => Ok response
  | Raise _ => Raise (HTTPException 500)
  end.

End ChatEndpoint.


(** ** Visual search (src/services/ai_service.py) *)

Definition pad16 : string := "                ".

(** The prompt of [visual_search] for a query. *)
Definition visual_search_prompt (query : string) : string :=
  ("Analyze this image for the following query: " ++ String (ascii_of_nat 34) query
   ++ String (ascii_of_nat 34) ""
   ++ nl ++ pad16
   ++ nl ++ pad16 ++ "Rate how well this image matches the query on a scale of 0-1."
   ++ nl ++ pad16
   ++ "Provide a brief explanation of what you see that relates to the query."
   ++ nl ++ pad16
   ++ nl ++ pad16 ++ "Format: SCORE: X.X | DESCRIPTION: your description"
   ++ nl ++ pad16)%string.

Section VisualSearch.

(** [self.gemini_vision_model], [None] when it is not configured, called on
    a prompt and the image at a path and giving [response.text];
    [Path(p).exists()]; [Image.open(p)]; [_parse_visual_search_response],
    which has a handler of its own and always returns a score and a
    description. *)
Variable gemini_vision_model : option (string -> string -> result string).
Variable path_exists : string -> bool.
Variable image_open : string -> result unit.
Variable _parse_visual_search_response : string -> Q * string.

(** The inner [try] block for one frame: what is appended to
    [search_results].  The arguments of [SearchResult(...)] are evaluated in
    the order written; [metadata], a dict, comes after [video_id] and
    [type] and is left out of the keyword arguments here. *)
Definition visual_match (generate_content : string -> string -> result string)
    (query : string) (frame : FrameData) : result (list SearchResult) :=
  let* text := generate_content (visual_search_prompt query) (fd_frame_path frame) in
  let (score, description) := _parse_visual_search_response text in
  if Qlt_bool (3 # 10) score then
    let* timestamp := FrameData_getattr frame "timestamp" in
    let* video_id := FrameData_getattr frame "video_id" in
    let* hit :=
      SearchResult_init
        [ ("id", PStr ("visual_" ++ fd_id frame));
          ("content", PStr description);
          ("score", PNum score);
          ("timestamp", timestamp);
          ("video_id", video_id);
          ("type", PStr "visual") ] in
    Ok [hit]
  else Ok [].

(** One turn of the loop: a frame without image file is skipped, opening
    the image can raise, and whatever the inner block raises is logged and
    the frame skipped. *)
Definition visual_search_frame (generate_content : string -> string -> result string)
    (query : string) (frame : FrameData) : result (list SearchResult) :=
  if negb (path_exists (fd_frame_path frame)) then Ok []
  else
    let* _ := image_open (fd_frame_path frame) in
    match visual_match generate_content query frame with
    | Ok found => Ok found
    | Raise _ => Ok []
    end.

Definition visual_search (query : string) (frames : list FrameData)
  : list SearchResult :=
  match gemini_vision_model, frames with
  | None, _ => []
  | _, [] => []
  | Some generate_content, _ =>
      match mapM (visual_search_frame generate_content query) frames with
      | Ok found => firstn 20 (sort_reverse sr_score (concat found))
      | Raise _ => []
      end
  end.

End VisualSearch.

(** ** The search routes (src/api/routes/search.py) *)

Record VisualSearchRequest : Type := {
  vreq_query : string;
  vreq_video_id : string;
  vreq_max_results : nat;
  vreq_time_range : option (gmap string Q)
}.

Record VisualSearchResponse : Type := {
  vres_query : string;
  vres_results : list SearchResult;
  vres_total_results : nat;
  vres_video_id : string
}.

(** The dict [semantic_search] returns. *)
Record SemanticSearchResponse : Type := {
  sem_query : string;
  sem_results : list (gmap string pyval);
  sem_total_results : nat
}.

(** [start_time <= result.timestamp <= end_time] with an end that defaults
    to infinity; a result without timestamp cannot be compared. *)
Definition in_time_range (time_range : gmap string Q) (hit : SearchResult)
  : exn + bool :=
  match sr_timestamp hit with
  | None => inl TypeError
  | Some t =>
      inr (Qle_bool (default 0%Q (time_range !! "start")) t
           && match time_range !! "end" with
              | Some end_time => Qle_bool t end_time
              | None => true
              end)
  end.

(** The dict built for one result of the semantic search. *)
Definition semantic_item (hit : SearchResult) : result (gmap string pyval) :=
  let* video_id := SearchResult_getattr hit "video_id" in
  let* timestamp := SearchResult_getattr hit "timestamp" in
  let* relevance_score := SearchResult_getattr hit "relevance_score" in
  let* content_type := SearchResult_getattr hit "content_type" in
  let* content := SearchResult_getattr hit "content" in
  let* thumbnail_path := SearchResult_getattr hit "thumbnail_path" in
  Ok (<["video_id" := video_id]>
        (<["timestamp" := timestamp]>
           (<["relevance_score" := relevance_score]>
              (<["content_type" := content_type]>
                 (<["content" := content]>
                    (<["thumbnail_path" := thumbnail_path]> ∅)))))).

Section SearchRoutes.

Variable embed_texts : list string -> result (list (list Q)).
Variable query_embeddings :
  list (list Q) -> nat -> option where_filter -> result (option QueryResponse).
Variable uuid4 : nat -> string.
Variable gemini_vision_model : option (string -> string -> result string).
Variable path_exists : string -> bool.
Variable image_open : string -> result unit.
Variable _parse_visual_search_response : string -> Q * string.

(** The body of the [try] block of the visual search route. *)
Definition visual_search_route_body (request : VisualSearchRequest)
  : result VisualSearchResponse :=
  let* retrieved_content :=
    retrieve_relevant_content embed_texts query_embeddings uuid4 (vreq_query request)
      (vreq_video_id request) (vreq_max_results request * 2) (Some ["visual"]) in
  let frames := snd retrieved_content in
  let search_results :=
    visual_search gemini_vision_model path_exists image_open
      _parse_visual_search_response (vreq_query request) frames in
  let* search_results :=
    match vreq_time_range request with
    | Some time_range =>
        if bool_decide (time_range = ∅) then Ok search_results
        else
          let* kept :=
            mapM (fun hit =>
                    match in_time_range time_range hit with
                    | inl e => Raise e
                    | inr keep => Ok (if keep then [hit] else [])
                    end) search_results in
          Ok (concat kept)
    | None => Ok search_results
    end in
  let search_results := firstn (vreq_max_results request) search_results in
  Ok {| vres_query := vreq_query request;
        vres_results := search_results;
        vres_total_results := length search_results;
        vres_video_id := vreq_video_id request |}.

Definition visual_search_route (request : VisualSearchRequest)
  : result VisualSearchResponse :=
  match visual_search_route_body request with
  | Ok response => Ok response
  | Raise _ => Raise (HTTPException 500)
  end.

(** The body of the [try] block of the semantic search route. *)
Definition semantic_search_body (query : string) (video_ids : option (list string))
    (content_type : option string) (max_results : nat)
  : result SemanticSearchResponse :=
  let* search_results :=
    search_similar_content embed_texts query_embeddings query video_ids content_type
      max_results in
  let* results := mapM semantic_item search_results in
  Ok {| sem_query := query; sem_results := results;
        sem_total_results := length search_results |}.

Definition semantic_search (query : string) (video_ids : option (list string))
    (content_type : option string) (max_results : nat)
  : result SemanticSearchResponse :=
  match semantic_search_body query video_ids content_type max_results with
  | Ok response => Ok response
  | Raise _ => Raise (HTTPException 500)
  end.

End SearchRoutes.


(** ** The video library routes (src/api/routes/videos.py) *)

(** An entry of the storage directory as the routes see it: a file, or a
    directory with the outcome of reading and parsing its [metadata.json],
    [None] when it has none.  A video identifier is the name of an entry. *)
Inductive StorageEntry : Type :=
| StoredFile
| StoredDir (metadata : option (result (gmap string pyval))).

(** What the routes share: the dict [processing_status] and the storage
    directory. *)
Record Server : Type := {
  srv_tracker : gmap string StatusEntry;
  srv_library : gmap string StorageEntry
}.

(** [storage video_id] for [get_processing_status]. *)
Definition storage_of (library : gmap string StorageEntry)
  : string -> option (result (gmap string pyval)) :=
  fun video_id =>
    match library !! video_id with
    | Some (StoredDir (Some metadata)) => Some metadata
    | _ => None
    end.

(** The status route on the shared state. *)
Definition status_route (video_id : string) (srv : Server)
  : result ProcessingStatus * Server :=
  let r := get_processing_status (storage_of (srv_library srv)) (srv_tracker srv) video_id in
  (fst r, {| srv_tracker := snd r; srv_library := srv_library srv |}).

Record VideoOutlineResponse : Type := {
  vo_video_id : string;
  vo_title : string;
  vo_duration : Q;
  vo_chapters : list VideoChapter;
  vo_summary : string
}.

(** [get_video_outline]: the 404 raised inside the [try] is re-raised as it
    is. *)
Definition get_video_outline (video_id : string) (srv : Server)
  : result VideoOutlineResponse :=
  match srv_tracker srv !! video_id with
  | None => Raise (HTTPException 404)
  | Some _ =>
      Ok {| vo_video_id := video_id; vo_title := "Sample Video"; vo_duration := 300;
            vo_chapters := [];
            vo_summary := "Video outline will be available after processing completes." |}
  end.

(** [delete_video].  The deletion from the index has a handler of its own
    and touches neither the tracker nor the storage; [rmtree_error] is the
    exception [shutil.rmtree] raises on a directory, if any, and on a file
    it always raises. *)
Definition delete_video (rmtree_error : string -> option exn) (video_id : string)
    (srv : Server) : result string * Server :=
  let removed :=
    match srv_library srv !! video_id with
    | Some StoredFile => Raise (RuntimeError "Not a directory")
    | Some (StoredDir _) =>
        match rmtree_error video_id with
        | Some e => Raise e
        | None => Ok (delete video_id (srv_library srv))
        end
    | None => Ok (srv_library srv)
    end in
  match removed with
  | Ok library =>
      (Ok ("Video " ++ video_id ++ " deleted successfully")%string,
       {| srv_tracker := delete video_id (srv_tracker srv); srv_library := library |})
  | Raise _ => (Raise (HTTPException 500), srv)
  end.

(** One dict of the list [list_videos] returns; [vl_title] is [None] when
    the dict has no title. *)
Record VideoListing : Type := {
  vl_id : string;
  vl_status : string;
  vl_progress : Q;
  vl_title : option pyval
}.

Definition unknown_listing (video_id : string) : VideoListing :=
  {| vl_id := video_id; vl_status := "unknown"; vl_progress := 0; vl_title := None |}.

(** The tracker entry [list_videos] creates from a metadata dict. *)
Definition listed_entry (format_value : pyval -> string)
    (metadata_dict : gmap string pyval) : StatusEntry :=
  {| se_status := if not_processing metadata_dict then "completed" else "processing";
     se_progress := if not_processing metadata_dict then 1%Q else (1 # 2)%Q;
     se_message :=
       Some ("Video " ++ format_value (dict_get metadata_dict "title" (PStr "Unknown"))
             ++ " is available")%string;
     se_note := None |}.

(** One turn of the loop of [list_videos] over the storage directory. *)
Definition list_entry (format_value : pyval -> string)
    (processing_status : gmap string StatusEntry) (video_id : string)
    (entry : StorageEntry) : list VideoListing * gmap string StatusEntry :=
  match entry with
  | StoredFile => ([], processing_status)
  | StoredDir metadata =>
      match processing_status !! video_id with
      | Some status =>
          ([ {| vl_id := video_id; vl_status := se_status status;
                vl_progress := se_progress status; vl_title := None |} ],
           processing_status)
      | None =>
          match metadata with
          | Some (Ok metadata_dict) =>
              let created := listed_entry format_value metadata_dict in
              ([ {| vl_id := video_id; vl_status := se_status created;
                    vl_progress := se_progress created;
                    vl_title := Some (dict_get metadata_dict "title" (PStr "Unknown")) |} ],
               <[video_id := created]> processing_status)
          | _ => ([unknown_listing video_id], processing_status)
          end
      end
  end.

Fixpoint list_entries (format_value : pyval -> string)
    (entries : list (string * StorageEntry))
    (processing_status : gmap string StatusEntry)
  : list VideoListing * gmap string StatusEntry :=
  match entries with
  | [] => ([], processing_status)
  | (video_id, entry) :: rest =>
      let here := list_entry format_value processing_status video_id entry in
      let there := list_entries format_value rest (snd here) in
      (fst here ++ fst there, snd there)
  end.

(** [videos.sort(key=lambda v: v["id"])]: a stable sort on the identifier,
    compared as a string. *)
Fixpoint insert_by_id (v : VideoListing) (l : list VideoListing) : list VideoListing :=
  match l with
  | [] => [v]
  | w :: l' =>
      if String.leb (vl_id v) (vl_id w) then v :: l else w :: insert_by_id v l'
  end.

Definition sort_by_id (l : list VideoListing) : list VideoListing :=
  fold_right insert_by_id [] l.

(** [list_videos]: the entries of the storage directory are visited in the
    order the file system lists them, which [map_to_list] stands for. *)
Definition list_videos (format_value : pyval -> string) (srv : Server)
  : list VideoListing * Server :=
  let r := list_entries format_value (map_to_list (srv_library srv)) (srv_tracker srv) in
  (sort_by_id (fst r), {| srv_tracker := snd r; srv_library := srv_library srv |}).


(** ** The video summary (src/services/ai_service.py) *)

(** The prompt of [generate_video_summary] for the parts of content. *)
Definition summary_prompt (content_parts : list string) : string :=
  ("Create a comprehensive summary of this video based on the following content:"
   ++ nl ++ pad12
   ++ nl ++ pad12 ++ String.concat nl content_parts
   ++ nl ++ pad12
   ++ nl ++ pad12 ++ "Provide:"
   ++ nl ++ pad12 ++ "1. Main topics covered (2-3 bullet points)"
   ++ nl ++ pad12 ++ "2. Key visual elements or scenes"
   ++ nl ++ pad12 ++ "3. Overall theme or purpose"
   ++ nl ++ pad12 ++ "4. Duration and pacing notes"
   ++ nl ++ pad12
   ++ nl ++ pad12 ++ "Keep the summary concise but informative (3-4 sentences)."
   ++ nl ++ pad12)%string.

(** The part the transcript contributes. *)
Definition summary_transcript_part (transcript_chunks : list TranscriptChunk)
  : list string :=
  match transcript_chunks with
  | [] => []
  | _ => [ ("Transcript: "
            ++ String.concat " " (map tc_text (firstn 10 transcript_chunks)))%string ]
  end.

(** The descriptions of [frames[:5]] that are not empty, and the part they
    contribute. *)
Definition summary_descriptions (frames : list FrameData) : list string :=
  flat_map (fun frame =>
              if truthy_str (fd_scene_description frame)
              then [default "" (fd_scene_description frame)] else [])
           (firstn 5 frames).

Definition summary_visual_part (frames : list FrameData) : list string :=
  match summary_descriptions frames with
  | [] => []
  | visual_descriptions =>
      [ ("Visual content: " ++ String.concat " " visual_descriptions)%string ]
  end.

(** [generate_video_summary]; [generate_content] gives the text of the
    response, [None] for a response that is falsy, or raises. *)
Definition generate_video_summary
    (gemini_text_model : option (string -> result (option string)))
    (transcript_chunks : list TranscriptChunk) (frames : list FrameData) : string :=
  match gemini_text_model with
  | None => "Summary generation not available. Please configure Gemini API key."
  | Some generate_content =>
      match (summary_transcript_part transcript_chunks
             ++ summary_visual_part frames)%list with
      | [] => "No content available for summary generation."
      | content_parts =>
          match generate_content (summary_prompt content_parts) with
          | Ok (Some text) => strip text
          | Ok None => "Unable to generate summary"
          | Raise e => ("Summary generation failed: " ++ exn_str e)%string
          end
      end
  end.

(** ** Quota strategies (config/quota_config.py) *)

(** A processing strategy: the keys every strategy has, and the optional
    ones. *)
Record Strategy : Type := {
  st_description : string;
  st_frames_per_batch : nat;
  st_delay_between_batches : nat;
  st_max_concurrent_requests : option nat;
  st_skip_visual_analysis : option bool;
  st_reduce_prompt_complexity : option bool;
  st_use_fallback_responses : option bool
}.

(** [PROCESSING_STRATEGIES] *)
Definition batch_strategy : Strategy :=
  {| st_description := "Process videos in batches with delays";
     st_frames_per_batch := 5; st_delay_between_batches := 60;
     st_max_concurrent_requests := Some 2%nat; st_skip_visual_analysis := None;
     st_reduce_prompt_complexity := None; st_use_fallback_responses := None |}.

Definition conservative_strategy : Strategy :=
  {| st_description := "Conservative processing to minimize quota usage";
     st_frames_per_batch := 3; st_delay_between_batches := 90;
     st_max_concurrent_requests := Some 1%nat; st_skip_visual_analysis := Some false;
     st_reduce_prompt_complexity := Some true; st_use_fallback_responses := None |}.

Definition emergency_strategy : Strategy :=
  {| st_description := "Emergency mode when quota is critically low";
     st_frames_per_batch := 1; st_delay_between_batches := 120;
     st_max_concurrent_requests := Some 1%nat; st_skip_visual_analysis := Some true;
     st_reduce_prompt_complexity := None; st_use_fallback_responses := Some true |}.

Definition get_processing_strategy (quota_usage_percent : Q) : Strategy :=
  if Qlt_bool 90 quota_usage_percent then emergency_strategy
  else if Qlt_bool 70 quota_usage_percent then conservative_strategy
  else batch_strategy.

Definition get_daily_processing_strategy (daily_usage_percent : Q) : Strategy :=
  if Qlt_bool daily_usage_percent 50 then
    {| st_description := "Conservative processing";
       st_frames_per_batch := 5; st_delay_between_batches := 10;
       st_max_concurrent_requests := None; st_skip_visual_analysis := Some false;
       st_reduce_prompt_complexity := None; st_use_fallback_responses := None |}
  else if Qlt_bool daily_usage_percent 80 then
    {| st_description := "Batch processing";
       st_frames_per_batch := 3; st_delay_between_batches := 30;
       st_max_concurrent_requests := None; st_skip_visual_analysis := Some false;
       st_reduce_prompt_complexity := None; st_use_fallback_responses := None |}
  else
    {| st_description := "Emergency mode";
       st_frames_per_batch := 1; st_delay_between_batches := 60;
       st_max_concurrent_requests := None; st_skip_visual_analysis := Some true;
       st_reduce_prompt_complexity := None; st_use_fallback_responses := None |}.

(** ** Registration of a YouTube video (src/services/video_processor.py) *)

Section YouTubeRegistration.

(** The directory of the video being created, [ydl.extract_info(url,
    download=False)], the setting [download_youtube_videos], the download
    followed by the search of the directory for a file ending in [.mp4],
    [.webm] or [.mkv], the date of the day as [%Y%m%d], and the writing of
    [metadata.json]. *)
Variable make_video_dir : string -> result unit.
Variable extract_info : string -> result (gmap string pyval).
Variable download_youtube_videos : bool.
Variable download : string -> string -> result (option string).
Variable today : string.
Variable _save_metadata : VideoMetadata -> result unit.

(** The fields [VideoMetadata(...)] validates here: [title] and
    [upload_date] are strings and [duration] is a number or [None]. *)
Definition youtube_metadata (video_id url : string) (title : option string)
    (info : gmap string pyval) (video_path : option string) : result VideoMetadata :=
  let* metadata_title :=
    required_str
      [("title", dict_get info "title"
                   (PStr (if truthy_str title then default "" title else "YouTube Video")))]
      "title" in
  let* upload_date :=
    required_str [("upload_date", dict_get info "upload_date" (PStr today))]
      "upload_date" in
  let* duration :=
    optional_float [("duration", dict_get info "duration" (PNum 0))] "duration" in
  Ok {| vm_id := video_id; vm_title := metadata_title; vm_file_path := video_path;
        vm_source_url := Some url; vm_thumbnail_path := None;
        vm_status := if truthy_str video_path then PROCESSING else TRANSCRIPT_ONLY;
        vm_upload_date := upload_date; vm_duration := duration |}.

(** [process_youtube_video]: every exception is logged and raised again. *)
Definition process_youtube_video (url : string) (title : option string)
  : result VideoMetadata :=
  match search_video_id url with
  | None => Raise (ValueError ("Invalid YouTube URL: " ++ url))
  | Some yt_video_id =>
      let video_id := ("youtube_" ++ yt_video_id)%string in
      let* _ := make_video_dir video_id in
      let* info := extract_info url in
      let* video_path :=
        if download_youtube_videos then download url video_id else Ok None in
      let* metadata := youtube_metadata video_id url title info video_path in
      let* _ := _save_metadata metadata in
      Ok metadata
  end.

End YouTubeRegistration.

(** * Properties *)

(** ** Stable sorting *)

Lemma insert_sorted_perm {A : Type} (key : A -> Q) (x : A) (l : list A) :
  Permutation (insert_sorted key x l) (x :: l).
Proof.
  induction l as [|y l IH]; simpl.
  - apply Permutation_refl.
  - destruct (Qle_bool (key x) (key y)).
    + apply Permutation_refl.
    + eapply Permutation_trans; [apply perm_skip, IH | apply perm_swap].
Qed.

Lemma sorted_by_perm {A : Type} (key : A -> Q) (l : list A) :
  Permutation (sorted_by key l) l.
Proof.
  induction l as [|x l IH]; simpl.
  - apply Permutation_refl.
  - eapply Permutation_trans; [apply insert_sorted_perm | apply perm_skip, IH].
Qed.

Lemma sorted_by_length {A : Type} (key : A -> Q) (l : list A) :
  length (sorted_by key l) = length l.
Proof. apply Permutation_length, sorted_by_perm. Qed.

Lemma Qle_bool_false (x y : Q) : Qle_bool x y = false -> (y < x)%Q.
Proof.
  intros E. destruct (Qlt_le_dec y x) as [Hlt|Hle]; [exact Hlt|].
  apply Qle_bool_iff in Hle. congruence.
Qed.

Lemma insert_sorted_sorted {A : Type} (key : A -> Q) (x : A) (l : list A) :
  Sorted (key_le key) l -> Sorted (key_le key) (insert_sorted key x l).
Proof.
  induction l as [|y l IH]; simpl; intros Hs.
  - repeat constructor.
  - destruct (Qle_bool (key x) (key y)) eqn:E.
    + constructor; [exact Hs|]. constructor. apply Qle_bool_iff, E.
    + assert (Hyx : (key y <= key x)%Q) by (apply Qlt_le_weak, Qle_bool_false, E).
      inversion Hs as [|? ? Hs' Hhd]; subst.
      constructor; [apply IH, Hs'|].
      destruct l as [|z l]; simpl.
      * constructor. exact Hyx.
      * destruct (Qle_bool (key x) (key z)).
        -- constructor. exact Hyx.
        -- constructor. inversion Hhd; subst. assumption.
Qed.

Lemma sorted_by_sorted {A : Type} (key : A -> Q) (l : list A) :
  Sorted (key_le key) (sorted_by key l).
Proof.
  induction l as [|x l IH]; simpl.
  - constructor.
  - apply insert_sorted_sorted, IH.
Qed.

(** ** Pseudo-transcript synthesis *)

(** The chunk the loop builds for the described frame [frame] at index [k]
    of [sorted_frames]. *)
Lemma pseudo_chunks_nth_error (video_id : string) (sorted_frames : list FrameData) :
  forall (rest : list FrameData) (i j : nat),
    Forall (fun f => truthy_str (fd_scene_description f) = true) rest ->
    nth_error (pseudo_chunks video_id sorted_frames i rest) j =
    option_map
      (fun frame =>
         {| tc_id := video_id ++ "_visual_transcript_" ++ str_of_nat (i + j);
            tc_text := "Visual: " ++ default "" (fd_scene_description frame);
            tc_start_time := fd_timestamp frame;
            tc_end_time :=
              if (i + j <? length sorted_frames - 1)%nat
              then fd_timestamp (nth (S (i + j)) sorted_frames frame)
              else (fd_timestamp frame + 5)%Q;
            tc_confidence := None;
            tc_speaker := None |})
      (nth_error rest j).
Proof.
  induction rest as [|frame rest IH]; intros i j Hd.
  - destruct j; reflexivity.
  - inversion Hd as [|? ? Hf Hrest]; subst.
    simpl pseudo_chunks. rewrite Hf.
    destruct j as [|j]; simpl.
    + rewrite Nat.add_0_r. reflexivity.
    + rewrite (IH (S i) j Hrest). simpl.
      replace (i + S j)%nat with (S (i + j)) by lia. reflexivity.
Qed.

Lemma pseudo_chunks_length (video_id : string) (sorted_frames : list FrameData) :
  forall (rest : list FrameData) (i : nat),
    Forall (fun f => truthy_str (fd_scene_description f) = true) rest ->
    length (pseudo_chunks video_id sorted_frames i rest) = length rest.
Proof.
  induction rest as [|frame rest IH]; intros i Hd; [reflexivity|].
  inversion Hd as [|? ? Hf Hrest]; subst.
  simpl. rewrite Hf. simpl. f_equal. apply IH, Hrest.
Qed.

Lemma pseudo_chunks_starts (video_id : string) (sorted_frames : list FrameData) :
  forall (rest : list FrameData) (i : nat),
    Forall (fun f => truthy_str (fd_scene_description f) = true) rest ->
    map tc_start_time (pseudo_chunks video_id sorted_frames i rest) =
    map fd_timestamp rest.
Proof.
  induction rest as [|frame rest IH]; intros i Hd; [reflexivity|].
  inversion Hd as [|? ? Hf Hrest]; subst.
  simpl. rewrite Hf. simpl. f_equal. apply IH, Hrest.
Qed.

(** When every image file exists, re-analysis keeps every frame and gives
    it the description of the vision model. *)
Lemma analyze_video_frames_all_exist (path_exists : string -> bool)
    (analyze_image : string -> string) (frames : list FrameData) :
  Forall (fun f => path_exists (fd_frame_path f) = true) frames ->
  analyze_video_frames path_exists analyze_image frames =
  map (fun f => set_scene_description f (analyze_image (fd_frame_path f))) frames.
Proof.
  intros H. unfold analyze_video_frames.
  destruct frames as [|f0 frames0]; [reflexivity|].
  induction H as [|f l Hf Hl IH]; [reflexivity|].
  simpl. unfold analyze_frame at 1. rewrite Hf. simpl. f_equal. exact IH.
Qed.

Lemma Sorted_map_key {A : Type} (key : A -> Q) (l : list A) :
  Sorted (key_le key) l -> Sorted Qle (map key l).
Proof.
  induction 1 as [|x l Hs IH Hhd]; simpl; constructor; [exact IH|].
  destruct Hhd; simpl; constructor. assumption.
Qed.




(** The same happens when the file exists but the vision model answers with
    an empty description: the frame is kept for the end times but gets no
    chunk of its own. *)
Lemma pseudo_transcript_empty_description :
  let path_exists := fun _ : string => true in
  let analyze_image := fun p : string => if String.eqb p "b.jpg" then "" else "a scene" in
  let frames :=
    [ {| fd_id := "v_frame_0"; fd_frame_path := "a.jpg"; fd_timestamp := 0;
         fd_scene_description := Some "x"; fd_objects_detected := []; fd_confidence_scores := [] |};
      {| fd_id := "v_frame_1"; fd_frame_path := "b.jpg"; fd_timestamp := 3;
         fd_scene_description := Some "y"; fd_objects_detected := []; fd_confidence_scores := [] |};
      {| fd_id := "v_frame_2"; fd_frame_path := "c.jpg"; fd_timestamp := 7;
         fd_scene_description := Some "z"; fd_objects_detected := []; fd_confidence_scores := [] |} ] in
  map (fun c => (tc_start_time c, tc_end_time c))
      (generate_pseudo_transcript_from_frames path_exists analyze_image "v" frames)
  = [ (0, 3); (7, 7 + 5) ]%Q.
Proof. reflexivity. Qed.

(** ** Caption normalization *)

(** The chunks are, in order, those of the entries whose stripped text is
    not empty; each keeps the entry's start and ends [duration] later. *)
Lemma caption_chunks_filter (video_id : string) (entries : list CaptionEntry) :
  forall i : nat,
    map chunk_fields (caption_chunks video_id i entries) =
    map (fun e => (entry_text e, entry_start e, (entry_start e + entry_duration e)%Q))
        (List.filter (fun e => negb (String.eqb (entry_text e) "")) entries).
Proof.
  induction entries as [|e entries IH]; intros i; [reflexivity|].
  simpl. fold (entry_text e).
  destruct (String.eqb (entry_text e) ""); simpl.
  - apply IH.
  - f_equal. apply IH.
Qed.

Lemma caption_chunks_sound (video_id : string) (entries : list CaptionEntry) :
  forall (i : nat) (c : TranscriptChunk),
    In c (caption_chunks video_id i entries) ->
    tc_text c <> "" /\
    exists e, In e entries /\ tc_text c = entry_text e /\
              tc_start_time c = entry_start e /\
              tc_end_time c = (tc_start_time c + entry_duration e)%Q.
Proof.
  induction entries as [|e entries IH]; intros i c Hin; [destruct Hin|].
  simpl in Hin. fold (entry_text e) in Hin.
  destruct (String.eqb_spec (entry_text e) "") as [Heq|Hne]; simpl in Hin.
  - destruct (IH _ _ Hin) as [Ht [e' [He' Hrest]]].
    split; [exact Ht|]. exists e'. split; [right; exact He'|exact Hrest].
  - destruct Hin as [<-|Hin].
    + split; [exact Hne|]. exists e. repeat split. left; reflexivity.
    + destruct (IH _ _ Hin) as [Ht [e' [He' Hrest]]].
      split; [exact Ht|]. exists e'. split; [right; exact He'|exact Hrest].
Qed.

Lemma extract_youtube_transcript_chunks (available : bool)
    (provider : string -> list CaptionEntry) (url video_id : string) :
  extract_youtube_transcript available provider url video_id =
  caption_chunks video_id 0 (provider_entries available provider url).
Proof.
  unfold extract_youtube_transcript, provider_entries.
  destruct available; simpl; [|reflexivity].
  destruct (search_video_id url) as [yt|]; [|reflexivity].
  destruct (provider yt); reflexivity.
Qed.

(** C5. Caption normalization drops exactly the entries whose stripped text
    is empty, every chunk starts at its entry's start (0 when absent) and
    ends [duration] later (0 when absent); so, when the provider's
    durations are non-negative, every chunk has a non-empty text and
    [start_time <= end_time]. *)
Theorem caption_normalization (available : bool)
    (provider : string -> list CaptionEntry) (url video_id : string) :
  Forall (fun e => (0 <= entry_duration e)%Q) (provider_entries available provider url) ->
  let chunks := extract_youtube_transcript available provider url video_id in
  map chunk_fields chunks =
    map (fun e => (entry_text e, entry_start e, (entry_start e + entry_duration e)%Q))
        (List.filter (fun e => negb (String.eqb (entry_text e) ""))
                     (provider_entries available provider url)) /\
  Forall (fun c => tc_text c <> "" /\ (tc_start_time c <= tc_end_time c)%Q) chunks.
Proof.
  intros Hdur chunks. unfold chunks.
  rewrite extract_youtube_transcript_chunks.
  split; [apply caption_chunks_filter|].
  apply List.Forall_forall. intros c Hin.
  destruct (caption_chunks_sound _ _ _ _ Hin) as [Ht [e [He [_ [_ Hend]]]]].
  split; [exact Ht|].
  rewrite List.Forall_forall in Hdur. specialize (Hdur e He).
  rewrite Hend. lra.
Qed.

Lemma caption_normalization_witness :
  let provider := fun _ : string =>
    [ {| ce_text := Some " hello "; ce_start := Some 0%Q; ce_duration := Some (5 # 2) |};
      {| ce_text := Some "   "; ce_start := Some (5 # 2); ce_duration := Some 1%Q |};
      {| ce_text := Some "world"; ce_start := Some (7 # 2); ce_duration := None |} ] in
  let url := "https://www.youtube.com/watch?v=dQw4w9WgXcQ" in
  map chunk_fields (extract_youtube_transcript true provider url "vid") =
    [ ("hello", 0, 0 + (5 # 2)); ("world", 7 # 2, (7 # 2) + 0) ]%Q /\
  Forall (fun c => tc_text c <> "" /\ (tc_start_time c <= tc_end_time c)%Q)
         (extract_youtube_transcript true provider url "vid").
Proof.
  intros provider url.
  apply (caption_normalization true provider url "vid").
  repeat constructor; discriminate.
Defined.

(** ** Video-identifier resolution *)

Lemma str_in_In (x : string) (video_ids : list (option string)) :
  str_in x video_ids = true <-> In (Some x) video_ids.
Proof.
  unfold str_in. rewrite existsb_exists. split.
  - intros [[y|] [Hin Heq]]; [|discriminate].
    apply String.eqb_eq in Heq. subst. exact Hin.
  - intros Hin. exists (Some x). split; [exact Hin|apply String.eqb_refl].
Qed.

Lemma str_in_not_In (x : string) (video_ids : list (option string)) :
  str_in x video_ids = false <-> ~ In (Some x) video_ids.
Proof.
  rewrite <- str_in_In. destruct (str_in x video_ids); split; intros H;
    try reflexivity; try discriminate; try (intros H'; discriminate).
  exfalso. apply H. reflexivity.
Qed.

Lemma prefix_str_drop (p s : string) :
  String.prefix p s = true -> s = (p ++ str_drop (String.length p) s)%string.
Proof.
  revert s. induction p as [|c p IH]; intros s H; [reflexivity|].
  destruct s as [|d s]; [discriminate|]. simpl in H.
  destruct (Ascii.ascii_dec c d) as [->|Hne]; [|discriminate].
  change (String d s = String d (p ++ str_drop (String.length p) s)%string).
  f_equal. apply IH, H.
Qed.

(** C7. Resolution returns the requested identifier when it is available;
    otherwise the identifier with [youtube_] prepended when that is
    available; otherwise, for a requested identifier that starts with
    [youtube_], the identifier without the prefix when that is available;
    otherwise no match. *)
Theorem video_id_resolution (video_id : string) (available_videos : list VideoInfo) :
  let ids := map vi_video_id available_videos in
  let prefixed := ("youtube_" ++ video_id)%string in
  let stripped := str_drop 8 video_id in
  (In (Some video_id) ids ->
     _get_video_id_match video_id available_videos = Some video_id) /\
  (~ In (Some video_id) ids -> In (Some prefixed) ids ->
     _get_video_id_match video_id available_videos = Some prefixed) /\
  (~ In (Some video_id) ids -> ~ In (Some prefixed) ids ->
   String.prefix "youtube_" video_id = true -> In (Some stripped) ids ->
     _get_video_id_match video_id available_videos = Some stripped /\
     video_id = ("youtube_" ++ stripped)%string) /\
  (~ In (Some video_id) ids -> ~ In (Some prefixed) ids ->
   ~ (String.prefix "youtube_" video_id = true /\ In (Some stripped) ids) ->
     _get_video_id_match video_id available_videos = None).
Proof.
  intros ids prefixed stripped. unfold _get_video_id_match.
  fold ids. fold prefixed. fold stripped.
  repeat split.
  - intros H. apply str_in_In in H. rewrite H. reflexivity.
  - intros H1 H2. apply str_in_not_In in H1. apply str_in_In in H2.
    rewrite H1, H2. reflexivity.
  - apply str_in_not_In in H. apply str_in_not_In in H0. apply str_in_In in H2.
    rewrite H, H0, H1, H2. reflexivity.
  - apply (prefix_str_drop "youtube_" video_id H1).
  - intros H1 H2 H3. apply str_in_not_In in H1. apply str_in_not_In in H2.
    rewrite H1, H2.
    destruct (String.prefix "youtube_" video_id) eqn:Ep; [|reflexivity].
    destruct (str_in stripped ids) eqn:Es; [|reflexivity].
    exfalso. apply H3. split; [reflexivity|apply str_in_In, Es].
Qed.

(** The scenario of the specification, with the prefix the code uses. *)
Example video_id_resolution_examples :
  let available (id : string) := [ {| vi_video_id := Some id; vi_status := Some "processed" |} ] in
  _get_video_id_match "abc" (available "youtube_abc") = Some "youtube_abc" /\
  _get_video_id_match "youtube_abc" (available "abc") = Some "abc" /\
  _get_video_id_match "abc" (available "abc") = Some "abc" /\
  _get_video_id_match "abc" (available "xyz") = None /\
  _get_video_id_match "abc" [ {| vi_video_id := None; vi_status := None |} ] = None.
Proof. repeat split. Qed.

(** ** Timestamp extraction *)

Example findall_timestamps_examples :
  findall_timestamps "At [00:05] and [1:30], not [123:45] or [12:3] or [ab:cd]; [[07:59]]"
    = [ (0, 5); (1, 30); (7, 59) ]%nat /\
  findall_timestamps "[05:00][05:99" = [ (5, 0) ]%nat /\
  findall_timestamps "no reference" = [].
Proof. repeat split. Qed.

(** The scenario of the specification: [[00:05]] with the candidates 0, 5
    and 40 gives the reference 5, [[05:00]] gives none. *)
Example extract_timestamps_examples :
  _extract_timestamps "It starts at [00:05]." [0; 5; 40]%Q = [5]%Q /\
  _extract_timestamps "It ends at [05:00]." [0; 5; 40]%Q = [] /\
  _extract_timestamps "[00:20] [00:24] [00:31]" [0; 5; 40]%Q = [5; 40]%Q /\
  _extract_timestamps "[00:05]" [] = [].
Proof. repeat split. Qed.

Lemma Qlt_bool_iff (x y : Q) : Qlt_bool x y = true <-> (x < y)%Q.
Proof.
  unfold Qlt_bool. split.
  - intros H. apply Qle_bool_false. destruct (Qle_bool y x); [discriminate|reflexivity].
  - intros H. destruct (Qle_bool y x) eqn:E; [|reflexivity].
    apply Qle_bool_iff in E. lra.
Qed.

(** [min] returns an element of the list whose key is least. *)
Lemma min_by_spec {A : Type} (key : A -> Q) (l : list A) :
  forall best : A,
    In (min_by key best l) (best :: l) /\
    forall y, In y (best :: l) -> (key (min_by key best l) <= key y)%Q.
Proof.
  induction l as [|x l IH]; intros best; simpl.
  - split; [left; reflexivity|]. intros y [<-|[]]. lra.
  - destruct (Qlt_bool (key x) (key best)) eqn:E.
    + destruct (IH x) as [Hin Hmin]. apply Qlt_bool_iff in E. split.
      * destruct Hin as [<-|Hin]; [right; left; reflexivity|right; right; exact Hin].
      * intros y [<-|[<-|Hy]].
        -- specialize (Hmin x (or_introl eq_refl)). lra.
        -- apply Hmin. left; reflexivity.
        -- apply Hmin. right; exact Hy.
    + destruct (IH best) as [Hin Hmin].
      assert (Hle : (key best <= key x)%Q).
      { destruct (Qlt_le_dec (key x) (key best)) as [Hlt|Hle]; [|exact Hle].
        apply Qlt_bool_iff in Hlt. congruence. }
      split.
      * destruct Hin as [<-|Hin]; [left; reflexivity|right; right; exact Hin].
      * intros y [<-|[<-|Hy]].
        -- apply Hmin. left; reflexivity.
        -- specialize (Hmin best (or_introl eq_refl)). lra.
        -- apply Hmin. right; exact Hy.
Qed.

Lemma closest_timestamp_spec (available_timestamps : list Q) (timestamp : Q) :
  available_timestamps <> [] ->
  exists closest,
    closest_timestamp available_timestamps timestamp = Some closest /\
    In closest available_timestamps /\
    forall y, In y available_timestamps ->
              (Qabs (closest - timestamp) <= Qabs (y - timestamp))%Q.
Proof.
  intros Hne. destruct available_timestamps as [|x l]; [contradiction|].
  exists (min_by (distance_to timestamp) x l). split; [reflexivity|].
  apply (min_by_spec (distance_to timestamp) l x).
Qed.

Lemma accepted_reference_spec (available_timestamps : list Q) (minutes seconds : nat)
    (closest : Q) :
  closest_timestamp available_timestamps (seconds_of minutes seconds) = Some closest ->
  ((Qabs (closest - seconds_of minutes seconds) <= 30)%Q ->
     accepted_reference available_timestamps (minutes, seconds) = [closest]) /\
  ((30 < Qabs (closest - seconds_of minutes seconds))%Q ->
     accepted_reference available_timestamps (minutes, seconds) = []).
Proof.
  intros Hc. unfold accepted_reference. cbn [fst snd]. rewrite Hc. unfold distance_to. split; intros H.
  - apply Qle_bool_iff in H. rewrite H. reflexivity.
  - destruct (Qle_bool (Qabs (closest - seconds_of minutes seconds)) 30) eqn:E; [|reflexivity].
    apply Qle_bool_iff in E. lra.
Qed.

(** [list(set(l))] has the elements of [l], each once. *)
Lemma list_set_In (l : list Q) (x : Q) : In x (list_set l) -> In x l.
Proof.
  induction l as [|a l IH]; simpl; [tauto|].
  intros [<-|H]; [left; reflexivity|].
  right. apply IH. apply List.filter_In in H. tauto.
Qed.

Lemma list_set_InA (l : list Q) (x : Q) : InA Qeq x (list_set l) <-> InA Qeq x l.
Proof.
  induction l as [|a l IH]; simpl; [reflexivity|]. split; intros H.
  - inversion H as [? ? Hx|? ? Hx]; subst; [left; exact Hx|].
    right. apply IH. apply InA_alt in Hx. destruct Hx as [y [Hxy Hy]].
    apply List.filter_In in Hy. apply InA_alt. exists y. tauto.
  - inversion H as [? ? Hx|? ? Hx]; subst; [left; exact Hx|].
    apply IH in Hx. apply InA_alt in Hx. destruct Hx as [y [Hxy Hy]].
    destruct (Qeq_bool a y) eqn:E.
    + left. apply Qeq_bool_iff in E. rewrite Hxy, E. reflexivity.
    + right. apply InA_alt. exists y. split; [exact Hxy|].
      apply List.filter_In. rewrite E. tauto.
Qed.

Lemma NoDupA_filter (f : Q -> bool) (l : list Q) :
  NoDupA Qeq l -> NoDupA Qeq (List.filter f l).
Proof.
  induction 1 as [|a l Hnin Hnd IH]; simpl; [constructor|].
  destruct (f a); [|exact IH].
  constructor; [|exact IH].
  intros Hin. apply Hnin. apply InA_alt in Hin. destruct Hin as [y [Hay Hy]].
  apply List.filter_In in Hy. apply InA_alt. exists y. tauto.
Qed.

Lemma list_set_NoDupA (l : list Q) : NoDupA Qeq (list_set l).
Proof.
  induction l as [|a l IH]; simpl; constructor.
  - intros Hin. apply InA_alt in Hin. destruct Hin as [y [Hay Hy]].
    apply List.filter_In in Hy. destruct Hy as [_ Hy].
    apply Qeq_bool_iff in Hay. rewrite Hay in Hy. discriminate.
  - apply NoDupA_filter, IH.
Qed.

(** What [match_timestamp] accepts: an opening bracket, one or two digits,
    a colon, two digits and a closing bracket. *)
Lemma match_timestamp_shape (cs : list ascii) (minutes seconds len : nat) :
  match_timestamp cs = Some (minutes, seconds, len) <->
  (exists m1 m2 s1 s2 tl,
     cs = "["%char :: m1 :: m2 :: ":"%char :: s1 :: s2 :: "]"%char :: tl /\
     is_digit m1 = true /\ is_digit m2 = true /\ is_digit s1 = true /\ is_digit s2 = true /\
     minutes = (10 * digit_val m1 + digit_val m2)%nat /\
     seconds = (10 * digit_val s1 + digit_val s2)%nat /\ len = 7%nat) \/
  (exists m1 s1 s2 tl,
     cs = "["%char :: m1 :: ":"%char :: s1 :: s2 :: "]"%char :: tl /\
     is_digit m1 = true /\ is_digit s1 = true /\ is_digit s2 = true /\
     minutes = digit_val m1 /\
     seconds = (10 * digit_val s1 + digit_val s2)%nat /\ len = 6%nat).
Proof.
  split.
  - unfold match_timestamp. intros E.
    destruct (match_two_digit_minutes cs) as [r|] eqn:E2.
    + injection E as ->. left. unfold match_two_digit_minutes in E2.
      destruct cs as [|o [|m1 [|m2 [|k [|s1 [|s2 [|e tl]]]]]]]; try discriminate.
      match type of E2 with (if ?b then _ else _) = _ => destruct b eqn:C end;
        [|discriminate].
      injection E2 as <- <- <-.
      repeat rewrite andb_true_iff in C.
      destruct C as [[[[[[H1 H2] H3] H4] H5] H6] H7].
      apply Ascii.eqb_eq in H1, H4, H7. subst.
      exists m1, m2, s1, s2, tl. repeat split; assumption.
    + right. unfold match_one_digit_minutes in E.
      destruct cs as [|o [|m1 [|k [|s1 [|s2 [|e tl]]]]]]; try discriminate.
      match type of E with (if ?b then _ else _) = _ => destruct b eqn:C end;
        [|discriminate].
      injection E as <- <- <-.
      repeat rewrite andb_true_iff in C.
      destruct C as [[[[[H1 H2] H3] H4] H5] H6].
      apply Ascii.eqb_eq in H1, H3, H6. subst.
      exists m1, s1, s2, tl. repeat split; assumption.
  - intros [H|H].
    + destruct H as (m1 & m2 & s1 & s2 & tl & -> & H1 & H2 & H3 & H4 & -> & -> & ->).
      unfold match_timestamp, match_two_digit_minutes.
      rewrite H1, H2, H3, H4. reflexivity.
    + destruct H as (m1 & s1 & s2 & tl & -> & H1 & H3 & H4 & -> & -> & ->).
      unfold match_timestamp, match_two_digit_minutes, match_one_digit_minutes.
      rewrite H1, H3, H4.
      assert (Hc : is_digit ":" = false) by reflexivity.
      destruct tl as [|t tl]; cbn [Ascii.eqb andb]; rewrite ?Hc, ?andb_false_r;
        cbn; rewrite ?andb_false_r; reflexivity.
Qed.

Lemma match_timestamp_head (c : ascii) (l : list ascii) :
  Ascii.eqb c "[" = false -> match_timestamp (c :: l) = None.
Proof.
  intros H. unfold match_timestamp, match_two_digit_minutes, match_one_digit_minutes.
  destruct l as [|? [|? [|? [|? [|? [|? ?]]]]]]; rewrite ?H; reflexivity.
Qed.
Lemma is_digit_not_open (c : ascii) : is_digit c = true -> Ascii.eqb c "[" = false.
Proof.
  intros H. destruct (Ascii.eqb_spec c "["); [subst; discriminate|reflexivity].
Qed.

Lemma occurrence_at_not_open (c : ascii) (l : list ascii) :
  Ascii.eqb c "[" = false -> occurrence_at (c :: l) = [].
Proof. intros H. unfold occurrence_at. rewrite (match_timestamp_head c l H). reflexivity. Qed.

Lemma eqb_char_not_open (c d : ascii) :
  Ascii.eqb c d = true -> Ascii.eqb d "[" = false -> Ascii.eqb c "[" = false.
Proof. intros H. apply Ascii.eqb_eq in H. subst. auto. Qed.

(** No occurrence starts inside another one: its characters after the
    first are digits, a colon and a closing bracket. *)
Lemma match_timestamp_no_overlap (c : ascii) (cs : list ascii) (minutes seconds len : nat) :
  match_timestamp (c :: cs) = Some (minutes, seconds, len) ->
  forall j, (j < len - 1)%nat -> occurrence_at (skipn j cs) = [].
Proof.
  unfold match_timestamp. intros E j Hj.
  destruct (match_two_digit_minutes (c :: cs)) as [r|] eqn:E2.
  - injection E as ->. unfold match_two_digit_minutes in E2.
    destruct cs as [|m1 [|m2 [|k [|s1 [|s2 [|e tl]]]]]]; try discriminate.
    match type of E2 with (if ?b then _ else _) = _ => destruct b eqn:C end;
      [|discriminate].
    injection E2 as <- <- <-.
    repeat rewrite andb_true_iff in C.
    destruct C as [[[[[[H1 H2] H3] H4] H5] H6] H7].
    destruct j as [|[|[|[|[|[|j]]]]]]; try lia; cbn [skipn];
      apply occurrence_at_not_open;
      first [ apply is_digit_not_open; assumption
            | eapply eqb_char_not_open; [eassumption|reflexivity] ].
  - unfold match_one_digit_minutes in E.
    destruct cs as [|m1 [|k [|s1 [|s2 [|e tl]]]]]; try discriminate.
    match type of E with (if ?b then _ else _) = _ => destruct b eqn:C end;
      [|discriminate].
    injection E as <- <- <-.
    repeat rewrite andb_true_iff in C.
    destruct C as [[[[[H1 H2] H3] H4] H5] H6].
    destruct j as [|[|[|[|[|j]]]]]; try lia; cbn [skipn];
      apply occurrence_at_not_open;
      first [ apply is_digit_not_open; assumption
            | eapply eqb_char_not_open; [eassumption|reflexivity] ].
Qed.

(** So [re.findall], which resumes the scan after each match, finds every
    occurrence. *)
Lemma findall_from_occurrences (cs : list ascii) :
  forall k, (forall j, (j < k)%nat -> occurrence_at (skipn j cs) = []) ->
            findall_from k cs = occurrences cs.
Proof.
  induction cs as [|c cs IH]; intros k H; [reflexivity|].
  destruct k as [|k].
  - cbn [findall_from occurrences]. unfold occurrence_at.
    destruct (match_timestamp (c :: cs)) as [[[minutes seconds] len]|] eqn:E.
    + cbn [app]. f_equal. apply IH. apply (match_timestamp_no_overlap _ _ _ _ _ E).
    + cbn [app]. apply IH. intros j Hj. lia.
  - cbn [findall_from occurrences].
    assert (H0 := H 0%nat (Nat.lt_0_succ k)). cbn [skipn] in H0.
    rewrite H0. cbn [app]. apply IH.
    intros j Hj. apply (H (S j)). lia.
Qed.

Lemma findall_timestamps_occurrences (response : string) :
  findall_timestamps response = occurrences (list_ascii_of_string response).
Proof. apply findall_from_occurrences. intros j Hj. lia. Qed.



(** ** Sorted and de-duplicated timestamp references *)

Lemma NoDupA_Qeq_perm (l l' : list Q) :
  Permutation l l' -> NoDupA Qeq l -> NoDupA Qeq l'.
Proof.
  induction 1 as [|x l l' Hp IH|x y l|l l' l'' Hp1 IH1 Hp2 IH2]; intros Hnd.
  - constructor.
  - inversion Hnd as [|? ? Hnin Hnd']; subst. constructor; [|apply IH, Hnd'].
    intros Hin. apply Hnin. apply InA_alt in Hin. destruct Hin as [z [Hxz Hz]].
    apply InA_alt. exists z. split; [exact Hxz|].
    apply (Permutation_in _ (Permutation_sym Hp)), Hz.
  - inversion Hnd as [|? ? Hnin Hnd']; subst.
    inversion Hnd' as [|? ? Hnin' Hnd'']; subst.
    constructor; [|constructor; [|exact Hnd'']].
    + intros Hin. inversion Hin as [? ? Hxy|? ? Hx]; subst.
      * apply Hnin. left. symmetry. exact Hxy.
      * contradiction.
    + intros Hin. apply Hnin. right. exact Hin.
  - apply IH2, IH1, Hnd.
Qed.

(** An ascending list without equal elements is strictly ascending. *)
Lemma Sorted_NoDupA_strict (l : list Q) :
  Sorted Qle l -> NoDupA Qeq l -> StronglySorted Qlt l.
Proof.
  intros Hs. apply Sorted_StronglySorted in Hs; [|intros x y z; apply Qle_trans].
  induction Hs as [|x l Hs IH Hall]; intros Hnd; constructor.
  - apply IH. inversion Hnd; assumption.
  - inversion Hnd as [|? ? Hnin _]; subst.
    apply List.Forall_forall. intros y Hy.
    rewrite List.Forall_forall in Hall. specialize (Hall y Hy).
    destruct (Qlt_le_dec x y) as [Hlt|Hle]; [exact Hlt|].
    exfalso. apply Hnin. apply InA_alt. exists y. split; [|exact Hy].
    apply Qle_antisym; assumption.
Qed.

Lemma Sorted_key_le_id (l : list Q) :
  Sorted (key_le (fun t : Q => t)) l -> Sorted Qle l.
Proof.
  intros H. rewrite <- (map_id l). apply (Sorted_map_key (fun t : Q => t)), H.
Qed.

Lemma validate_timestamps_ok (v s : list Q) :
  validate_timestamps v = Ok s ->
  s = sorted_by (fun t => t) v /\ Forall (fun t => (0 <= t)%Q) v.
Proof.
  unfold validate_timestamps.
  destruct (existsb (fun t => Qlt_bool t 0) v) eqn:E; [discriminate|].
  intros H. injection H as <-. split; [reflexivity|].
  apply List.Forall_forall. intros t Ht.
  destruct (Qlt_le_dec t 0) as [Hlt|Hle]; [|exact Hle].
  assert (Hex : existsb (fun t => Qlt_bool t 0) v = true).
  { apply existsb_exists. exists t. split; [exact Ht|apply Qlt_bool_iff, Hlt]. }
  congruence.
Qed.

Lemma validate_timestamps_nonneg (v : list Q) :
  Forall (fun t => (0 <= t)%Q) v ->
  validate_timestamps v = Ok (sorted_by (fun t => t) v).
Proof.
  intros H. unfold validate_timestamps.
  destruct (existsb (fun t => Qlt_bool t 0) v) eqn:E; [|reflexivity].
  apply existsb_exists in E. destruct E as [t [Ht Hlt]].
  apply Qlt_bool_iff in Hlt. rewrite List.Forall_forall in H.
  specialize (H t Ht). lra.
Qed.

(** Every extracted reference is one of the candidates, so the validator
    accepts the extracted list when no candidate is negative. *)
Lemma extract_timestamps_In (response : string) (available_timestamps : list Q) (x : Q) :
  In x (_extract_timestamps response available_timestamps) ->
  In x available_timestamps.
Proof.
  intros H. apply list_set_In in H. unfold extracted_references in H.
  apply in_flat_map in H. destruct H as [[minutes seconds] [_ H]].
  unfold accepted_reference in H. cbn [fst snd] in H.
  destruct available_timestamps as [|a l]; [destruct H|].
  destruct (closest_timestamp_spec (a :: l) (seconds_of minutes seconds)) as [c [Hc [Hin _]]];
    [discriminate|].
  rewrite Hc in H.
  destruct (Qle_bool (distance_to (seconds_of minutes seconds) c) 30); [|destruct H].
  destruct H as [<-|[]]. exact Hin.
Qed.

Lemma validate_extracted_ok (response : string) (available_timestamps : list Q) :
  Forall (fun t => (0 <= t)%Q) available_timestamps ->
  exists s, validate_timestamps (_extract_timestamps response available_timestamps) = Ok s.
Proof.
  intros H. eexists. apply validate_timestamps_nonneg.
  apply List.Forall_forall. intros t Ht. rewrite List.Forall_forall in H.
  apply H. eapply extract_timestamps_In, Ht.
Qed.

(** C4 (as amended). The list [_extract_timestamps] returns has no two
    equal elements, in whatever order the set lists them, and
    [validate_timestamps] returns its argument sorted in ascending order;
    so the references of a response that went through the extraction and
    then through the validator of the response model are sorted in
    ascending order and de-duplicated, that is, strictly ascending. *)
Theorem timestamp_references_sorted_unique (response : string)
    (available_timestamps listed delivered : list Q) :
  Permutation listed (_extract_timestamps response available_timestamps) ->
  validate_timestamps listed = Ok delivered ->
  NoDupA Qeq listed /\
  Sorted Qle delivered /\ NoDupA Qeq delivered /\ StronglySorted Qlt delivered /\
  Permutation delivered listed.
Proof.
  intros Hperm Hval.
  destruct (validate_timestamps_ok _ _ Hval) as [-> _].
  assert (Hnd : NoDupA Qeq listed).
  { apply (NoDupA_Qeq_perm _ _ (Permutation_sym Hperm)), list_set_NoDupA. }
  assert (Hs : Sorted Qle (sorted_by (fun t => t) listed)).
  { apply Sorted_key_le_id, sorted_by_sorted. }
  assert (Hnd' : NoDupA Qeq (sorted_by (fun t => t) listed)).
  { apply (NoDupA_Qeq_perm _ _ (Permutation_sym (sorted_by_perm _ listed))), Hnd. }
  repeat split; try assumption.
  - apply Sorted_NoDupA_strict; assumption.
  - apply sorted_by_perm.
Qed.

Lemma timestamp_references_sorted_unique_witness :
  StronglySorted Qlt [5; 40]%Q.
Proof.
  apply (timestamp_references_sorted_unique "[00:31] [00:20] [00:24]" [0; 5; 40]%Q
           [5; 40]%Q [5; 40]%Q).
  - change (Permutation [5; 40]%Q [40; 5]%Q). apply perm_swap.
  - reflexivity.
Defined.

(** C4 (as stated) fails for [QueryResult] on its own: its validator sorts
    the list it is given and keeps equal elements. *)
Lemma validate_timestamps_keeps_duplicates :
  validate_timestamps [3; 1; 3]%Q = Ok [1; 3; 3]%Q /\ ~ NoDupA Qeq [1; 3; 3]%Q.
Proof.
  split; [reflexivity|].
  intros H. inversion H as [|? ? _ H']; subst.
  inversion H' as [|? ? Hnin _]; subst.
  apply Hnin. left. reflexivity.
Qed.

(** ** Relevance scores and the order of search results *)

(** [max(0, 1 - d)]: [1 - d] below distance 1 and 0 from there on. *)
Lemma relevance_of_distance_cases (distance : Q) :
  ((distance < 1)%Q -> relevance_of_distance distance = (1 - distance)%Q) /\
  ((1 <= distance)%Q -> relevance_of_distance distance = 0%Q).
Proof.
  unfold relevance_of_distance, py_max. split; intros H.
  - assert (E : Qlt_bool 0 (1 - distance) = true) by (apply Qlt_bool_iff; lra).
    rewrite E. reflexivity.
  - destruct (Qlt_bool 0 (1 - distance)) eqn:E; [|reflexivity].
    apply Qlt_bool_iff in E. lra.
Qed.

Lemma relevance_of_distance_range (distance : Q) :
  (0 <= relevance_of_distance distance)%Q /\
  ((0 <= distance)%Q -> (relevance_of_distance distance <= 1)%Q).
Proof.
  destruct (relevance_of_distance_cases distance) as [Hlt Hge].
  destruct (Qlt_le_dec distance 1) as [H|H].
  - rewrite (Hlt H). split; intros; lra.
  - rewrite (Hge H). split; intros; lra.
Qed.

Lemma relevance_of_distance_decreasing (d1 d2 : Q) :
  (d1 <= d2)%Q -> (relevance_of_distance d2 <= relevance_of_distance d1)%Q.
Proof.
  intros H.
  destruct (relevance_of_distance_cases d1) as [Hlt1 Hge1].
  destruct (relevance_of_distance_cases d2) as [Hlt2 Hge2].
  destruct (Qlt_le_dec d1 1) as [H1|H1]; destruct (Qlt_le_dec d2 1) as [H2|H2];
    try rewrite (Hlt1 H1); try rewrite (Hge1 H1);
    try rewrite (Hlt2 H2); try rewrite (Hge2 H2); lra.
Qed.

Example relevance_of_distance_examples :
  relevance_of_distance 0 = 1%Q /\ relevance_of_distance 1 = 0%Q /\
  relevance_of_distance (3 # 2) = 0%Q /\ relevance_of_distance (1 # 4) = (3 # 4)%Q.
Proof. repeat split. Qed.

(** Insertion keeps the mutual order of the elements of any given key. *)
Lemma insert_sorted_stable {A : Type} (key : A -> Q) (k : Q) (x : A) (l : list A) :
  List.filter (fun y => Qeq_bool (key y) k) (insert_sorted key x l) =
  List.filter (fun y => Qeq_bool (key y) k) (x :: l).
Proof.
  induction l as [|y l IH]; [reflexivity|].
  simpl insert_sorted. destruct (Qle_bool (key x) (key y)) eqn:E; [reflexivity|].
  apply Qle_bool_false in E.
  simpl. simpl in IH. rewrite IH.
  destruct (Qeq_bool (key y) k) eqn:Ey; [|reflexivity].
  destruct (Qeq_bool (key x) k) eqn:Ex; [|reflexivity].
  apply Qeq_bool_iff in Ey. apply Qeq_bool_iff in Ex. lra.
Qed.

Lemma sorted_by_stable {A : Type} (key : A -> Q) (k : Q) (l : list A) :
  List.filter (fun y => Qeq_bool (key y) k) (sorted_by key l) =
  List.filter (fun y => Qeq_bool (key y) k) l.
Proof.
  induction l as [|x l IH]; [reflexivity|].
  simpl sorted_by. rewrite insert_sorted_stable. simpl. rewrite IH. reflexivity.
Qed.

(** [sort(reverse=True)] gives a descending list with the same elements,
    and elements of equal key stay in their order. *)
Lemma sort_reverse_spec {A : Type} (key : A -> Q) (l : list A) :
  Sorted (fun a b => (key b <= key a)%Q) (sort_reverse key l) /\
  Permutation (sort_reverse key l) l /\
  forall k, List.filter (fun y => Qeq_bool (key y) k) (sort_reverse key l) =
            List.filter (fun y => Qeq_bool (key y) k) l.
Proof.
  unfold sort_reverse. split; [|split].
  - assert (H := sorted_by_sorted (fun x => (- key x)%Q) l).
    induction H as [|x s Hs IH Hhd]; constructor; [exact IH|].
    destruct Hhd as [|y s' Hxy]; constructor. unfold key_le in Hxy. lra.
  - apply sorted_by_perm.
  - intros k.
    assert (Hext : forall s : list A,
               List.filter (fun y => Qeq_bool (key y) k) s =
               List.filter (fun y => Qeq_bool (- key y) (- k)) s).
    { intros s. apply List.filter_ext. intros y.
      destruct (Qeq_bool (key y) k) eqn:E1; destruct (Qeq_bool (- key y) (- k)) eqn:E2;
        try reflexivity.
      - apply Qeq_bool_iff in E1. apply Qeq_bool_neq in E2. exfalso. apply E2.
        rewrite E1. reflexivity.
      - apply Qeq_bool_iff in E2. apply Qeq_bool_neq in E1. exfalso. apply E1. lra. }
    rewrite !Hext. apply (sorted_by_stable (fun x => (- key x)%Q)).
Qed.

(** ** The retrieval engine *)

(** The constructor call of [search_similar_content] passes the score as
    [relevance_score] and gives no [id], [score] or [type]. *)
Lemma search_result_kwargs_fields (results : QueryResponse) (i : nat)
    (metadata : gmap string pyval) (kw : kwargs) :
  search_result_kwargs results i metadata = Ok kw ->
  kw_get "id" kw = None /\ kw_get "score" kw = None /\ kw_get "type" kw = None /\
  exists distance,
    row_item "distances" (qr_distances results) i 1%Q = Ok distance /\
    kw_get "relevance_score" kw = Some (PNum (relevance_of_distance distance)).
Proof.
  unfold search_result_kwargs.
  destruct (row_item "distances" (qr_distances results) i 1%Q) as [distance|e]; [|discriminate].
  destruct (row_item "documents" (qr_documents results) i "") as [document|e]; [|discriminate].
  cbn [bind].
  destruct (negb (truthy (dict_get metadata "timestamp" (PNum 0))));
    [destruct (metadata !! "start_time")|];
    cbn [bind]; intros H; injection H as <-; repeat split; exists distance; split; reflexivity.
Qed.

Lemma SearchResult_init_without_id (kw : kwargs) :
  kw_get "id" kw = None -> SearchResult_init kw = Raise (ValidationError ["id"]).
Proof. intros H. unfold SearchResult_init, required_str. rewrite H. reflexivity. Qed.

Lemma search_hit_raises (results : QueryResponse) (i : nat) (metadata : gmap string pyval) :
  exists e,
    (let* kw := search_result_kwargs results i metadata in SearchResult_init kw) = Raise e.
Proof.
  destruct (search_result_kwargs results i metadata) as [kw|e] eqn:E.
  - destruct (search_result_kwargs_fields _ _ _ _ E) as [Hid _].
    cbn [bind]. rewrite (SearchResult_init_without_id kw Hid). eexists; reflexivity.
  - exists e. reflexivity.
Qed.

(** [search_similar_content] returns the empty list whatever the store
    answers: with no hit there is nothing to return, and with a hit the
    constructor call raises inside the [try]. *)
Lemma search_similar_content_empty
    (embed_texts : list string -> result (list (list Q)))
    (query_embeddings :
       list (list Q) -> nat -> option where_filter -> result (option QueryResponse))
    (query : string) (video_ids : option (list string))
    (content_type : option string) (max_results : nat) :
  search_similar_content embed_texts query_embeddings query video_ids content_type
    max_results = Ok [].
Proof.
  unfold search_similar_content, search_similar_content_body.
  destruct (embed_texts [query]) as [emb|e]; [|reflexivity]. cbn [bind].
  match goal with
  | |- context [query_embeddings emb max_results ?w] =>
      destruct (query_embeddings emb max_results w) as [results|e]; [|reflexivity]
  end.
  cbn [bind]. destruct results as [r|]; [|reflexivity].
  destruct (has_metadatas (Some r)); [|reflexivity].
  destruct (first_row "metadatas" (qr_metadatas r)) as [metadatas|e]; [|reflexivity].
  cbn [bind]. destruct metadatas as [|metadata metadatas]; [reflexivity|].
  cbn [mapM_enum].
  destruct (search_hit_raises r 0 metadata) as [e He]. rewrite He. reflexivity.
Qed.

(** C2. The loop of [search_similar_content] gives the hit at distance
    [d] the score [max(0, 1 - d)], here 3/4 at distance 1/4, but passes it
    to [SearchResult] as [relevance_score] without the required [id],
    [score] and [type]; the constructor raises inside the [try], and the
    function returns the empty list instead of the scored, sorted hits. *)
Theorem search_similar_content_loses_scored_hit :
  let metadata : gmap string pyval :=
    <["video_id" := PStr "v1"]>
      (<["content_type" := PStr "transcript"]> (<["start_time" := PNum 5]> ∅)) in
  let response :=
    {| qr_metadatas := Some [[metadata]];
       qr_documents := Some [["hello"]];
       qr_distances := Some [[1 # 4]] |} in
  let embed_texts := fun texts : list string =>
    Ok (generate_text_embeddings None (fun _ => Raise (RuntimeError "no model")) texts) in
  let query_embeddings :=
    fun (_ : list (list Q)) (_ : nat) (_ : option where_filter) => Ok (Some response) in
  (exists kw,
     search_result_kwargs response 0 metadata = Ok kw /\
     kw_get "relevance_score" kw = Some (PNum (3 # 4)) /\
     kw_get "timestamp" kw = Some (PNum 5) /\
     SearchResult_init kw = Raise (ValidationError ["id"])) /\
  search_similar_content embed_texts query_embeddings "hello" None None 20 = Ok [].
Proof.
  intros metadata response embed_texts query_embeddings. split.
  - eexists. split; [reflexivity|]. repeat split.
  - apply search_similar_content_empty.
Qed.

(** C10. [search_similar_content] and [retrieve_relevant_content] always
    return: whenever their body raises, in particular when the embedding of
    the query or the query of the vector store raises, the result is the
    empty list, or the pair of empty lists. *)
Theorem retrieval_never_raises
    (embed_texts : list string -> result (list (list Q)))
    (query_embeddings :
       list (list Q) -> nat -> option where_filter -> result (option QueryResponse))
    (uuid4 : nat -> string)
    (query video_id : string) (video_ids : option (list string))
    (content_type : option string) (content_types : option (list string))
    (max_results : nat) :
  let search :=
    search_similar_content embed_texts query_embeddings query video_ids content_type
      max_results in
  let retrieve :=
    retrieve_relevant_content embed_texts query_embeddings uuid4 query video_id
      max_results content_types in
  (exists search_results, search = Ok search_results) /\
  (exists transcript_chunks frames, retrieve = Ok (transcript_chunks, frames)) /\
  (forall e,
     search_similar_content_body embed_texts query_embeddings query video_ids
       content_type max_results = Raise e -> search = Ok []) /\
  (forall e,
     retrieve_relevant_content_body embed_texts query_embeddings uuid4 query video_id
       max_results content_types = Raise e -> retrieve = Ok ([], [])) /\
  (forall e, embed_texts [query] = Raise e ->
     search = Ok [] /\ retrieve = Ok ([], [])) /\
  (forall query_embedding,
     embed_texts [query] = Ok query_embedding ->
     (forall where_arg, exists e,
        query_embeddings query_embedding max_results where_arg = Raise e) ->
     search = Ok [] /\ retrieve = Ok ([], [])).
Proof.
  intros search retrieve. unfold search, retrieve.
  unfold search_similar_content, retrieve_relevant_content.
  split; [|split; [|split; [|split; [|split]]]].
  - destruct (search_similar_content_body _ _ _ _ _ _); eexists; reflexivity.
  - destruct (retrieve_relevant_content_body _ _ _ _ _ _ _) as [[t f]|e];
      do 2 eexists; reflexivity.
  - intros e H. rewrite H. reflexivity.
  - intros e H. rewrite H. reflexivity.
  - intros e H.
    unfold search_similar_content_body, retrieve_relevant_content_body.
    rewrite H. split; reflexivity.
  - intros emb H Hq.
    unfold search_similar_content_body, retrieve_relevant_content_body.
    rewrite H. cbn [bind]. split.
    + match goal with
      | |- context [query_embeddings emb max_results ?w] =>
          destruct (Hq w) as [e He]; rewrite He
      end. reflexivity.
    + match goal with
      | |- context [query_embeddings emb max_results ?w] =>
          destruct (Hq w) as [e He]; rewrite He
      end. reflexivity.
Qed.

(** A store that cannot be reached and an embedding model that fails: both
    functions still return, with nothing. *)
Example retrieval_never_raises_examples :
  let failing_store :=
    fun (_ : list (list Q)) (_ : nat) (_ : option where_filter) =>
      @Raise (option QueryResponse) (RuntimeError "Database not initialized") in
  let embed_ok := fun texts : list string => Ok (map (fun _ => zero_vector) texts) in
  let embed_failing := fun _ : list string =>
    @Raise (list (list Q)) (RuntimeError "quota") in
  let empty_store :=
    fun (_ : list (list Q)) (_ : nat) (_ : option where_filter) =>
      @Ok (option QueryResponse) None in
  search_similar_content embed_ok failing_store "q" None None 20 = Ok [] /\
  retrieve_relevant_content embed_ok failing_store (fun _ => "u") "q" "v" 10 None
    = Ok ([], []) /\
  search_similar_content embed_failing empty_store "q" None None 20 = Ok [] /\
  retrieve_relevant_content embed_failing empty_store (fun _ => "u") "q" "v" 10 None
    = Ok ([], []).
Proof. repeat split. Qed.

(** When nothing raises, [retrieve_relevant_content] does return the hits
    of the store, transcripts and frames apart. *)
Example retrieve_relevant_content_example :
  let transcript_metadata : gmap string pyval :=
    <["content_type" := PStr "transcript"]>
      (<["chunk_id" := PStr "v_transcript_0"]>
         (<["start_time" := PNum 0]> (<["end_time" := PNum 5]> ∅))) in
  let visual_metadata : gmap string pyval :=
    <["content_type" := PStr "visual"]>
      (<["frame_id" := PStr "v_frame_0"]>
         (<["timestamp" := PNum 2]> (<["frame_path" := PStr "f.jpg"]> ∅))) in
  let response :=
    {| qr_metadatas := Some [[transcript_metadata; visual_metadata]];
       qr_documents := Some [["hello"; "a cat"]];
       qr_distances := Some [[1 # 4; 1 # 2]] |} in
  let embed_texts := fun texts : list string => Ok (map (fun _ => [0%Q]) texts) in
  let query_embeddings :=
    fun (_ : list (list Q)) (_ : nat) (_ : option where_filter) => Ok (Some response) in
  retrieve_relevant_content embed_texts query_embeddings (fun _ => "u") "q" "v" 10 None =
  Ok ([ {| tc_id := "v_transcript_0"; tc_text := "hello"; tc_start_time := 0;
           tc_end_time := 5; tc_confidence := None; tc_speaker := None |} ],
      [ {| fd_id := "v_frame_0"; fd_frame_path := "f.jpg"; fd_timestamp := 2;
           fd_scene_description := Some "a cat"; fd_objects_detected := [];
           fd_confidence_scores := [] |} ]).
Proof. vm_compute. reflexivity. Qed.

(** ** The content indexer *)

Lemma mapM_length {A B : Type} (f : A -> result B) (l : list A) (ys : list B) :
  mapM f l = Ok ys -> length ys = length l.
Proof.
  revert ys. induction l as [|x l IH]; intros ys H; simpl in H.
  - injection H as <-. reflexivity.
  - destruct (f x) as [y|e]; [|discriminate]. cbn [bind] in H.
    destruct (mapM f l) as [ys'|e]; [|discriminate]. cbn [bind] in H.
    injection H as <-. simpl. f_equal. apply IH. reflexivity.
Qed.

(** The embedding service returns one vector for each text. *)
Lemma generate_text_embeddings_length (gemini_embedding_model : option string)
    (embed_content : string -> result (list Q)) (texts : list string) :
  length (generate_text_embeddings gemini_embedding_model embed_content texts) =
  length texts.
Proof.
  unfold generate_text_embeddings.
  destruct gemini_embedding_model; [|apply length_map].
  destruct (mapM embed_content texts) eqn:E; [|apply length_map].
  apply (mapM_length _ _ _ E).
Qed.

(** Without a model, or when embedding a text raises, every vector is the
    zero vector. *)
Lemma generate_text_embeddings_degraded (gemini_embedding_model : option string)
    (embed_content : string -> result (list Q)) (texts : list string) :
  gemini_embedding_model = None \/ (exists e, mapM embed_content texts = Raise e) ->
  generate_text_embeddings gemini_embedding_model embed_content texts =
  map (fun _ => zero_vector) texts.
Proof.
  unfold generate_text_embeddings. intros [->|[e He]]; [reflexivity|].
  rewrite He. destruct gemini_embedding_model; reflexivity.
Qed.

Lemma map_enum_length {A B : Type} (f : nat -> A -> B) (l : list A) :
  forall i, length (map_enum f i l) = length l.
Proof. induction l as [|x l IH]; intros i; simpl; [reflexivity|f_equal; apply IH]. Qed.

Lemma map_enum_nth_error {A B : Type} (f : nat -> A -> B) (l : list A) :
  forall i j, nth_error (map_enum f i l) j = option_map (f (i + j)%nat) (nth_error l j).
Proof.
  induction l as [|x l IH]; intros i j.
  - destruct j; reflexivity.
  - destruct j as [|j]; simpl.
    + rewrite Nat.add_0_r. reflexivity.
    + rewrite IH. replace (S i + j)%nat with (i + S j)%nat by lia. reflexivity.
Qed.

Lemma filter_described_none (frames : list FrameData) :
  Forall (fun f => truthy_str (fd_scene_description f) = false) frames ->
  List.filter (fun frame => truthy_str (fd_scene_description frame)) frames = [].
Proof.
  induction 1 as [|f l Hf Hl IH]; [reflexivity|]. simpl. rewrite Hf. exact IH.
Qed.

Lemma transcript_batch_length (gemini_embedding_model : option string)
    (embed_content : string -> result (list Q)) (video_id : string)
    (transcript_chunks : list TranscriptChunk) :
  length (transcript_batch gemini_embedding_model embed_content video_id transcript_chunks)
  = length transcript_chunks.
Proof.
  unfold transcript_batch. rewrite map_enum_length, length_combine.
  rewrite generate_text_embeddings_length, length_map. apply Nat.min_id.
Qed.

Lemma nth_error_combine {A B : Type} (l : list A) (l' : list B) (i : nat) (a : A) (b : B) :
  nth_error l i = Some a -> nth_error l' i = Some b ->
  nth_error (combine l l') i = Some (a, b).
Proof.
  revert l' i. induction l as [|x l IH]; intros l' i Ha Hb; [destruct i; discriminate|].
  destruct l' as [|y l']; [destruct i; discriminate|].
  destruct i as [|i]; simpl in *.
  - injection Ha as ->. injection Hb as ->. reflexivity.
  - apply IH; assumption.
Qed.

(** The record of the chunk at index [i]. *)
Lemma transcript_batch_nth_error (gemini_embedding_model : option string)
    (embed_content : string -> result (list Q)) (video_id : string)
    (transcript_chunks : list TranscriptChunk) (i : nat) (chunk : TranscriptChunk) :
  nth_error transcript_chunks i = Some chunk ->
  exists embedding,
    nth_error
      (generate_text_embeddings gemini_embedding_model embed_content
         (map tc_text transcript_chunks)) i = Some embedding /\
    nth_error
      (transcript_batch gemini_embedding_model embed_content video_id transcript_chunks) i
    = Some (transcript_record video_id i (chunk, embedding)).
Proof.
  intros Hc.
  set (embeddings := generate_text_embeddings gemini_embedding_model embed_content
                       (map tc_text transcript_chunks)).
  assert (Hlen : length embeddings = length transcript_chunks).
  { unfold embeddings. rewrite generate_text_embeddings_length. apply length_map. }
  destruct (nth_error embeddings i) as [embedding|] eqn:He.
  - exists embedding. split; [reflexivity|].
    unfold transcript_batch. fold embeddings. rewrite map_enum_nth_error.
    rewrite (nth_error_combine _ _ _ _ _ Hc He). reflexivity.
  - apply nth_error_None in He.
    assert (i < length transcript_chunks)%nat by (apply nth_error_Some; congruence). lia.
Qed.

(** C6 (as amended). For a batch of transcript chunks and frames that carry
    no description: with no transcript chunk there is nothing to index and
    [index_video_content] returns false; with at least one it makes one
    bulk call, returns true and leaves exactly one record for each
    transcript chunk in the collection when the call succeeds (also when
    the embeddings degraded to zero vectors of length 384), and returns
    false, the collection unchanged, when the call raises. Frames without
    a description are skipped. *)
Theorem index_video_content_transcripts (gemini_embedding_model : option string)
    (embed_content : string -> result (list Q))
    (add_embeddings_error : list StoreRecord -> option exn)
    (collection : list StoreRecord) (video_id : string)
    (transcript_chunks : list TranscriptChunk) (frames : list FrameData) :
  Forall (fun f => truthy_str (fd_scene_description f) = false) frames ->
  let embed_texts := fun texts : list string =>
    Ok (generate_text_embeddings gemini_embedding_model embed_content texts) in
  let batch :=
    transcript_batch gemini_embedding_model embed_content video_id transcript_chunks in
  index_video_content embed_texts add_embeddings_error collection video_id
    transcript_chunks frames =
    match transcript_chunks with
    | [] => (false, collection)
    | _ => match add_embeddings_error batch with
           | None => (true, collection ++ batch)
           | Some _ => (false, collection)
           end
    end /\
  length batch = length transcript_chunks /\
  (forall i chunk, nth_error transcript_chunks i = Some chunk ->
     exists r, nth_error batch i = Some r /\
               rec_id r = (video_id ++ "_transcript_" ++ str_of_nat i)%string /\
               rec_document r = tc_text chunk /\
               rec_metadata r !! "chunk_id" = Some (PStr (tc_id chunk)) /\
               rec_metadata r !! "content_type" = Some (PStr "transcript")) /\
  (gemini_embedding_model = None \/
   (exists e, mapM embed_content (map tc_text transcript_chunks) = Raise e) ->
   Forall (fun r => rec_embedding r = zero_vector) batch) /\
  length zero_vector = 384%nat.
Proof.
  intros Hund embed_texts batch.
  split; [|split; [|split; [|split]]].
  - unfold index_video_content, index_video_content_body.
    rewrite (filter_described_none frames Hund).
    destruct transcript_chunks as [|c cs]; [reflexivity|].
    destruct (map tc_text (c :: cs)) as [|t ts] eqn:Et; [discriminate|].
    cbv beta iota. rewrite <- Et. unfold embed_texts. cbn [bind map].
    change (map_enum (transcript_record video_id) 0 _) with batch.
    rewrite app_nil_r.
    assert (Hlen : length batch = length (c :: cs)) by apply transcript_batch_length.
    destruct batch as [|r rs] eqn:Eb; [discriminate|].
    unfold add_embeddings.
    destruct (add_embeddings_error (r :: rs)); reflexivity.
  - apply transcript_batch_length.
  - intros i chunk Hc.
    destruct (transcript_batch_nth_error gemini_embedding_model embed_content video_id
                transcript_chunks i chunk Hc) as [embedding [_ Hr]].
    exists (transcript_record video_id i (chunk, embedding)).
    split; [exact Hr|]. repeat split.
  - intros Hdeg. unfold batch, transcript_batch.
    rewrite (generate_text_embeddings_degraded _ _ _ Hdeg).
    apply List.Forall_forall. intros r Hr.
    apply In_nth_error in Hr. destruct Hr as [i Hr].
    rewrite map_enum_nth_error in Hr.
    destruct (nth_error _ i) as [[chunk embedding]|] eqn:Hn; [|discriminate].
    injection Hr as <-. simpl.
    apply nth_error_In, in_combine_r in Hn.
    apply in_map_iff in Hn. destruct Hn as [? [<- _]]. reflexivity.
  - apply repeat_length.
Qed.

Lemma index_video_content_transcripts_witness :
  let chunks :=
    [ {| tc_id := "v_transcript_0"; tc_text := "hello"; tc_start_time := 0;
         tc_end_time := 5; tc_confidence := None; tc_speaker := None |};
      {| tc_id := "v_transcript_1"; tc_text := "world"; tc_start_time := 5;
         tc_end_time := 10; tc_confidence := None; tc_speaker := None |} ] in
  let frames :=
    [ {| fd_id := "v_frame_0"; fd_frame_path := "f.jpg"; fd_timestamp := 2;
         fd_scene_description := None; fd_objects_detected := [];
         fd_confidence_scores := [] |} ] in
  let embed_content := fun _ : string => @Raise (list Q) (RuntimeError "quota") in
  let batch := transcript_batch (Some "models/text-embedding-004") embed_content "v" chunks in
  index_video_content
    (fun texts => Ok (generate_text_embeddings (Some "models/text-embedding-004")
                        embed_content texts))
    (fun _ => None) [] "v" chunks frames = (true, batch) /\
  length batch = 2%nat /\
  Forall (fun r => rec_embedding r = zero_vector) batch.
Proof.
  intros chunks frames embed_content batch.
  destruct (index_video_content_transcripts (Some "models/text-embedding-004")
              embed_content (fun _ => None) [] "v" chunks frames)
    as [Hret [Hlen [_ [Hzero _]]]].
  - repeat constructor.
  - split; [exact Hret|]. split; [exact Hlen|].
    apply Hzero. right. eexists. reflexivity.
Defined.

(** C6 (as stated) fails: with one transcript chunk to index and a
    collection that rejects the bulk call (here a database that was not
    initialized), [index_video_content] returns false; and a batch that
    only holds a frame without description returns false although the
    input is not empty. *)
Lemma index_video_content_false_on_nonempty_batch :
  let chunk :=
    {| tc_id := "v_transcript_0"; tc_text := "hello"; tc_start_time := 0;
       tc_end_time := 5; tc_confidence := None; tc_speaker := None |} in
  let frame :=
    {| fd_id := "v_frame_0"; fd_frame_path := "f.jpg"; fd_timestamp := 2;
       fd_scene_description := None; fd_objects_detected := [];
       fd_confidence_scores := [] |} in
  let embed_texts := fun texts : list string => Ok (map (fun _ => [1%Q]) texts) in
  index_video_content embed_texts
    (fun _ => Some (RuntimeError "Database not initialized. Call initialize() first."))
    [] "v" [chunk] [] = (false, []) /\
  index_video_content embed_texts (fun _ => None) [] "v" [] [frame] = (false, []).
Proof. split; reflexivity. Qed.

(** A frame that carries a description does not reach the collection
    either: building its metadata reads [frame.thumbnail_path], which
    [FrameData] does not declare, and the exception makes the whole call
    return false, the transcript chunks of the batch included. *)
Example index_video_content_described_frame :
  let chunk :=
    {| tc_id := "v_transcript_0"; tc_text := "hello"; tc_start_time := 0;
       tc_end_time := 5; tc_confidence := None; tc_speaker := None |} in
  let frame :=
    {| fd_id := "v_frame_0"; fd_frame_path := "f.jpg"; fd_timestamp := 2;
       fd_scene_description := Some "a cat"; fd_objects_detected := [];
       fd_confidence_scores := [] |} in
  let embed_texts := fun texts : list string => Ok (map (fun _ => [1%Q]) texts) in
  FrameData_getattr frame "thumbnail_path" = Raise (AttributeError "thumbnail_path") /\
  index_video_content embed_texts (fun _ => None) [] "v" [chunk] [frame] = (false, []).
Proof. split; reflexivity. Qed.

(** ** The status endpoint *)

(** C9. For a video identifier without tracker entry whose metadata record
    exists and can be read, the endpoint creates an entry from the persisted
    status and answers with it: [processing] gives status [processing] and
    progress 0.5; any other status, so every terminal one ([completed],
    [failed]), gives progress 1.0, with status [completed]. *)
Theorem status_synthesized_from_metadata
    (storage : string -> option (result (gmap string pyval)))
    (processing_status : gmap string StatusEntry) (video_id : string)
    (metadata_dict : gmap string pyval) (persisted : string) :
  processing_status !! video_id = None ->
  storage video_id = Some (Ok metadata_dict) ->
  metadata_dict !! "status" = Some (PStr persisted) ->
  let status := if String.eqb persisted "processing" then "processing" else "completed" in
  let progress := if String.eqb persisted "processing" then (1 # 2)%Q else 1%Q in
  let entry := {| se_status := status; se_progress := progress;
                  se_message := Some "Video is available"; se_note := None |} in
  get_processing_status storage processing_status video_id =
    (Ok {| ps_video_id := video_id; ps_status := status; ps_progress := progress;
           ps_message := Some "Video is available"; ps_note := None |},
     <[video_id := entry]> processing_status) /\
  (persisted = "processing" -> status = "processing" /\ progress = (1 # 2)%Q) /\
  (persisted = "completed" \/ persisted = "failed" -> progress = 1%Q).
Proof.
  intros Hmem Hsto Hst status progress entry.
  split; [|split].
  - unfold get_processing_status. rewrite Hmem, Hsto.
    unfold not_processing, dict_get. rewrite Hst.
    cbv [default from_option id]. cbv beta iota.
    unfold entry, status, progress.
    destruct (String.eqb persisted "processing"); reflexivity.
  - intros ->. split; reflexivity.
  - intros [->| ->]; reflexivity.
Qed.

Lemma status_synthesized_from_metadata_witness :
  let storage := fun _ : string =>
    Some (Ok (<["status" := PStr "failed"]> (<["title" := PStr "demo"]> ∅))) in
  get_processing_status storage ∅ "v1" =
    (Ok {| ps_video_id := "v1"; ps_status := "completed"; ps_progress := 1;
           ps_message := Some "Video is available"; ps_note := None |},
     <["v1" := {| se_status := "completed"; se_progress := 1;
                  se_message := Some "Video is available"; se_note := None |}]> ∅).
Proof.
  intros storage.
  apply (status_synthesized_from_metadata storage ∅ "v1"
           (<["status" := PStr "failed"]> (<["title" := PStr "demo"]> ∅)) "failed");
    reflexivity.
Defined.

(** With an entry in the tracker the endpoint answers from it and reads no
    file; without entry and without readable metadata it answers 404. *)
Example get_processing_status_examples :
  let entry := {| se_status := "processing"; se_progress := 6 # 10;
                  se_message := Some "Extracting transcript..."; se_note := None |} in
  fst (get_processing_status (fun _ => None) (<["v1" := entry]> ∅) "v1") =
    Ok {| ps_video_id := "v1"; ps_status := "processing"; ps_progress := 6 # 10;
          ps_message := Some "Extracting transcript..."; ps_note := None |} /\
  fst (get_processing_status (fun _ => None) ∅ "v1") = Raise (HTTPException 404) /\
  fst (get_processing_status (fun _ => Some (Raise (ValueError "bad json"))) ∅ "v1")
    = Raise (HTTPException 404) /\
  fst (get_processing_status
         (fun _ => Some (Ok (<["status" := PStr "processing"]> ∅))) ∅ "v1") =
    Ok {| ps_video_id := "v1"; ps_status := "processing"; ps_progress := 1 # 2;
          ps_message := Some "Video is available"; ps_note := None |}.
Proof. repeat split. Qed.

(** ** Progress of a pipeline run *)

Lemma inject_nat_pos (n : nat) : (0 < n)%nat -> (0 < inject_Z (Z.of_nat n))%Q.
Proof. intros H. change 0%Q with (inject_Z 0). rewrite <- Zlt_Qlt. lia. Qed.

Lemma frame_progress_mono (k k' n : nat) :
  (0 < n)%nat -> (k <= k')%nat -> (frame_progress k n <= frame_progress k' n)%Q.
Proof.
  intros Hn Hk. unfold frame_progress.
  assert (Hinv : (0 < / inject_Z (Z.of_nat n))%Q)
    by (apply Qinv_lt_0_compat, inject_nat_pos, Hn).
  assert (Hkk : (inject_Z (Z.of_nat k) <= inject_Z (Z.of_nat k'))%Q)
    by (rewrite <- Zle_Qle; lia).
  unfold Qdiv. apply Qplus_le_r. apply Qmult_le_compat_r; lra.
Qed.

Lemma frame_progress_upper (k n : nat) :
  (0 < n)%nat -> (k <= n)%nat -> (frame_progress k n <= 6 # 10)%Q.
Proof.
  intros Hn Hk. unfold frame_progress.
  assert (Hpos := inject_nat_pos n Hn).
  assert (Hkk : (inject_Z (Z.of_nat k) <= inject_Z (Z.of_nat n))%Q)
    by (rewrite <- Zle_Qle; lia).
  assert (H : ((3 # 10) * inject_Z (Z.of_nat k) / inject_Z (Z.of_nat n) <= 3 # 10)%Q)
    by (apply Qle_shift_div_r; [exact Hpos|lra]).
  lra.
Qed.

Lemma frame_progress_lower (k n : nat) :
  (0 < n)%nat -> (3 # 10 <= frame_progress k n)%Q.
Proof.
  intros Hn. unfold frame_progress.
  assert (Hpos := inject_nat_pos n Hn).
  assert (Hk : (0 <= inject_Z (Z.of_nat k))%Q)
    by (change 0%Q with (inject_Z 0); rewrite <- Zle_Qle; lia).
  assert (H : (0 <= (3 # 10) * inject_Z (Z.of_nat k) / inject_Z (Z.of_nat n))%Q)
    by (apply Qle_shift_div_l; [exact Hpos|lra]).
  lra.
Qed.

(** A non-decreasing list stays so when a value not below its last one is
    added at the end. *)
Lemma Sorted_Qle_snoc (l : list Q) (a b : Q) :
  Sorted Qle (l ++ [a]) -> (a <= b)%Q -> Sorted Qle ((l ++ [a]) ++ [b]).
Proof.
  induction l as [|x l IH]; intros Hs Hab; simpl in *.
  - repeat constructor. exact Hab.
  - inversion Hs as [|? ? Hs' Hhd]; subst.
    constructor; [apply IH; assumption|].
    destruct l as [|y l]; simpl in *; inversion Hhd; subst; constructor; assumption.
Qed.

Lemma under_way_mono (video_id : string) (p q : Q) (s : PipelineState) :
  (p <= q)%Q -> under_way video_id p s -> under_way video_id q s.
Proof.
  intros Hpq [pre [entry [Hw [Ht [Hall [Hs [Hfirst Hp]]]]]]].
  exists pre, entry. repeat split; try assumption. lra.
Qed.

(** The rules of the steps. *)
Lemma hoare_ret {A : Type} (P : PipelineState -> Prop) (a : A)
    (Q : A -> PipelineState -> Prop) (E : PipelineState -> Prop) :
  (forall s, P s -> Q a s) -> hoare P (ret a) Q E.
Proof. intros H s Hs. simpl. apply H, Hs. Qed.

Lemma hoare_and_then {A B : Type} (P : PipelineState -> Prop) (m : step A)
    (k : A -> step B) (R : A -> PipelineState -> Prop)
    (Q : B -> PipelineState -> Prop) (E : PipelineState -> Prop) :
  hoare P m R E -> (forall a, hoare (R a) (k a) Q E) -> hoare P (and_then m k) Q E.
Proof.
  intros Hm Hk s Hs. unfold and_then. specialize (Hm s Hs).
  destruct (m s) as [[a|e] s']; [apply (Hk a s' Hm)|exact Hm].
Qed.

Lemma hoare_consequence {A : Type} (P P' : PipelineState -> Prop) (m : step A)
    (Q Q' : A -> PipelineState -> Prop) (E E' : PipelineState -> Prop) :
  hoare P' m Q' E' ->
  (forall s, P s -> P' s) -> (forall a s, Q' a s -> Q a s) -> (forall s, E' s -> E s) ->
  hoare P m Q E.
Proof.
  intros Hm HP HQ HE s Hs. specialize (Hm s (HP s Hs)).
  destruct (m s) as [[a|e] s']; auto.
Qed.

Lemma hoare_assume {A : Type} (fact : Prop) (P : PipelineState -> Prop) (m : step A)
    (Q : A -> PipelineState -> Prop) (E : PipelineState -> Prop) :
  (fact -> hoare P m Q E) -> hoare (fun s => P s /\ fact) m Q E.
Proof. intros H s [Hs Hf]. apply (H Hf s Hs). Qed.

(** An update that keeps the entry [in_progress] and does not lower its
    progress keeps the run [under_way], and does not raise. *)
Lemma hoare_update_status (video_id : string) (p q : Q)
    (change : StatusEntry -> StatusEntry) (E : PipelineState -> Prop) :
  (forall entry, in_progress entry -> (se_progress entry <= p)%Q ->
     in_progress (change entry) /\
     (se_progress entry <= se_progress (change entry))%Q /\
     (se_progress (change entry) <= q)%Q) ->
  hoare (under_way video_id p) (update_status video_id change)
        (fun _ => under_way video_id q) E.
Proof.
  intros Hch s [pre [entry [Hw [Ht [Hall [Hs [[first [rest [Hf Hf1]]] Hp]]]]]]].
  unfold update_status. rewrite Ht. unfold set_status.
  assert (Hin : in_progress entry).
  { rewrite List.Forall_forall in Hall. apply Hall. rewrite Hw.
    apply in_or_app. right. left. reflexivity. }
  destruct (Hch entry Hin Hp) as [Hin' [Hle Hq]].
  exists (written s), (change entry). cbn [written tracker].
  split; [reflexivity|]. split; [apply lookup_insert_eq|].
  split; [|split; [|split]].
  - apply Forall_app. split; [exact Hall|]. constructor; [exact Hin'|constructor].
  - rewrite Hw. rewrite !map_app. cbn [map].
    apply Sorted_Qle_snoc; [|exact Hle].
    rewrite Hw, map_app in Hs. exact Hs.
  - exists first, (rest ++ [change entry]). rewrite Hf. split; [reflexivity|exact Hf1].
  - exact Hq.
Qed.

Lemma checkpoint_in_progress (entry : StatusEntry) (q : Q) (message : string) :
  in_progress entry -> In q checkpoints -> (q <= 9 # 10)%Q ->
  in_progress (with_progress q message entry).
Proof.
  intros [Hst _] Hq Hle. repeat split; [exact Hst|left; exact Hq|exact Hle].
Qed.

Lemma hoare_checkpoint (video_id : string) (p q : Q) (message : string)
    (E : PipelineState -> Prop) :
  In q checkpoints -> (p <= q)%Q -> (q <= 9 # 10)%Q ->
  hoare (under_way video_id p) (update_status video_id (with_progress q message))
        (fun _ => under_way video_id q) E.
Proof.
  intros Hq Hpq Hle. apply hoare_update_status. intros entry Hin Hp.
  split; [apply checkpoint_in_progress; assumption|].
  cbn [with_progress se_progress]. split; lra.
Qed.

Lemma hoare_message (video_id : string) (p : Q) (message : string)
    (E : PipelineState -> Prop) :
  hoare (under_way video_id p) (update_status video_id (with_message message))
        (fun _ => under_way video_id p) E.
Proof.
  apply hoare_update_status. intros entry [Hst [Hrep Hle]] Hp.
  cbn [with_message se_progress]. repeat split; try assumption; lra.
Qed.

Lemma hoare_note (video_id : string) (p : Q) (note : string)
    (E : PipelineState -> Prop) :
  hoare (under_way video_id p) (update_status video_id (with_note note))
        (fun _ => under_way video_id p) E.
Proof.
  apply hoare_update_status. intros entry [Hst [Hrep Hle]] Hp.
  cbn [with_note se_progress]. repeat split; try assumption; lra.
Qed.

(** The loop over the frames writes the progress after [k] of [n] frames
    for growing [k], and stays at or below 0.6. *)
Lemma hoare_analyze_frames_loop (analyze_image : string -> string) (video_id : string)
    (total_frames : nat) (E : PipelineState -> Prop) :
  (0 < total_frames)%nat ->
  forall (frames : list FrameData) (processed_frames : nat),
    (processed_frames + length frames <= total_frames)%nat ->
    hoare (under_way video_id (frame_progress processed_frames total_frames))
          (analyze_frames_loop analyze_image video_id total_frames processed_frames frames)
          (fun _ => under_way video_id (6 # 10)) E.
Proof.
  intros Htotal. induction frames as [|frame rest IH]; intros processed Hlen.
  - apply hoare_ret. intros s Hs.
    apply (under_way_mono video_id (frame_progress processed total_frames)); [|exact Hs].
    apply frame_progress_upper; [exact Htotal|simpl in Hlen; lia].
  - simpl in Hlen. cbn [analyze_frames_loop].
    apply (hoare_and_then _ _ _
             (fun processed' s =>
                processed' = S processed /\
                under_way video_id (frame_progress (S processed) total_frames) s)).
    + destruct (nonempty (analyze_image (fd_frame_path frame))).
      * apply hoare_ret. intros s Hs. split; [reflexivity|].
        apply (under_way_mono video_id (frame_progress processed total_frames)); [|exact Hs].
        apply frame_progress_mono; [exact Htotal|lia].
      * intros s Hs.
        assert (Hup := hoare_update_status video_id
                         (frame_progress processed total_frames)
                         (frame_progress (S processed) total_frames)
                         (with_progress_only (frame_progress (S processed) total_frames))
                         (fun _ => False)).
        assert (Hstep : hoare (under_way video_id (frame_progress processed total_frames))
                          (update_status video_id
                             (with_progress_only (frame_progress (S processed) total_frames)))
                          (fun _ => under_way video_id
                                      (frame_progress (S processed) total_frames))
                          (fun _ => False)).
        { apply Hup. intros entry [Hst [Hrep Hle]] Hp.
          cbn [with_progress_only se_progress se_status].
          assert (Hm : (frame_progress processed total_frames <=
                        frame_progress (S processed) total_frames)%Q)
            by (apply frame_progress_mono; [exact Htotal|lia]).
          assert (Hu : (frame_progress (S processed) total_frames <= 6 # 10)%Q)
            by (apply frame_progress_upper; [exact Htotal|lia]).
          split; [split; [exact Hst|split]|split];
            cbn [with_progress_only se_progress se_status]; try lra.
          right. exists (S processed), total_frames. split; [lia|reflexivity]. }
        specialize (Hstep s Hs).
        destruct (update_status video_id _ s) as [[u|e] s']; [|contradiction].
        split; [reflexivity|exact Hstep].
    + intros processed' s [-> Hs].
      apply (hoare_and_then
               (under_way video_id (frame_progress (S processed) total_frames))
               _ _ (fun _ => under_way video_id (6 # 10))); [| |exact Hs].
      * apply IH. lia.
      * intros rest'. apply hoare_ret. auto.
Qed.

Section PipelineRun.

Variable path_exists : string -> bool.
Variable analyze_image : string -> string.
Variable extract_frames : string -> string -> list FrameData.
Variable extract_video_frames : string -> string -> list FrameData.
Variable YOUTUBE_TRANSCRIPT_AVAILABLE : bool.
Variable _get_best_transcript : string -> list CaptionEntry.
Variable gemini_embedding_model : option string.
Variable embed_content : string -> result (list Q).
Variable add_embeddings_error : list StoreRecord -> option exn.
Variable call_chapters : bool -> result unit.
Variable video_id : string.
Variable metadata : VideoMetadata.

Lemma hoare_start (entry : StatusEntry) (E : PipelineState -> Prop) :
  se_status entry = "processing" -> se_progress entry = (1 # 10)%Q ->
  hoare (fun s => written s = []) (set_status video_id entry)
        (fun _ => under_way video_id (1 # 10)) E.
Proof.
  intros Hst Hp s Hs. unfold set_status. exists [], entry. cbn [written tracker].
  rewrite Hs. split; [reflexivity|]. split; [apply lookup_insert_eq|].
  split; [|split; [|split]].
  - constructor; [|constructor]. repeat split; [exact Hst| |rewrite Hp; lra].
    left. rewrite Hp. left. reflexivity.
  - repeat constructor.
  - exists entry, []. split; [reflexivity|exact Hp].
  - rewrite Hp. lra.
Qed.

Lemma hoare_analyze_frames (frames : list FrameData) (E : PipelineState -> Prop) :
  hoare (under_way video_id (3 # 10))
        (_analyze_frames_with_ai analyze_image frames video_id)
        (fun _ => under_way video_id (6 # 10)) E.
Proof.
  unfold _analyze_frames_with_ai. destruct frames as [|frame rest].
  - apply hoare_ret. intros s. apply under_way_mono. lra.
  - apply (hoare_consequence _
             (under_way video_id (frame_progress 0 (length (frame :: rest))))
             _ _ (fun _ => under_way video_id (6 # 10)) E E).
    + apply hoare_analyze_frames_loop; simpl; lia.
    + intros s. apply under_way_mono. apply frame_progress_lower. simpl; lia.
    + auto.
    + auto.
Qed.

Lemma hoare_fallback (E : PipelineState -> Prop) :
  hoare (under_way video_id (7 # 10))
        (pseudo_transcript_fallback path_exists analyze_image extract_video_frames
           video_id metadata)
        (fun _ => under_way video_id (7 # 10)) E.
Proof.
  unfold pseudo_transcript_fallback.
  destruct (has_video_file path_exists metadata); [|apply hoare_ret; auto].
  eapply hoare_and_then; [apply hoare_message|]. intros ?.
  destruct (extract_video_frames _ video_id); [apply hoare_ret; auto|].
  eapply hoare_and_then; [apply hoare_message|]. intros ?.
  destruct (analyze_video_frames _ _ _); apply hoare_ret; auto.
Qed.

Lemma hoare_index_step (p : Q) (transcript_chunks : list TranscriptChunk)
    (frames : list FrameData) (E : PipelineState -> Prop) :
  hoare (under_way video_id p)
        (index_step gemini_embedding_model embed_content add_embeddings_error
           video_id transcript_chunks frames)
        (fun _ => under_way video_id p) E.
Proof.
  intros s Hs. unfold index_step.
  destruct (index_video_content _ _ _ _ _ _) as [indexed collection'].
  exact Hs.
Qed.

(** The body leaves the run completed, with progress 1 written after a run
    that was [under_way] and in which the chapter synthesis call returned,
    or raises while the run is [under_way]. *)
Lemma hoare_pipeline_body :
  hoare (fun s => written s = [])
        (process_video_pipeline_body path_exists analyze_image extract_frames
           extract_video_frames YOUTUBE_TRANSCRIPT_AVAILABLE _get_best_transcript
           gemini_embedding_model embed_content add_embeddings_error call_chapters
           video_id metadata)
        (fun _ s =>
           exists s' final,
             (exists full_video, call_chapters full_video = Ok tt) /\
             under_way video_id (9 # 10) s' /\
             se_status final = "completed" /\ se_progress final = 1%Q /\
             written s = written s' ++ [final] /\
             tracker s !! video_id = Some final)
        (under_way video_id (9 # 10)).
Proof.
  unfold process_video_pipeline_body.
  eapply hoare_and_then; [apply hoare_start; reflexivity|]. intros ?.
  apply (hoare_and_then _ _ _ (fun _ => under_way video_id (6 # 10))).
  { destruct (is_transcript_only (vm_status metadata)).
    - eapply hoare_and_then.
      + apply (hoare_checkpoint video_id (1 # 10) (3 # 10));
          [unfold checkpoints; simpl; auto|lra|lra].
      + intros ?. apply hoare_ret. intros s. apply under_way_mono. lra.
    - destruct (has_video_file path_exists metadata).
      + eapply hoare_and_then.
        * apply (hoare_checkpoint video_id (1 # 10) (3 # 10));
            [unfold checkpoints; simpl; auto|lra|lra].
        * intros ?. apply hoare_analyze_frames.
      + apply hoare_ret. intros s. apply under_way_mono. lra. }
  intros frames.
  eapply hoare_and_then.
  { apply (hoare_checkpoint video_id (6 # 10) (6 # 10));
      [unfold checkpoints; simpl; auto|lra|lra]. }
  intros ?.
  eapply hoare_and_then.
  { apply (hoare_checkpoint video_id (6 # 10) (7 # 10));
      [unfold checkpoints; simpl; auto 6|lra|lra]. }
  intros ?.
  apply (hoare_and_then _ _ _ (fun _ => under_way video_id (7 # 10))).
  { destruct (match vm_source_url metadata with
              | Some url => _
              | None => []
              end); [|apply hoare_ret; auto].
    destruct (negb (is_transcript_only (vm_status metadata)));
      [apply hoare_fallback|apply hoare_ret; auto]. }
  intros content.
  eapply hoare_and_then.
  { apply (hoare_checkpoint video_id (7 # 10) (8 # 10));
      [unfold checkpoints; simpl; auto 7|lra|lra]. }
  intros ?.
  apply (hoare_and_then _ _ _
           (fun _ s => under_way video_id (8 # 10) s /\
                       exists full_video, call_chapters full_video = Ok tt)).
  { intros s Hs. unfold lift.
    destruct (call_chapters _) as [[]|e] eqn:Ec; [split; [exact Hs|eexists; exact Ec]|].
    revert Hs. apply under_way_mono. lra. }
  intros ?. apply hoare_assume. intros Hchapters.
  eapply hoare_and_then.
  { apply (hoare_checkpoint video_id (8 # 10) (8 # 10));
      [unfold checkpoints; simpl; auto 7|lra|lra]. }
  intros ?.
  eapply hoare_and_then; [apply hoare_index_step|]. intros indexed.
  apply (hoare_and_then _ _ _ (fun _ => under_way video_id (8 # 10))).
  { destruct (fst content); [apply hoare_note|apply hoare_ret; auto]. }
  intros ?.
  eapply hoare_and_then.
  { apply (hoare_checkpoint video_id (8 # 10) (9 # 10));
      [unfold checkpoints; simpl; auto 8|lra|lra]. }
  intros ? s Hs. unfold set_status.
  exists s, {| se_status := "completed"; se_progress := 1;
               se_message := Some "Video processing completed successfully";
               se_note := None |}.
  cbn [written tracker].
  split; [exact Hchapters|].
  split; [exact Hs|]. split; [reflexivity|]. split; [reflexivity|].
  split; [reflexivity|apply lookup_insert_eq].
Qed.

(** C8. In every run of the pipeline that starts with nothing written, the
    entries written before the last one have status [processing], their
    progress starts at 0.1, never goes down, and is one of the checkpoints
    0.1, 0.3, 0.6, 0.7, 0.8, 0.9 or the progress after k of n analyzed
    frames (between 0.3 and 0.6); the last entry written is terminal:
    [completed] with progress 1.0, the whole sequence then being
    non-decreasing (which takes a chapter synthesis call that returns), or
    [failed] with progress 0. *)
Theorem pipeline_progress_non_decreasing (s0 : PipelineState) :
  written s0 = [] ->
  let s :=
    process_video_pipeline path_exists analyze_image extract_frames
      extract_video_frames YOUTUBE_TRANSCRIPT_AVAILABLE _get_best_transcript
      gemini_embedding_model embed_content add_embeddings_error call_chapters
      video_id metadata s0 in
  exists pre final,
    written s = pre ++ [final] /\
    tracker s !! video_id = Some final /\
    (exists first rest, pre = first :: rest /\ se_progress first = (1 # 10)%Q) /\
    Forall in_progress pre /\
    Sorted Qle (map se_progress pre) /\
    ((se_status final = "completed" /\ se_progress final = 1%Q /\
      Sorted Qle (map se_progress (written s)) /\
      exists full_video, call_chapters full_video = Ok tt) \/
     (se_status final = "failed" /\ se_progress final = 0%Q)).
Proof.
  intros H0 s. unfold s, process_video_pipeline.
  assert (Hbody := hoare_pipeline_body s0 H0).
  destruct (process_video_pipeline_body _ _ _ _ _ _ _ _ _ _ _ _ s0) as [[u|e] s1].
  - destruct Hbody as [s' [final [Hchapters [Hrun [Hst [Hp [Hw Ht]]]]]]].
    destruct Hrun as [pre [entry [Hw' [_ [Hall [Hs [Hfirst Hle]]]]]]].
    exists (written s'), final. repeat split; try assumption.
    left. split; [exact Hst|]. split; [exact Hp|]. split; [|exact Hchapters].
    rewrite Hw, Hw'. rewrite !map_app. cbn [map].
    apply Sorted_Qle_snoc; [|rewrite Hp; lra].
    rewrite Hw', map_app in Hs. exact Hs.
  - destruct Hbody as [pre [entry [Hw' [_ [Hall [Hs [Hfirst Hle]]]]]]].
    unfold set_status. cbn [snd written tracker].
    eexists (written s1), _. split; [reflexivity|].
    split; [apply lookup_insert_eq|].
    repeat split; try assumption. right. split; reflexivity.
Qed.

End PipelineRun.

Lemma pipeline_progress_non_decreasing_witness :
  let frame (n : string) :=
    {| fd_id := n; fd_frame_path := n; fd_timestamp := 0; fd_scene_description := None;
       fd_objects_detected := []; fd_confidence_scores := [] |} in
  let metadata :=
    {| vm_id := "v1"; vm_title := "demo"; vm_file_path := Some "video.mp4";
       vm_source_url := None; vm_thumbnail_path := None; vm_status := UPLOADED;
       vm_upload_date := "20240101"; vm_duration := None |} in
  let call_chapters := fun _ : bool => Ok tt in
  let s :=
    process_video_pipeline (fun _ => true) (fun _ => "")
      (fun _ _ => [frame "a.jpg"; frame "b.jpg"]) (fun _ _ => []) false (fun _ => [])
      None (fun _ => Raise (RuntimeError "no model")) (fun _ => None) call_chapters
      "v1" metadata {| tracker := ∅; collection := []; written := [] |} in
  exists pre final,
    written s = pre ++ [final] /\
    tracker s !! "v1" = Some final /\
    (exists first rest, pre = first :: rest /\ se_progress first = (1 # 10)%Q) /\
    Forall in_progress pre /\
    Sorted Qle (map se_progress pre) /\
    ((se_status final = "completed" /\ se_progress final = 1%Q /\
      Sorted Qle (map se_progress (written s)) /\
      exists full_video, call_chapters full_video = Ok tt) \/
     (se_status final = "failed" /\ se_progress final = 0%Q)).
Proof.
  intros frame metadata call_chapters.
  apply (pipeline_progress_non_decreasing (fun _ => true) (fun _ => "")
           (fun _ _ => [frame "a.jpg"; frame "b.jpg"]) (fun _ _ => []) false
           (fun _ => []) None (fun _ => Raise (RuntimeError "no model")) (fun _ => None)
           call_chapters "v1" metadata {| tracker := ∅; collection := []; written := [] |}).
  reflexivity.
Defined.

(** With the chapter synthesis call as the pipeline writes it, every run
    ends [failed]: the checkpoints 0.9 and 1.0 are not reached. *)
Lemma pipeline_as_written_fails (path_exists : string -> bool)
    (analyze_image : string -> string)
    (extract_frames extract_video_frames : string -> string -> list FrameData)
    (available : bool) (provider : string -> list CaptionEntry)
    (gemini_embedding_model : option string) (embed_content : string -> result (list Q))
    (add_embeddings_error : list StoreRecord -> option exn)
    (video_id : string) (metadata : VideoMetadata) (s0 : PipelineState) :
  written s0 = [] ->
  exists pre final,
    written (process_video_pipeline path_exists analyze_image extract_frames
               extract_video_frames available provider gemini_embedding_model
               embed_content add_embeddings_error chapters_call_as_written
               video_id metadata s0) = pre ++ [final] /\
    se_status final = "failed" /\ se_progress final = 0%Q.
Proof.
  intros H0. unfold process_video_pipeline.
  assert (Hbody := hoare_pipeline_body path_exists analyze_image extract_frames
                     extract_video_frames available provider gemini_embedding_model
                     embed_content add_embeddings_error chapters_call_as_written
                     video_id metadata s0 H0).
  destruct (process_video_pipeline_body _ _ _ _ _ _ _ _ _ _ _ _ s0) as [[u|e] s1].
  - destruct Hbody as [s' [final [[b Hb] _]]]. destruct b; discriminate.
  - unfold set_status. cbn [snd written].
    eexists (written s1), _. split; [reflexivity|]. split; reflexivity.
Qed.

(** The progress values a reader of the tracker can see, in order: for a
    run as written on a video with two frames, the vision model answering
    with an empty string for the first and with a description for the
    second; and for the same run with a chapter synthesis call that
    returns. *)
Example pipeline_traces :
  let frame (n : string) :=
    {| fd_id := n; fd_frame_path := n; fd_timestamp := 0; fd_scene_description := None;
       fd_objects_detected := []; fd_confidence_scores := [] |} in
  let metadata :=
    {| vm_id := "v1"; vm_title := "demo"; vm_file_path := Some "video.mp4";
       vm_source_url := None; vm_thumbnail_path := None; vm_status := UPLOADED;
       vm_upload_date := "20240101"; vm_duration := None |} in
  let run (call_chapters : bool -> result unit) :=
    process_video_pipeline (fun _ => true)
      (fun p => if String.eqb p "a.jpg" then "" else "a scene")
      (fun _ _ => [frame "a.jpg"; frame "b.jpg"]) (fun _ _ => []) false (fun _ => [])
      None (fun _ => Raise (RuntimeError "no model")) (fun _ => None) call_chapters
      "v1" metadata {| tracker := ∅; collection := []; written := [] |} in
  map (fun e => (se_status e, Qred (se_progress e))) (written (run chapters_call_as_written)) =
    [ ("processing", 1 # 10); ("processing", 3 # 10); ("processing", 9 # 20);
      ("processing", 3 # 5); ("processing", 7 # 10); ("processing", 7 # 10);
      ("processing", 4 # 5); ("failed", 0) ]%Q /\
  map (fun e => (se_status e, Qred (se_progress e))) (written (run (fun _ => Ok tt))) =
    [ ("processing", 1 # 10); ("processing", 3 # 10); ("processing", 9 # 20);
      ("processing", 3 # 5); ("processing", 7 # 10); ("processing", 7 # 10);
      ("processing", 4 # 5); ("processing", 4 # 5); ("processing", 4 # 5);
      ("processing", 9 # 10); ("completed", 1) ]%Q.
Proof. split; vm_compute; reflexivity. Qed.

(** ** The caption fallback chain *)

Lemma first_language_transcript_all_fail
    (get_transcript : string -> list string -> result (list CaptionEntry))
    (yt_video_id : string) (languages : list string) :
  (forall lang, In lang languages -> exists e, get_transcript yt_video_id [lang] = Raise e) ->
  first_language_transcript get_transcript yt_video_id languages = [].
Proof.
  induction languages as [|lang rest IH]; intros H; [reflexivity|].
  simpl. destruct (H lang (or_introl eq_refl)) as [e He]. rewrite He.
  apply IH. intros l Hl. apply H. right. exact Hl.
Qed.

Lemma first_language_transcript_first_success
    (get_transcript : string -> list string -> result (list CaptionEntry))
    (yt_video_id : string) (before : list string) (lang : string) (after : list string)
    (transcript : list CaptionEntry) :
  (forall l, In l before -> exists e, get_transcript yt_video_id [l] = Raise e) ->
  get_transcript yt_video_id [lang] = Ok transcript ->
  first_language_transcript get_transcript yt_video_id (before ++ lang :: after) = transcript.
Proof.
  induction before as [|l before IH]; intros Hb Hl; simpl.
  - rewrite Hl. reflexivity.
  - destruct (Hb l (or_introl eq_refl)) as [e He]. rewrite He.
    apply IH; [|exact Hl]. intros l' Hl'. apply Hb. right. exact Hl'.
Qed.

(** X1.  [_get_auto_transcript] returns the transcript of the first of en, es,
    fr, de, pt, it that can be fetched, also when that transcript is empty,
    and the empty list when none can. *)
Theorem get_auto_transcript_first_language
    (get_transcript : string -> list string -> result (list CaptionEntry))
    (yt_video_id : string) :
  (forall before lang after transcript,
     common_languages = before ++ lang :: after ->
     (forall l, In l before -> exists e, get_transcript yt_video_id [l] = Raise e) ->
     get_transcript yt_video_id [lang] = Ok transcript ->
     _get_auto_transcript get_transcript yt_video_id = transcript) /\
  ((forall l, In l common_languages ->
      exists e, get_transcript yt_video_id [l] = Raise e) ->
   _get_auto_transcript get_transcript yt_video_id = []).
Proof.
  split.
  - intros before lang after transcript Hsplit Hb Hl.
    unfold _get_auto_transcript. rewrite Hsplit.
    apply first_language_transcript_first_success; assumption.
  - apply first_language_transcript_all_fail.
Qed.


(** ** Strings and identifiers *)

Lemma str_length_app (s1 s2 : string) :
  String.length (s1 ++ s2) = (String.length s1 + String.length s2)%nat.
Proof. induction s1 as [|c s1 IH]; simpl; [reflexivity|f_equal; exact IH]. Qed.

Lemma str_take_length (n : nat) (s : string) :
  String.length (str_take n s) = Nat.min n (String.length s).
Proof.
  revert s. induction n as [|n IH]; intros s; [reflexivity|].
  destruct s as [|c s]; simpl; [reflexivity|f_equal; apply IH].
Qed.

Lemma str_take_prefix (n : nat) (s : string) : String.prefix (str_take n s) s = true.
Proof.
  revert s. induction n as [|n IH]; intros s; [destruct s; reflexivity|].
  destruct s as [|c s]; simpl; [reflexivity|].
  destruct (Ascii.ascii_dec c c) as [_|Hne]; [apply IH|contradiction].
Qed.

Lemma str_app_inv_head (p a b : string) : (p ++ a = p ++ b)%string -> a = b.
Proof.
  induction p as [|c p IH]; simpl; intros H; [exact H|].
  injection H as H. apply IH, H.
Qed.

(** The decimal notation of a number determines it. *)
Lemma str_of_nat_inj (i j : nat) : str_of_nat i = str_of_nat j -> i = j.
Proof.
  unfold str_of_nat. intros H.
  apply Unsigned.to_uint_inj.
  assert (Hs : Some (Nat.to_uint i) = Some (Nat.to_uint j)).
  { rewrite <- !NilEmpty.usu. rewrite H. reflexivity. }
  injection Hs as Hs. exact Hs.
Qed.

(** ** Chapter synthesis *)

Lemma chapter_description_length (text : string) :
  (String.length (chapter_description text) <= 103)%nat /\
  ((String.length text <= 100)%nat -> chapter_description text = text) /\
  ((100 < String.length text)%nat ->
     chapter_description text = (str_take 100 text ++ "...")%string /\
     String.length (chapter_description text) = 103%nat).
Proof.
  unfold chapter_description.
  destruct (Nat.ltb_spec 100 (String.length text)) as [Hlt|Hle].
  - assert (Hlen : String.length (str_take 100 text ++ "...") = 103%nat).
    { rewrite str_length_app, str_take_length. simpl String.length. lia. }
    split; [lia|]. split; [lia|]. intros _. split; [reflexivity|exact Hlen].
  - split; [lia|]. split; [reflexivity|]. lia.
Qed.

(** X3.  [generate_video_chapters] returns between one and three chapters. For a
    non-empty list of n transcript chunks it returns min(3, n) chapters, the
    i-th with the interval of the i-th chunk and, as description, the text
    of the chunk when it has at most 100 characters and else its first 100
    characters followed by three dots (103 characters). Without chunks it
    returns three chapters of 120 seconds that follow each other from 0. *)
Theorem generate_video_chapters_spec (video_id : string)
    (transcript_chunks : option (list TranscriptChunk)) :
  let chapters := generate_video_chapters video_id transcript_chunks in
  (1 <= length chapters <= 3)%nat /\
  (forall chunks, transcript_chunks = Some chunks -> chunks <> [] ->
     length chapters = Nat.min 3 (length chunks) /\
     forall i chapter, nth_error chapters i = Some chapter ->
       exists chunk,
         nth_error chunks i = Some chunk /\
         ch_start_time chapter = tc_start_time chunk /\
         ch_end_time chapter = tc_end_time chunk /\
         ch_description chapter = Some (chapter_description (tc_text chunk)) /\
         (String.length (chapter_description (tc_text chunk)) <= 103)%nat /\
         String.prefix (str_take 100 (tc_text chunk)) (chapter_description (tc_text chunk))
           = true) /\
  (transcript_chunks = None \/ transcript_chunks = Some [] ->
     length chapters = 3%nat /\
     (forall i chapter, nth_error chapters i = Some chapter ->
        (ch_start_time chapter == inject_Z (Z.of_nat i) * 120)%Q /\
        (ch_end_time chapter == ch_start_time chapter + 120)%Q)).
Proof.
  intros chapters. split; [|split].
  - unfold chapters, generate_video_chapters.
    destruct transcript_chunks as [[|c cs]|]; try (simpl; lia).
    unfold _generate_chapters_from_transcript. rewrite map_enum_length.
    destruct cs as [|c2 [|c3 cs]]; simpl; lia.
  - intros chunks -> Hne. unfold chapters, generate_video_chapters.
    destruct chunks as [|c cs]; [contradiction|].
    unfold _generate_chapters_from_transcript. split.
    + rewrite map_enum_length. apply length_firstn.
    + intros i chapter Hi. rewrite map_enum_nth_error in Hi.
      destruct (nth_error (firstn 3 (c :: cs)) i) as [chunk|] eqn:Hc; [|discriminate].
      injection Hi as <-. exists chunk. cbn [chapter_of_chunk ch_start_time ch_end_time
                                            ch_description].
      split.
      * assert (Hlt : (i < 3)%nat).
        { assert (H := nth_error_Some (firstn 3 (c :: cs)) i).
          rewrite Hc in H. assert (Hl := firstn_le_length 3 (c :: cs)).
          assert (i < length (firstn 3 (c :: cs)))%nat by (apply H; discriminate). lia. }
        rewrite nth_error_firstn in Hc.
        destruct (Nat.ltb_spec i 3); [exact Hc|lia].
      * repeat split; try reflexivity.
        -- apply chapter_description_length.
        -- unfold chapter_description.
           destruct (100 <? String.length (tc_text chunk))%nat.
           ++ clear. induction (str_take 100 (tc_text chunk)) as [|a s IH]; simpl.
              ** reflexivity.
              ** destruct (Ascii.ascii_dec a a); [exact IH|contradiction].
           ++ apply str_take_prefix.
  - intros Hnone.
    assert (Hdef : chapters = _generate_default_chapters video_id).
    { unfold chapters, generate_video_chapters. destruct Hnone as [->| ->]; reflexivity. }
    rewrite Hdef. split; [reflexivity|].
    intros i chapter Hi. unfold _generate_default_chapters in Hi.
    destruct i as [|[|[|i]]]; simpl in Hi; try (destruct i; discriminate);
      injection Hi as <-; cbn [default_chapter ch_start_time ch_end_time];
      split; reflexivity.
Qed.

(** ** The frame sampler *)

Lemma py_int_floor (q : Q) : (0 <= q)%Q -> py_int q = Qfloor q.
Proof.
  destruct q as [a b]. unfold Qle, py_int, Qfloor. cbn [Qnum Qden]. intros H.
  apply Z.quot_div_nonneg; lia.
Qed.

Lemma py_int_nonneg (q : Q) : (0 <= q)%Q -> (0 <= py_int q)%Z.
Proof.
  intros H. rewrite py_int_floor by exact H.
  change 0%Z with (Qfloor (inject_Z 0)). apply Qfloor_resp_le. exact H.
Qed.

Lemma py_int_le (q : Q) : (0 <= q)%Q -> (inject_Z (py_int q) <= q)%Q.
Proof. intros H. rewrite py_int_floor by exact H. apply Qfloor_le. Qed.

Lemma mapM_concat_In {A B : Type} (f : A -> result (list B)) (l : list A)
    (ys : list (list B)) (x : B) :
  mapM f l = Ok ys -> In x (concat ys) ->
  exists a y, In a l /\ f a = Ok y /\ In x y.
Proof.
  revert ys. induction l as [|a l IH]; intros ys H Hin; simpl in H.
  - injection H as <-. destruct Hin.
  - destruct (f a) as [y|e] eqn:Ea; [|discriminate]. cbn [bind] in H.
    destruct (mapM f l) as [ys'|e] eqn:El; [|discriminate]. cbn [bind] in H.
    injection H as <-. simpl in Hin. apply in_app_or in Hin as [Hin|Hin].
    + exists a, y. auto using in_eq.
    + destruct (IH ys' eq_refl Hin) as (a' & y' & Ha' & Hf & Hx).
      exists a', y'. auto using in_cons.
Qed.

(** A loop over [range] that appends at most one element per iteration,
    with a key that depends on the index: related keys of indices give
    related keys along the result. *)
Lemma mapM_seq_pairwise {B K : Type} (key : B -> K) (R : K -> K -> Prop)
    (f : nat -> result (list B)) (k : nat -> K) (n a : nat) (ys : list (list B)) :
  mapM f (seq a n) = Ok ys ->
  (forall i y, (a <= i < a + n)%nat -> f i = Ok y ->
     y = [] \/ exists x, y = [x] /\ key x = k i) ->
  (forall i j, (a <= i)%nat -> (i < j)%nat -> (j < a + n)%nat -> R (k i) (k j)) ->
  StronglySorted R (map key (concat ys)).
Proof.
  revert a ys. induction n as [|n IH]; intros a ys H Hshape HR; simpl in H.
  - injection H as <-. constructor.
  - destruct (f a) as [y|e] eqn:Ea; [|discriminate]. cbn [bind] in H.
    destruct (mapM f (seq (S a) n)) as [ys'|e] eqn:El; [|discriminate]. cbn [bind] in H.
    injection H as <-.
    assert (Hrest : StronglySorted R (map key (concat ys'))).
    { apply (IH (S a)); [exact El| |].
      - intros i y0 Hi. apply Hshape. lia.
      - intros i j Hi Hij Hj. apply HR; lia. }
    cbn [concat].
    destruct (Hshape a y ltac:(lia) Ea) as [->|(x & -> & Hx)]; [exact Hrest|].
    cbn [app map]. constructor; [exact Hrest|].
    apply List.Forall_forall. intros kx Hk. apply in_map_iff in Hk as (x' & <- & Hx').
    destruct (mapM_concat_In _ _ _ _ El Hx') as (j & yj & Hj & Hfj & Hxj).
    apply in_seq in Hj.
    destruct (Hshape j yj ltac:(lia) Hfj) as [->|(xj & -> & Hkj)]; [destruct Hxj|].
    destruct Hxj as [<-|[]]. rewrite Hx, Hkj. apply HR; lia.
Qed.

Lemma StronglySorted_neq_NoDup {K : Type} (l : list K) :
  StronglySorted (fun a b => a <> b) l -> List.NoDup l.
Proof.
  induction 1 as [|a l Hs IH Hall]; [apply List.NoDup_nil|apply List.NoDup_cons; [|exact IH]].
  intros Hin. rewrite List.Forall_forall in Hall. exact (Hall a Hin eq_refl).
Qed.

Lemma sampled_frame_shape path_file save (video_id : string) (fps : Q)
    (cap : VideoCapture) (total_frames frames_to_sample : Z) (i : nat)
    (y : list FrameData) :
  sampled_frame path_file save video_id fps cap total_frames frames_to_sample i = Ok y ->
  y = [] \/
  exists x, y = [x] /\
    fd_id x = (video_id ++ "_frame_" ++ str_of_nat i)%string /\
    fd_timestamp x
      = (inject_Z (sample_position total_frames frames_to_sample i) / fps)%Q /\
    fd_scene_description x = None.
Proof.
  unfold sampled_frame. destruct (cap_read cap _).
  - destruct (save _ _) as [[]|e]; cbn [bind]; [|discriminate].
    intros H. injection H as <-. right. eexists. split; [reflexivity|].
    cbn [fd_id fd_timestamp fd_scene_description]. auto.
  - intros H. injection H as <-. left. reflexivity.
Qed.

(** With at least one and at most [total_frames] frames to sample, the
    sampled positions grow strictly and stay below [total_frames]. *)
Lemma sample_position_spec (total_frames frames_to_sample : Z) :
  (1 <= frames_to_sample <= total_frames)%Z ->
  (forall i, 0 <= sample_position total_frames frames_to_sample i)%Z /\
  (forall i j, (i < j)%nat ->
     (sample_position total_frames frames_to_sample i
      < sample_position total_frames frames_to_sample j)%Z) /\
  (forall i, (Z.of_nat i < frames_to_sample)%Z ->
     (sample_position total_frames frames_to_sample i < total_frames)%Z).
Proof.
  intros [Hn HT]. unfold sample_position, sample_interval.
  assert (Hpos : (0 <? frames_to_sample)%Z = true) by (apply Z.ltb_lt; lia).
  rewrite Hpos.
  set (x := (inject_Z total_frames / inject_Z frames_to_sample)%Q).
  assert (Hn0 : (0 < inject_Z frames_to_sample)%Q).
  { change 0%Q with (inject_Z 0). rewrite <- Zlt_Qlt. lia. }
  assert (Hx1 : (1 <= x)%Q).
  { unfold x. apply Qle_shift_div_l; [exact Hn0|].
    rewrite Qmult_1_l. rewrite <- Zle_Qle. exact HT. }
  assert (Hnx : (inject_Z frames_to_sample * x == inject_Z total_frames)%Q).
  { unfold x. field. intros E. rewrite E in Hn0. exact (Qlt_irrefl _ Hn0). }
  assert (Hix : forall i, (0 <= inject_Z (Z.of_nat i) * x)%Q).
  { intros i. apply Qmult_le_0_compat; [|lra].
    change 0%Q with (inject_Z 0). rewrite <- Zle_Qle. lia. }
  split; [|split].
  - intros i. apply py_int_nonneg, Hix.
  - intros i j Hij. rewrite !py_int_floor by apply Hix.
    assert (Hstep : (inject_Z (Qfloor (inject_Z (Z.of_nat i) * x) + 1)
                     <= inject_Z (Z.of_nat j) * x)%Q).
    { rewrite inject_Z_plus.
      assert (Hf := Qfloor_le (inject_Z (Z.of_nat i) * x)).
      assert (Hd : (0 <= (inject_Z (Z.of_nat j) - inject_Z (Z.of_nat i) - 1) * x)%Q).
      { apply Qmult_le_0_compat; [|lra].
        assert (Hz : (inject_Z (Z.of_nat i) + 1 <= inject_Z (Z.of_nat j))%Q).
        { change 1%Q with (inject_Z 1). rewrite <- inject_Z_plus, <- Zle_Qle. lia. }
        lra. }
      assert (He : ((inject_Z (Z.of_nat j) - inject_Z (Z.of_nat i) - 1) * x
                    == inject_Z (Z.of_nat j) * x - inject_Z (Z.of_nat i) * x - x)%Q) by ring.
      rewrite He in Hd. change (inject_Z 1) with 1%Q. lra. }
    apply Qfloor_resp_le in Hstep. rewrite Qfloor_Z in Hstep. lia.
  - intros i Hi. rewrite py_int_floor by apply Hix.
    assert (Hf := Qfloor_le (inject_Z (Z.of_nat i) * x)).
    assert (Hd : (0 <= (inject_Z frames_to_sample - inject_Z (Z.of_nat i) - 1) * x)%Q).
    { apply Qmult_le_0_compat; [|lra].
      assert (Hz : (inject_Z (Z.of_nat i) + 1 <= inject_Z frames_to_sample)%Q).
      { change 1%Q with (inject_Z 1). rewrite <- inject_Z_plus, <- Zle_Qle. lia. }
      lra. }
    assert (He : ((inject_Z frames_to_sample - inject_Z (Z.of_nat i) - 1) * x
                  == inject_Z frames_to_sample * x - inject_Z (Z.of_nat i) * x - x)%Q) by ring.
    rewrite He, Hnx in Hd.
    assert (Hlt : (inject_Z (Qfloor (inject_Z (Z.of_nat i) * x)) < inject_Z total_frames)%Q) by lra.
    rewrite <- Zlt_Qlt in Hlt. exact Hlt.
Qed.

Lemma mapM_concat_length {A B : Type} (f : A -> result (list B)) (l : list A)
    (ys : list (list B)) :
  mapM f l = Ok ys ->
  (forall a y, f a = Ok y -> (length y <= 1)%nat) ->
  (length (concat ys) <= length l)%nat.
Proof.
  revert ys. induction l as [|a l IH]; intros ys H Hone; simpl in H.
  - injection H as <-. simpl. lia.
  - destruct (f a) as [y|e] eqn:Ea; [|discriminate]. cbn [bind] in H.
    destruct (mapM f l) as [ys'|e] eqn:El; [|discriminate]. cbn [bind] in H.
    injection H as <-. cbn [concat]. rewrite length_app. cbn [length].
    specialize (IH ys' eq_refl Hone). specialize (Hone a y Ea). lia.
Qed.

(** The two ways out of [extract_video_frames]: without frames, or through
    the sampling loop on a capture that reports a positive frame rate and a
    non-zero frame count. *)
Lemma extract_video_frames_cases path_exists mkdir_frames open_capture frame_file
    save_frame (video_path video_id : string) (max_frames : Z) (sample_rate : Q) :
  let frames := extract_video_frames path_exists mkdir_frames open_capture frame_file
                  save_frame video_path video_id max_frames sample_rate in
  frames = [] \/
  exists cap ys,
    open_capture video_path = Ok cap /\
    (0 < capture_fps cap)%Q /\
    py_int (cap_frame_count cap) <> 0%Z /\
    mapM (sampled_frame frame_file save_frame video_id (capture_fps cap) cap
            (py_int (cap_frame_count cap))
            (frames_to_sample_of (py_int (cap_frame_count cap)) max_frames sample_rate))
         (seq 0 (Z.to_nat (frames_to_sample_of (py_int (cap_frame_count cap))
                             max_frames sample_rate))) = Ok ys /\
    frames = concat ys.
Proof.
  intros frames. unfold frames, extract_video_frames, extract_video_frames_body.
  destruct (path_exists video_path); cbn [negb]; [|left; reflexivity].
  destruct (mkdir_frames video_id) as [[]|e]; cbn [bind]; [|left; reflexivity].
  destruct (open_capture video_path) as [cap|e]; cbn [bind]; [|left; reflexivity].
  destruct (cap_is_opened cap); cbn [negb]; [|left; reflexivity].
  destruct (Qlt_bool 0 (capture_fps cap)) eqn:Efps.
  - destruct (Qeq_bool _ 0); cbn [orb]; [left; reflexivity|].
    destruct (py_int (cap_frame_count cap) =? 0)%Z eqn:Et; [left; reflexivity|].
    destruct (mapM _ _) as [ys|e] eqn:Em; cbn [bind]; [|left; reflexivity].
    right. exists cap, ys. repeat split; try reflexivity.
    + apply Qlt_bool_iff, Efps.
    + apply Z.eqb_neq, Et.
    + exact Em.
  - left. reflexivity.
Qed.

(** X4.  However the capture behaves, the frame sampler returns at most
    [max_frames] frames, no two of them with the same id, each id being the
    video id followed by [_frame_] and the index of a loop iteration, and no
    frame has a scene description yet. *)
Theorem extract_video_frames_ids path_exists mkdir_frames open_capture frame_file
    save_frame (video_path video_id : string) (max_frames : Z) (sample_rate : Q) :
  let frames := extract_video_frames path_exists mkdir_frames open_capture frame_file
                  save_frame video_path video_id max_frames sample_rate in
  (length frames <= Z.to_nat max_frames)%nat /\
  List.NoDup (map fd_id frames) /\
  List.Forall (fun frame =>
     fd_scene_description frame = None /\
     exists i, (i < Z.to_nat max_frames)%nat /\
       fd_id frame = (video_id ++ "_frame_" ++ str_of_nat i)%string) frames.
Proof.
  intros frames.
  destruct (extract_video_frames_cases path_exists mkdir_frames open_capture frame_file
              save_frame video_path video_id max_frames sample_rate)
    as [E|(cap & ys & _ & _ & _ & Hm & E)]; fold frames in E; rewrite E.
  - split; [simpl; lia|]. split; [apply List.NoDup_nil|constructor].
  - set (total := py_int (cap_frame_count cap)) in *.
    set (n := frames_to_sample_of total max_frames sample_rate) in *.
    assert (Hn : (Z.to_nat n <= Z.to_nat max_frames)%nat).
    { unfold n, frames_to_sample_of. lia. }
    split; [|split].
    + apply mapM_concat_length in Hm.
      * rewrite length_seq in Hm. lia.
      * intros i y Hy. apply sampled_frame_shape in Hy as [->|(x & -> & _)]; simpl; lia.
    + apply StronglySorted_neq_NoDup.
      apply (mapM_seq_pairwise fd_id (fun a b => a <> b) _
               (fun i => (video_id ++ "_frame_" ++ str_of_nat i)%string) _ _ _ Hm).
      * intros i y _ Hy. apply sampled_frame_shape in Hy as [->|(x & -> & Hid & _)];
          [left; reflexivity|right; exists x; auto].
      * intros i j _ Hij _ Heq.
        apply str_app_inv_head in Heq. apply (str_app_inv_head "_frame_") in Heq.
        apply str_of_nat_inj in Heq. lia.
    + apply List.Forall_forall. intros frame Hin.
      destruct (mapM_concat_In _ _ _ _ Hm Hin) as (i & y & Hi & Hy & Hx).
      apply in_seq in Hi.
      apply sampled_frame_shape in Hy as [->|(x & -> & Hid & _ & Hd)]; [destruct Hx|].
      destruct Hx as [<-|[]]. split; [exact Hd|]. exists i. split; [lia|exact Hid].
Qed.

(** X5.  On a capture that reports a frame count that is not negative, and
    with a sampling rate in (0, 1], the timestamps of the sampled frames grow
    strictly along the result and lie in [0, duration), where the duration
    is the frame count over the frame rate. *)
Theorem extract_video_frames_timestamps path_exists mkdir_frames open_capture
    frame_file save_frame (video_path video_id : string) (max_frames : Z)
    (sample_rate : Q) (cap : VideoCapture) :
  open_capture video_path = Ok cap ->
  (0 <= cap_frame_count cap)%Q ->
  (0 < sample_rate <= 1)%Q ->
  let frames := extract_video_frames path_exists mkdir_frames open_capture frame_file
                  save_frame video_path video_id max_frames sample_rate in
  let duration := (inject_Z (py_int (cap_frame_count cap)) / capture_fps cap)%Q in
  StronglySorted Qlt (map fd_timestamp frames) /\
  List.Forall (fun frame => (0 <= fd_timestamp frame)%Q /\
                            (fd_timestamp frame < duration)%Q) frames.
Proof.
  intros Hopen Hcount [Hrate0 Hrate1] frames duration.
  destruct (extract_video_frames_cases path_exists mkdir_frames open_capture frame_file
              save_frame video_path video_id max_frames sample_rate)
    as [E|(cap' & ys & Hopen' & Hfps & Htot & Hm & E)]; fold frames in E; rewrite E.
  - split; constructor.
  - rewrite Hopen in Hopen'. injection Hopen' as <-.
    unfold duration. clear duration.
    set (total := py_int (cap_frame_count cap)) in *.
    set (n := frames_to_sample_of total max_frames sample_rate) in *.
    set (fps := capture_fps cap) in *.
    assert (Htotal : (1 <= total)%Z).
    { assert (H := py_int_nonneg _ Hcount). fold total in H. lia. }
    assert (Hinv : (0 < / fps)%Q) by (apply Qinv_lt_0_compat, Hfps).
    assert (Hn : (n <= total)%Z).
    { unfold n, frames_to_sample_of.
      assert (Hq : (0 <= inject_Z total * sample_rate)%Q).
      { apply Qmult_le_0_compat; [|lra].
        change 0%Q with (inject_Z 0). rewrite <- Zle_Qle. lia. }
      assert (Hle : (py_int (inject_Z total * sample_rate) <= total)%Z).
      { rewrite py_int_floor by exact Hq.
        rewrite <- (Qfloor_Z total) at 2. apply Qfloor_resp_le.
        assert (Ht : (0 <= inject_Z total)%Q).
        { change 0%Q with (inject_Z 0). rewrite <- Zle_Qle. lia. }
        assert (Hd : (0 <= inject_Z total * (1 - sample_rate))%Q).
        { apply Qmult_le_0_compat; [exact Ht|lra]. }
        assert (He : (inject_Z total * (1 - sample_rate)
                      == inject_Z total - inject_Z total * sample_rate)%Q) by ring.
        rewrite He in Hd. lra. }
      lia. }
    destruct (Z.le_gt_cases n 0) as [Hn0|Hn0].
    { replace (Z.to_nat n) with 0%nat in Hm by lia. simpl in Hm. injection Hm as <-.
      split; constructor. }
    destruct (sample_position_spec total n ltac:(lia)) as (Hp0 & Hmono & Hbound).
    split.
    + apply (mapM_seq_pairwise fd_timestamp Qlt _
               (fun i => (inject_Z (sample_position total n i) / fps)%Q) _ _ _ Hm).
      * intros i y _ Hy. apply sampled_frame_shape in Hy as [->|(x & -> & _ & Hts & _)];
          [left; reflexivity|right; exists x; auto].
      * intros i j _ Hij _. unfold Qdiv. apply Qmult_lt_compat_r; [exact Hinv|].
        rewrite <- Zlt_Qlt. apply Hmono, Hij.
    + apply List.Forall_forall. intros frame Hin.
      destruct (mapM_concat_In _ _ _ _ Hm Hin) as (i & y & Hi & Hy & Hx).
      apply in_seq in Hi.
      apply sampled_frame_shape in Hy as [->|(x & -> & _ & Hts & _)]; [destruct Hx|].
      destruct Hx as [<-|[]]. rewrite Hts. unfold Qdiv. split.
      * apply Qmult_le_0_compat; [|lra].
        change 0%Q with (inject_Z 0). rewrite <- Zle_Qle. apply Hp0.
      * apply Qmult_lt_compat_r; [exact Hinv|].
        rewrite <- Zlt_Qlt. apply Hbound. lia.
Qed.

Lemma extract_video_frames_timestamps_witness :
  let cap := {| cap_is_opened := true; cap_fps := 25; cap_frame_count := 100;
                cap_read := fun position => negb (position =? 20)%Z |} in
  let frames := extract_video_frames (fun _ => true) (fun _ => Ok tt) (fun _ => Ok cap)
                  (fun _ _ _ => "frame.jpg") (fun _ _ => Ok tt)
                  "video.mp4" "v" 20 (1 # 10) in
  length frames = 9%nat /\
  StronglySorted Qlt (map fd_timestamp frames) /\
  List.Forall (fun frame => (0 <= fd_timestamp frame)%Q /\
                            (fd_timestamp frame < inject_Z 100 / 25)%Q) frames.
Proof.
  intros cap frames. split; [reflexivity|].
  apply (extract_video_frames_timestamps (fun _ => true) (fun _ => Ok tt)
           (fun _ => Ok cap) (fun _ _ _ => "frame.jpg") (fun _ _ => Ok tt)
           "video.mp4" "v" 20 (1 # 10) cap).
  - reflexivity.
  - vm_compute. discriminate.
  - split; vm_compute; [reflexivity|discriminate].
Defined.

(** ** Key frames and detailed descriptions *)

Lemma mapM_nth_error {A B : Type} (f : A -> result B) (l : list A) (ys : list B)
    (k : nat) (a : A) :
  mapM f l = Ok ys -> nth_error l k = Some a ->
  exists y, nth_error ys k = Some y /\ f a = Ok y.
Proof.
  revert ys k. induction l as [|x l IH]; intros ys k H Hk; simpl in H.
  - destruct k; discriminate.
  - destruct (f x) as [y|e] eqn:Ex; [|discriminate]. cbn [bind] in H.
    destruct (mapM f l) as [ys'|e] eqn:El; [|discriminate]. cbn [bind] in H.
    injection H as <-. destruct k as [|k]; simpl in Hk |- *.
    + injection Hk as <-. exists y. auto.
    + apply (IH ys' k eq_refl Hk).
Qed.

Lemma mapM_In {A B : Type} (f : A -> result B) (l : list A) (ys : list B) (y : B) :
  mapM f l = Ok ys -> In y ys -> exists a, In a l /\ f a = Ok y.
Proof.
  revert ys. induction l as [|x l IH]; intros ys H Hy; simpl in H.
  - injection H as <-. destruct Hy.
  - destruct (f x) as [y'|e] eqn:Ex; [|discriminate]. cbn [bind] in H.
    destruct (mapM f l) as [ys'|e] eqn:El; [|discriminate]. cbn [bind] in H.
    injection H as <-. destruct Hy as [<-|Hy].
    + exists x. auto using in_eq.
    + destruct (IH ys' eq_refl Hy) as (a & Ha & Hf). exists a. auto using in_cons.
Qed.

Lemma mapM_total {A B : Type} (f : A -> result B) (l : list A) :
  (forall a, In a l -> exists y, f a = Ok y) -> exists ys, mapM f l = Ok ys.
Proof.
  induction l as [|x l IH]; intros H; simpl.
  - eexists. reflexivity.
  - destruct (H x (in_eq _ _)) as [y ->]. cbn [bind].
    destruct IH as [ys ->]; [intros a Ha; apply H, in_cons, Ha|].
    cbn [bind]. eexists. reflexivity.
Qed.

Lemma frame_at_Ok (s : list FrameData) (i : nat) (frame : FrameData) :
  frame_at s i = Ok frame <-> nth_error s i = Some frame.
Proof.
  unfold frame_at. destruct (nth_error s i); split; intros H;
    try discriminate; injection H as <-; reflexivity.
Qed.

(** Reading a list at all its indices in order gives the list back. *)
Lemma mapM_frame_at_seq (s pre : list FrameData) :
  mapM (frame_at (pre ++ s)) (seq (length pre) (length s)) = Ok s.
Proof.
  revert pre. induction s as [|x s IH]; intros pre; [reflexivity|].
  cbn [length seq mapM].
  assert (Hx : frame_at (pre ++ x :: s) (length pre) = Ok x).
  { apply frame_at_Ok. rewrite nth_error_app2 by lia. rewrite Nat.sub_diag. reflexivity. }
  rewrite Hx. cbn [bind].
  specialize (IH (pre ++ [x])). rewrite <- app_assoc in IH. cbn [app] in IH.
  rewrite length_app in IH. cbn [length] in IH. rewrite Nat.add_1_r in IH.
  rewrite IH. reflexivity.
Qed.

Lemma StronglySorted_nth_error {A : Type} (R : A -> A -> Prop) (l : list A)
    (i j : nat) (a b : A) :
  StronglySorted R l -> (i < j)%nat ->
  nth_error l i = Some a -> nth_error l j = Some b -> R a b.
Proof.
  intros Hs. revert i j. induction Hs as [|x l Hs IH Hall]; intros i j Hij Hi Hj.
  - destruct i; discriminate.
  - destruct j as [|j]; [lia|]. simpl in Hj. destruct i as [|i]; simpl in Hi.
    + injection Hi as <-. rewrite List.Forall_forall in Hall.
      apply Hall. eapply nth_error_In, Hj.
    + apply (IH i j); [lia|assumption|assumption].
Qed.

(** Frames read at growing indices of a list sorted by timestamp are sorted
    by timestamp. *)
Lemma mapM_frame_at_sorted (s : list FrameData) (idx : list nat) (kf : list FrameData) :
  StronglySorted (key_le fd_timestamp) s -> StronglySorted lt idx ->
  mapM (frame_at s) idx = Ok kf -> StronglySorted (key_le fd_timestamp) kf.
Proof.
  intros Hs Hidx. revert kf.
  induction Hidx as [|i idx Hidx IH Hall]; intros kf H; simpl in H.
  - injection H as <-. constructor.
  - destruct (frame_at s i) as [x|e] eqn:Ex; [|discriminate]. cbn [bind] in H.
    destruct (mapM (frame_at s) idx) as [kf'|e] eqn:El; [|discriminate]. cbn [bind] in H.
    injection H as <-. constructor; [apply IH; reflexivity|].
    apply List.Forall_forall. intros y Hy.
    destruct (mapM_In _ _ _ _ El Hy) as (j & Hj & Hfj).
    rewrite List.Forall_forall in Hall.
    apply (StronglySorted_nth_error _ s i j); [exact Hs|apply Hall, Hj| |];
      apply frame_at_Ok; assumption.
Qed.

Lemma key_le_trans {A : Type} (key : A -> Q) : Relations_1.Transitive (key_le key).
Proof. intros a b c. unfold key_le. apply Qle_trans. Qed.

Lemma sorted_by_strongly_sorted {A : Type} (key : A -> Q) (l : list A) :
  StronglySorted (key_le key) (sorted_by key l).
Proof.
  apply Sorted_StronglySorted; [apply key_le_trans|apply sorted_by_sorted].
Qed.

(** The key indices of more than ten frames: nine multiples of the step,
    then the last index. *)
Lemma key_indices_eq (total_frames : nat) :
  (10 < total_frames)%nat ->
  key_indices total_frames
  = map (fun i => (i * (total_frames / 10))%nat) (seq 0 9) ++ [(total_frames - 1)%nat].
Proof.
  intros Hn. unfold key_indices.
  assert (Hstep : (1 <= total_frames / 10)%nat).
  { apply Nat.div_le_lower_bound; lia. }
  assert (Hmul : (10 * (total_frames / 10) <= total_frames)%nat).
  { apply Nat.Div0.mul_div_le. }
  set (step := (total_frames / 10)%nat) in *.
  destruct (existsb _ _) eqn:E.
  - apply existsb_exists in E as (x & Hx & Hxe). apply Nat.eqb_eq in Hxe.
    apply in_map_iff in Hx as (i & Hi & Hin). apply in_seq in Hin.
    assert (i = 9%nat) by nia. subst i.
    change (seq 0 10) with (seq 0 9 ++ [9%nat]). rewrite map_app. cbn [map].
    rewrite Hi, <- Hxe. reflexivity.
  - reflexivity.
Qed.

Lemma key_indices_spec (total_frames : nat) :
  (10 < total_frames)%nat ->
  length (key_indices total_frames) = 10%nat /\
  StronglySorted lt (key_indices total_frames) /\
  List.Forall (fun i => (i < total_frames)%nat) (key_indices total_frames) /\
  nth_error (key_indices total_frames) 0 = Some 0%nat /\
  nth_error (key_indices total_frames) 9 = Some (total_frames - 1)%nat.
Proof.
  intros Hn. rewrite key_indices_eq by exact Hn.
  assert (Hstep : (1 <= total_frames / 10)%nat).
  { apply Nat.div_le_lower_bound; lia. }
  assert (Hmul : (10 * (total_frames / 10) <= total_frames)%nat).
  { apply Nat.Div0.mul_div_le. }
  set (step := (total_frames / 10)%nat) in *.
  cbn [seq map app length nth_error].
  split; [reflexivity|]. split; [|split; [|split; reflexivity]].
  - repeat (constructor; [|repeat (constructor; try nia)]). constructor.
  - repeat (constructor; try nia).
Qed.

Lemma enhance_frame_fields path_exists describe_image (frame : FrameData) :
  let enhanced := enhance_frame path_exists describe_image frame in
  fd_id enhanced = fd_id frame /\
  fd_frame_path enhanced = fd_frame_path frame /\
  fd_timestamp enhanced = fd_timestamp frame.
Proof.
  unfold enhance_frame.
  destruct (_ || _); [auto|].
  destruct (describe_image _) as [[text|]|e]; cbn; auto.
Qed.

(** The frames the loop works on: read from the sorted list at growing
    indices that start at 0 and end at the last index. *)
Lemma key_frames_selection (frames : list FrameData) :
  frames <> [] ->
  let s := sorted_by fd_timestamp frames in
  exists idx key_frames,
    (if (length s <=? 10)%nat then Ok s
     else mapM (frame_at s) (key_indices (length s))) = Ok key_frames /\
    mapM (frame_at s) idx = Ok key_frames /\
    length idx = Nat.min (length frames) 10 /\
    StronglySorted lt idx /\
    nth_error idx 0 = Some 0%nat /\
    nth_error idx (length idx - 1) = Some (length frames - 1)%nat.
Proof.
  intros Hne s.
  assert (Hlen : length s = length frames) by apply sorted_by_length.
  assert (Hpos : (0 < length frames)%nat).
  { destruct frames; [contradiction|simpl; lia]. }
  destruct (length s <=? 10)%nat eqn:E.
  - apply Nat.leb_le in E. exists (seq 0 (length s)), s.
    split; [reflexivity|]. split; [apply (mapM_frame_at_seq s [])|].
    rewrite length_seq, Hlen.
    split; [lia|]. split; [|split].
    + clear. generalize 0%nat. induction (length frames) as [|n IH]; intros a; simpl.
      * constructor.
      * constructor; [apply IH|]. apply List.Forall_forall. intros j Hj.
        apply in_seq in Hj. lia.
    + destruct (length frames); [lia|reflexivity].
    + rewrite nth_error_seq.
      destruct (Nat.ltb_spec (length frames - 1) (length frames)); [reflexivity|lia].
  - apply Nat.leb_gt in E.
    destruct (key_indices_spec (length s) E) as (Hl & Hs & Hall & H0 & H9).
    destruct (mapM_total (frame_at s) (key_indices (length s))) as [kf Hkf].
    { intros i Hi. rewrite List.Forall_forall in Hall. specialize (Hall i Hi).
      destruct (nth_error s i) as [x|] eqn:Ex.
      - exists x. apply frame_at_Ok, Ex.
      - apply nth_error_None in Ex. lia. }
    exists (key_indices (length s)), kf.
    split; [exact Hkf|]. split; [exact Hkf|]. rewrite Hl, <- Hlen.
    split; [lia|]. split; [exact Hs|]. split; [exact H0|exact H9].
Qed.

(** X6.  For a non-empty list of frames, [generate_detailed_frame_descriptions]
    returns min(n, 10) frames in order of timestamp; the first one carries
    the least timestamp of the input and the last one the greatest, and each
    returned frame is a frame of the input up to its scene description.  The
    index computation never leaves the list, so the input is never handed
    back through the exception handler. *)
Theorem generate_detailed_frame_descriptions_spec path_exists describe_image
    (frames : list FrameData) :
  frames <> [] ->
  let enhanced := generate_detailed_frame_descriptions path_exists describe_image frames in
  length enhanced = Nat.min (length frames) 10 /\
  Sorted Qle (map fd_timestamp enhanced) /\
  (exists first last,
     nth_error enhanced 0 = Some first /\
     nth_error enhanced (length enhanced - 1) = Some last /\
     forall frame, In frame frames ->
       (fd_timestamp first <= fd_timestamp frame <= fd_timestamp last)%Q) /\
  List.Forall (fun e => exists frame, In frame frames /\
                 fd_id e = fd_id frame /\
                 fd_frame_path e = fd_frame_path frame /\
                 fd_timestamp e = fd_timestamp frame) enhanced.
Proof.
  intros Hne enhanced.
  destruct (key_frames_selection frames Hne)
    as (idx & kf & Hbody & Hkf & Hlen & Hidx & H0 & Hlast).
  set (s := sorted_by fd_timestamp frames) in *.
  assert (Hs : StronglySorted (key_le fd_timestamp) s)
    by apply sorted_by_strongly_sorted.
  assert (Hperm : Permutation s frames) by apply sorted_by_perm.
  assert (Hslen : length s = length frames) by apply sorted_by_length.
  assert (E : enhanced = map (enhance_frame path_exists describe_image) kf).
  { unfold enhanced, generate_detailed_frame_descriptions,
      generate_detailed_frame_descriptions_body.
    destruct frames as [|f0 fs]; [contradiction|].
    fold s. rewrite Hbody. reflexivity. }
  assert (Hts : map fd_timestamp enhanced = map fd_timestamp kf).
  { rewrite E, map_map. apply map_ext. intros x.
    apply (enhance_frame_fields path_exists describe_image x). }
  assert (Hkl : length kf = length idx) by apply (mapM_length _ _ _ Hkf).
  assert (Hel : length enhanced = length idx) by (rewrite E, length_map; exact Hkl).
  split; [rewrite Hel; exact Hlen|]. split; [|split].
  - rewrite Hts. apply Sorted_map_key, StronglySorted_Sorted.
    apply (mapM_frame_at_sorted s idx); assumption.
  - destruct (mapM_nth_error _ _ _ _ _ Hkf H0) as (x0 & Hx0 & Hf0).
    destruct (mapM_nth_error _ _ _ _ _ Hkf Hlast) as (xl & Hxl & Hfl).
    apply frame_at_Ok in Hf0, Hfl.
    exists (enhance_frame path_exists describe_image x0),
           (enhance_frame path_exists describe_image xl).
    rewrite Hel, E, !nth_error_map, Hx0, Hxl.
    split; [reflexivity|]. split; [reflexivity|].
    intros frame Hin.
    destruct (enhance_frame_fields path_exists describe_image x0) as (_ & _ & ->).
    destruct (enhance_frame_fields path_exists describe_image xl) as (_ & _ & ->).
    apply (Permutation_in _ (Permutation_sym Hperm)) in Hin.
    apply In_nth_error in Hin as [j Hj].
    assert (Hjl : (j < length s)%nat) by (apply nth_error_Some; congruence).
    split.
    + destruct j as [|j]; [rewrite Hf0 in Hj; injection Hj as <-; apply Qle_refl|].
      apply (StronglySorted_nth_error _ s 0 (S j) x0 frame Hs); [lia|assumption..].
    + destruct (Nat.eq_dec j (length frames - 1)) as [->|Hneq].
      * rewrite Hfl in Hj. injection Hj as <-. apply Qle_refl.
      * apply (StronglySorted_nth_error _ s j (length frames - 1) frame xl Hs);
          [lia|assumption..].
  - apply List.Forall_forall. intros e He. rewrite E in He.
    apply in_map_iff in He as (x & <- & Hx).
    destruct (mapM_In _ _ _ _ Hkf Hx) as (i & _ & Hi). apply frame_at_Ok in Hi.
    exists x. split.
    + apply (Permutation_in _ Hperm). eapply nth_error_In, Hi.
    + apply (enhance_frame_fields path_exists describe_image x).
Qed.

Lemma generate_detailed_frame_descriptions_spec_witness :
  let frames :=
    map (fun i => {| fd_id := str_of_nat i; fd_frame_path := "frame.jpg";
                     fd_timestamp := inject_Z (Z.of_nat (12 - i));
                     fd_scene_description := None; fd_objects_detected := [];
                     fd_confidence_scores := [] |}) (seq 0 12) in
  let enhanced := generate_detailed_frame_descriptions (fun _ => true)
                    (fun _ => Ok (Some "a scene")) frames in
  frames <> [] /\
  length enhanced = 10%nat /\
  Sorted Qle (map fd_timestamp enhanced) /\
  (exists first last,
     nth_error enhanced 0 = Some first /\
     nth_error enhanced (length enhanced - 1) = Some last /\
     forall frame, In frame frames ->
       (fd_timestamp first <= fd_timestamp frame <= fd_timestamp last)%Q) /\
  List.Forall (fun e => exists frame, In frame frames /\
                 fd_id e = fd_id frame /\
                 fd_frame_path e = fd_frame_path frame /\
                 fd_timestamp e = fd_timestamp frame) enhanced.
Proof.
  intros frames enhanced.
  assert (Hne : frames <> []) by (vm_compute; discriminate).
  split; [exact Hne|].
  exact (generate_detailed_frame_descriptions_spec (fun _ => true)
           (fun _ => Ok (Some "a scene")) frames Hne).
Defined.

(** ** Content around a timestamp *)

Lemma mapM_enum_In {A B : Type} (f : nat -> A -> result B) (l : list A) (i : nat)
    (ys : list B) (y : B) :
  mapM_enum f i l = Ok ys -> In y ys -> exists j a, In a l /\ f j a = Ok y.
Proof.
  revert i ys. induction l as [|x l IH]; intros i ys H Hy; simpl in H.
  - injection H as <-. destruct Hy.
  - destruct (f i x) as [y'|e] eqn:Ex; [|discriminate]. cbn [bind] in H.
    destruct (mapM_enum f (S i) l) as [ys'|e] eqn:El; [|discriminate]. cbn [bind] in H.
    injection H as <-. destruct Hy as [<-|Hy].
    + exists i, x. auto using in_eq.
    + destruct (IH (S i) ys' El Hy) as (j & a & Ha & Hf). exists j, a. auto using in_cons.
Qed.

Lemma py_max_ge_l (a b : Q) : (a <= py_max a b)%Q.
Proof.
  unfold py_max. destruct (Qlt_bool a b) eqn:E; [|apply Qle_refl].
  apply Qlt_bool_iff in E. apply Qlt_le_weak, E.
Qed.

Lemma content_type_match {A : Type} (s : string) (a b c : A) :
  match s with
  | "transcript"%string => a
  | "visual"%string => b
  | _ => c
  end = if String.eqb s "transcript" then a else if String.eqb s "visual" then b else c.
Proof.
  repeat (match goal with
          | |- context [match ?x with EmptyString => _ | String _ _ => _ end] =>
              is_var x; destruct x
          | |- context [match ?x with Ascii _ _ _ _ _ _ _ _ => _ end] =>
              is_var x; destruct x
          | |- context [if ?x then _ else _] => is_var x; destruct x
          end; try reflexivity).
Qed.

(** A record that became a chunk or a frame lies in the window. *)
Lemma window_hit_spec query_uuid4 (video_id : string) (start_time end_time : Q)
    (all_results : QueryResponse) (i : nat) (metadata : gmap string pyval)
    (h : retrieved) :
  window_hit query_uuid4 video_id start_time end_time all_results i metadata = Ok h ->
  match h with
  | RetrievedTranscript c =>
      (start_time <= tc_start_time c)%Q /\ (tc_end_time c <= end_time)%Q /\
      metadata !! "content_type" = Some (PStr "transcript")
  | RetrievedFrame f =>
      (start_time <= fd_timestamp f)%Q /\ (fd_timestamp f <= end_time)%Q /\
      (exists document, fd_scene_description f = Some document) /\
      metadata !! "content_type" = Some (PStr "visual")
  | RetrievedOther => True
  end.
Proof.
  unfold window_hit.
  destruct (row_item "documents" (qr_documents all_results) i "") as [document|e];
    cbn [bind]; [|discriminate].
  unfold dict_get at 1.
  destruct (metadata !! "content_type") as [ct|] eqn:Ect; cbv [default from_option id];
    [|intros H; injection H as <-; exact I].
  destruct ct as [|s|q|items]; try (intros H; injection H as <-; exact I).
  rewrite content_type_match.
  destruct (String.eqb s "transcript") eqn:Et.
  - apply String.eqb_eq in Et. subst s.
    destruct (py_num (dict_get metadata "start_time" (PNum 0))) as [s|e] eqn:Es;
      cbn [bind]; [|discriminate].
    destruct (Qle_bool start_time s) eqn:Els; [|intros H; injection H as <-; exact I].
    destruct (py_num (dict_get metadata "end_time" (PNum 0))) as [e'|e] eqn:Ee;
      cbn [bind]; [|discriminate].
    destruct (Qle_bool e' end_time) eqn:Ele; [|intros H; injection H as <-; exact I].
    destruct (dict_get metadata "start_time" (PNum 0)) as [| |qs|]; try discriminate.
    destruct (dict_get metadata "end_time" (PNum 0)) as [| |qe|]; try discriminate.
    injection Es as <-. injection Ee as <-.
    unfold TranscriptChunk_init, required_str, required_float, optional_float,
      optional_str. cbn [kw_get String.eqb Ascii.eqb Bool.eqb].
    destruct (dict_get metadata "chunk_id" _); cbn [bind]; try discriminate.
    intros H. injection H as <-. cbn [tc_start_time tc_end_time].
    split; [apply Qle_bool_iff, Els|]. split; [apply Qle_bool_iff, Ele|reflexivity].
  - destruct (String.eqb s "visual") eqn:Ev; [|intros H; injection H as <-; exact I].
    apply String.eqb_eq in Ev. subst s.
    destruct (py_num (dict_get metadata "timestamp" (PNum 0))) as [t|e] eqn:Es;
      cbn [bind]; [|discriminate].
    destruct (Qle_bool start_time t && Qle_bool t end_time) eqn:Ew;
      [|intros H; injection H as <-; exact I].
    apply andb_prop in Ew as [Ew1 Ew2].
    destruct (dict_get metadata "timestamp" (PNum 0)) as [| |qs|]; try discriminate.
    injection Es as <-.
    unfold FrameData_init, required_str, required_float, optional_float,
      optional_str. cbn [kw_get String.eqb Ascii.eqb Bool.eqb].
    destruct (dict_get metadata "frame_id" _); cbn [bind]; try discriminate.
    destruct (dict_get metadata "frame_path" _); cbn [bind]; try discriminate.
    intros H. injection H as <-. cbn [fd_timestamp fd_scene_description].
    split; [apply Qle_bool_iff, Ew1|]. split; [apply Qle_bool_iff, Ew2|].
    split; [eexists; reflexivity|reflexivity].
Qed.

Lemma transcripts_of_In (hits : list retrieved) (c : TranscriptChunk) :
  In c (transcripts_of hits) <-> In (RetrievedTranscript c) hits.
Proof.
  unfold transcripts_of. rewrite in_flat_map. split.
  - intros (h & Hh & Hc). destruct h as [c0|f0|]; cbn in Hc;
      [destruct Hc as [<-|[]]; exact Hh|destruct Hc|destruct Hc].
  - intros H. exists (RetrievedTranscript c). split; [exact H|apply in_eq].
Qed.

Lemma frames_of_In (hits : list retrieved) (f : FrameData) :
  In f (frames_of hits) <-> In (RetrievedFrame f) hits.
Proof.
  unfold frames_of. rewrite in_flat_map. split.
  - intros (h & Hh & Hc). destruct h as [c0|f0|]; cbn in Hc;
      [destruct Hc|destruct Hc as [<-|[]]; exact Hh|destruct Hc].
  - intros H. exists (RetrievedFrame f). split; [exact H|apply in_eq].
Qed.

(** X7.  [get_content_around_timestamp] never raises; the chunks it returns
    are sorted by start time and lie in the window, start at or after
    max(0, timestamp - window) and end at or before timestamp + window; the
    frames are sorted by timestamp, lie in the same window and carry a
    scene description.  When the query of the store raises, both lists are
    empty. *)
Theorem get_content_around_timestamp_window
    (query_embeddings :
       list (list Q) -> nat -> option where_filter -> result (option QueryResponse))
    (uuid4 : nat -> string) (video_id : string) (timestamp window_seconds : Q) :
  let r := get_content_around_timestamp query_embeddings uuid4 video_id timestamp
             window_seconds in
  let start_time := py_max 0 (timestamp - window_seconds) in
  let end_time := (timestamp + window_seconds)%Q in
  Sorted Qle (map tc_start_time (fst r)) /\
  Sorted Qle (map fd_timestamp (snd r)) /\
  List.Forall (fun c => (0 <= start_time <= tc_start_time c)%Q /\
                        (tc_end_time c <= end_time)%Q) (fst r) /\
  List.Forall (fun f => (0 <= start_time <= fd_timestamp f)%Q /\
                        (fd_timestamp f <= end_time)%Q /\
                        exists d, fd_scene_description f = Some d) (snd r) /\
  ((exists e, query_embeddings [zero_vector] 1000
                (Some [("video_id", WhereEq video_id)]) = Raise e) ->
   r = ([], [])).
Proof.
  intros r start_time end_time.
  assert (H0 : (0 <= start_time)%Q) by apply py_max_ge_l.
  unfold r, get_content_around_timestamp, get_content_around_timestamp_body.
  fold start_time end_time.
  destruct (query_embeddings [zero_vector] 1000 _) as [all_results|e] eqn:Eq; cbn [bind].
  2:{ cbn [fst snd map]. repeat split; constructor. }
  set (hits_r := match all_results with
                 | Some r0 => _
                 | None => Ok []
                 end).
  destruct hits_r as [hits|e] eqn:Eh; cbn [bind].
  2:{ cbn [fst snd map]. repeat split; try constructor. }
  assert (Hhits : forall h, In h hits -> exists r0 i metadata,
            window_hit uuid4 video_id start_time end_time r0 i metadata = Ok h).
  { intros h Hh. unfold hits_r in Eh.
    destruct all_results as [r0|]; [|injection Eh as <-; destruct Hh].
    destruct (has_metadatas (Some r0)); [|injection Eh as <-; destruct Hh].
    destruct (first_row "metadatas" (qr_metadatas r0)) as [metadatas|e];
      cbn [bind] in Eh; [|discriminate].
    destruct (mapM_enum_In _ _ _ _ _ Eh Hh) as (j & metadata & _ & Hj).
    exists r0, j, metadata. exact Hj. }
  cbn [fst snd]. split; [|split; [|split; [|split]]].
  - apply Sorted_map_key, sorted_by_sorted.
  - apply Sorted_map_key, sorted_by_sorted.
  - apply List.Forall_forall. intros c Hc.
    apply (Permutation_in _ (sorted_by_perm _ _)) in Hc.
    apply transcripts_of_In in Hc. destruct (Hhits _ Hc) as (r0 & i & metadata & Hw).
    apply window_hit_spec in Hw as (Hs & He & _). auto.
  - apply List.Forall_forall. intros f Hf.
    apply (Permutation_in _ (sorted_by_perm _ _)) in Hf.
    apply frames_of_In in Hf. destruct (Hhits _ Hf) as (r0 & i & metadata & Hw).
    apply window_hit_spec in Hw as (Hs & He & Hd & _). auto.
  - intros [e' He']. discriminate.
Qed.

(** ** Chat over a video *)

Lemma last_n_idem {A : Type} (n : nat) (l : list A) :
  last_n n (last_n n l) = last_n n l.
Proof.
  unfold last_n. rewrite length_skipn.
  replace (length l - (length l - n) - n)%nat with 0%nat by lia. reflexivity.
Qed.

Lemma last_n_nil {A : Type} (n : nat) (l : list A) :
  (0 < n)%nat -> last_n n l = [] -> l = [].
Proof.
  unfold last_n. intros Hn H. apply (f_equal (@length A)) in H.
  rewrite length_skipn in H. cbn [length] in H.
  destruct l as [|x l]; [reflexivity|]. cbn [length] in H. lia.
Qed.

Lemma chunk_context_firstn format_1f (transcript_chunks : list TranscriptChunk) :
  chunk_context format_1f (firstn 5 transcript_chunks)
  = chunk_context format_1f transcript_chunks.
Proof.
  unfold chunk_context. rewrite firstn_firstn. cbn [Nat.min].
  destruct transcript_chunks; reflexivity.
Qed.

Lemma frame_context_firstn format_1f (frames : list FrameData) :
  frame_context format_1f (firstn 3 frames) = frame_context format_1f frames.
Proof.
  unfold frame_context, described_frames. rewrite firstn_firstn. cbn [Nat.min].
  destruct frames; reflexivity.
Qed.

Lemma conversation_context_last_n (conversation_history : list (gmap string string)) :
  conversation_context_of (last_n 3 conversation_history)
  = conversation_context_of conversation_history.
Proof.
  unfold conversation_context_of. rewrite last_n_idem.
  destruct conversation_history as [|m h]; [reflexivity|].
  destruct (last_n 3 (m :: h)) eqn:E; [|reflexivity].
  apply last_n_nil in E; [discriminate|lia].
Qed.

(** The references of an answer are candidates of its context. *)
Lemma chat_with_video_refs_In
    (gemini_text_model : option (string -> result (option string)))
    (format_1f : Q -> string) (video_id user_message : string)
    (transcript_chunks : list TranscriptChunk) (frames : list FrameData)
    (conversation_history : list (gmap string string)) (t : Q) :
  In t (snd (chat_with_video gemini_text_model format_1f video_id user_message
               transcript_chunks frames conversation_history)) ->
  (exists chunk, In chunk (firstn 5 transcript_chunks) /\ t = tc_start_time chunk) \/
  (exists frame, In frame (firstn 3 frames) /\
     truthy_str (fd_scene_description frame) = true /\ t = fd_timestamp frame).
Proof.
  intros Ht. unfold chat_with_video, chat_with_video_body in Ht.
  destruct gemini_text_model as [generate_content|]; [|destruct Ht].
  destruct (conversation_context_of conversation_history) as [cc|e];
    cbn [bind] in Ht; [|destruct Ht].
  destruct (generate_content _) as [response|e]; cbn [bind] in Ht; [|destruct Ht].
  cbn [snd] in Ht. apply extract_timestamps_In in Ht.
  apply in_app_or in Ht as [Ht|Ht].
  - left. unfold chunk_context in Ht.
    destruct transcript_chunks as [|c cs]; [destruct Ht|]. cbn [snd] in Ht.
    apply in_map_iff in Ht as (chunk & <- & Hc). exists chunk. auto.
  - right. unfold frame_context in Ht.
    destruct frames as [|f fs]; [destruct Ht|]. cbn [snd] in Ht.
    apply in_map_iff in Ht as (frame & <- & Hf). unfold described_frames in Hf.
    apply List.filter_In in Hf as [Hf Hd]. exists frame. auto.
Qed.

Lemma chat_with_video_refs_NoDupA
    (gemini_text_model : option (string -> result (option string)))
    (format_1f : Q -> string) (video_id user_message : string)
    (transcript_chunks : list TranscriptChunk) (frames : list FrameData)
    (conversation_history : list (gmap string string)) :
  NoDupA Qeq (snd (chat_with_video gemini_text_model format_1f video_id user_message
                     transcript_chunks frames conversation_history)).
Proof.
  unfold chat_with_video, chat_with_video_body.
  destruct gemini_text_model as [generate_content|]; [|constructor].
  destruct (conversation_context_of conversation_history) as [cc|e];
    cbn [bind]; [|constructor].
  destruct (generate_content _) as [response|e]; cbn [bind]; [|constructor].
  cbn [snd]. apply list_set_NoDupA.
Qed.

(** X8.  The timestamp references [chat_with_video] returns come from the
    context it was given: each one is the start time of one of the first
    five transcript chunks or the timestamp of one of the first three frames
    that carries a description, and no reference is listed twice.  Chunks
    after the fifth, frames after the third and all but the last three
    messages of the conversation have no effect on the answer; without a
    text model, and whenever building the prompt or calling the model
    raises, there is no reference at all. *)
Theorem chat_with_video_references
    (gemini_text_model : option (string -> result (option string)))
    (format_1f : Q -> string) (video_id user_message : string)
    (transcript_chunks : list TranscriptChunk) (frames : list FrameData)
    (conversation_history : list (gmap string string)) :
  let r := chat_with_video gemini_text_model format_1f video_id user_message
             transcript_chunks frames conversation_history in
  (forall t, In t (snd r) ->
     (exists chunk, In chunk (firstn 5 transcript_chunks) /\ t = tc_start_time chunk) \/
     (exists frame, In frame (firstn 3 frames) /\
        truthy_str (fd_scene_description frame) = true /\ t = fd_timestamp frame)) /\
  NoDupA Qeq (snd r) /\
  r = chat_with_video gemini_text_model format_1f video_id user_message
        (firstn 5 transcript_chunks) (firstn 3 frames) (last_n 3 conversation_history) /\
  (gemini_text_model = None ->
     r = ("AI chat not available. Please configure Gemini API key.", [])) /\
  (forall e,
     chat_with_video_body gemini_text_model format_1f video_id user_message
       transcript_chunks frames conversation_history = Raise e ->
     snd r = []).
Proof.
  intros r. split; [|split; [|split; [|split]]].
  - intros t Ht. apply (chat_with_video_refs_In _ _ _ _ _ _ _ _ Ht).
  - apply chat_with_video_refs_NoDupA.
  - unfold r, chat_with_video, chat_with_video_body.
    rewrite chunk_context_firstn, frame_context_firstn, conversation_context_last_n.
    reflexivity.
  - intros ->. reflexivity.
  - intros e He. unfold r, chat_with_video. rewrite He. reflexivity.
Qed.

(** ** The videos of the store *)

Lemma py_set_In (l : list pyval) (x : pyval) : In x (py_set l) -> In x l.
Proof.
  revert x. induction l as [|a l IH]; intros x H; [destruct H|].
  simpl in H. destruct H as [<-|H]; [apply in_eq|].
  apply List.filter_In in H as [H _]. apply in_cons, IH, H.
Qed.

Lemma py_set_NoDupA (l : list pyval) : NoDupA same_value (py_set l).
Proof.
  induction l as [|a l IH]; simpl; constructor.
  - intros Hin. apply InA_alt in Hin as (y & Hay & Hy).
    apply List.filter_In in Hy as [_ Hy]. unfold same_value in Hay.
    rewrite Hay in Hy. discriminate.
  - induction IH as [|b s Hnin Hnd IHs]; simpl; [constructor|].
    destruct (negb (pyval_eqb a b)); [|exact IHs].
    constructor; [|exact IHs].
    intros Hin. apply Hnin. apply InA_alt in Hin as (y & Hby & Hy).
    apply List.filter_In in Hy as [Hy _]. apply InA_alt. exists y. auto.
Qed.

(** A string that was added is in the set. *)
Lemma py_set_str (l : list pyval) (s : string) :
  In (PStr s) l -> In (PStr s) (py_set l).
Proof.
  induction l as [|a l IH]; intros H; [destruct H|].
  simpl. destruct H as [->|H]; [left; reflexivity|].
  destruct (pyval_eqb a (PStr s)) eqn:E.
  - left. destruct a; try discriminate. apply String.eqb_eq in E. subst. reflexivity.
  - right. apply List.filter_In. split; [apply IH, H|]. rewrite E. reflexivity.
Qed.

Lemma mapM_hashable (l added : list pyval) : mapM hashable l = Ok added -> added = l.
Proof.
  revert added. induction l as [|x l IH]; intros added H; simpl in H.
  - injection H as <-. reflexivity.
  - destruct (hashable x) as [y|e] eqn:Ex; [|discriminate]. cbn [bind] in H.
    destruct (mapM hashable l) as [ys|e]; [|discriminate]. cbn [bind] in H.
    injection H as <-. rewrite (IH ys eq_refl).
    destruct x; try discriminate; injection Ex as <-; reflexivity.
Qed.

Lemma video_entry_fields (video_id : pyval) :
  video_entry video_id !! "video_id" = Some video_id /\
  video_entry video_id !! "status" = Some (PStr "processed").
Proof.
  unfold video_entry. split.
  - apply lookup_insert_eq.
  - rewrite lookup_insert_ne by discriminate. apply lookup_insert_eq.
Qed.

Lemma metadata_video_ids_In (metadatas : list (gmap string pyval)) (id : pyval) :
  In id (metadata_video_ids metadatas) <->
  exists metadata, In metadata metadatas /\ metadata !! "video_id" = Some id.
Proof.
  unfold metadata_video_ids. rewrite <- list_elem_of_In, list_elem_of_omap.
  split; intros (m & Hm & Hid); exists m; split; try exact Hid;
    apply list_elem_of_In; exact Hm.
Qed.

Lemma mapM_hashable_ok (l : list pyval) :
  List.Forall (fun v => forall items, v <> PList items) l -> mapM hashable l = Ok l.
Proof.
  induction 1 as [|x l Hx Hl IH]; [reflexivity|]. simpl.
  destruct x as [|s|q|items]; cbn [hashable bind]; try (rewrite IH; reflexivity).
  exfalso. exact (Hx items eq_refl).
Qed.

(** The entries listed and the identifiers added to the set. *)
Lemma get_available_videos_entries ensure_client collection_get
    (v : gmap string pyval) :
  In v (get_available_videos ensure_client collection_get) ->
  exists id metadatas,
    v = video_entry id /\
    collection_get None = Ok (Some metadatas) /\
    In id (metadata_video_ids metadatas).
Proof.
  unfold get_available_videos, get_available_videos_body.
  destruct ensure_client as [[]|e]; cbn [bind]; [|intros []].
  destruct (collection_get None) as [[metadatas|]|e]; cbn [bind]; try (intros []).
  destruct (mapM hashable (metadata_video_ids metadatas)) as [added|e] eqn:Ea;
    cbn [bind]; [|intros []].
  apply mapM_hashable in Ea. subst added.
  intros Hv. apply in_map_iff in Hv as (id & <- & Hid). apply py_set_In in Hid.
  exists id, metadatas. auto.
Qed.

Lemma video_info_of_entry (id : pyval) :
  vi_video_id (video_info_of (video_entry id))
  = match id with PStr s => Some s | _ => None end.
Proof.
  unfold video_info_of. cbn [vi_video_id].
  destruct (video_entry_fields id) as [-> _]. reflexivity.
Qed.

(** A resolved identifier is one of the identifiers listed. *)
Lemma get_video_id_match_listed (video_id target : string)
    (available_videos : list VideoInfo) :
  _get_video_id_match video_id available_videos = Some target ->
  In (Some target) (map vi_video_id available_videos).
Proof.
  unfold _get_video_id_match.
  destruct (str_in video_id _) eqn:E1.
  { intros H. injection H as <-. apply str_in_In, E1. }
  destruct (str_in ("youtube_" ++ video_id)%string _) eqn:E2.
  { intros H. injection H as <-. apply str_in_In, E2. }
  destruct (String.prefix "youtube_" video_id && str_in (str_drop 8 video_id) _) eqn:E3;
    [|discriminate].
  intros H. injection H as <-. apply andb_prop in E3 as [_ E3]. apply str_in_In, E3.
Qed.

(** X9.  [get_available_videos] never raises.  Every entry it lists has the
    status [processed] and the identifier of some record of the store, no
    identifier is listed twice, and when the client cannot be initialized
    or the store cannot be read the list is empty. *)
Theorem get_available_videos_spec (ensure_client : result unit)
    (collection_get : option where_filter -> result (option (list (gmap string pyval)))) :
  let available_videos := get_available_videos ensure_client collection_get in
  (forall v, In v available_videos ->
     v !! "status" = Some (PStr "processed") /\
     exists id metadatas metadata,
       v !! "video_id" = Some id /\
       collection_get None = Ok (Some metadatas) /\
       In metadata metadatas /\ metadata !! "video_id" = Some id) /\
  NoDupA same_value
    (map (fun v => default PNone (v !! "video_id")) available_videos) /\
  ((exists e, ensure_client = Raise e) \/ (exists e, collection_get None = Raise e) ->
   available_videos = []).
Proof.
  intros available_videos. split; [|split].
  - intros v Hv. apply get_available_videos_entries in Hv as (id & metadatas & -> & Hg & Hid).
    destruct (video_entry_fields id) as [Hvid Hst]. split; [exact Hst|].
    apply metadata_video_ids_In in Hid as (metadata & Hm & Hmid).
    exists id, metadatas, metadata. auto.
  - unfold available_videos, get_available_videos, get_available_videos_body.
    destruct ensure_client as [[]|e]; cbn [bind]; [|constructor].
    destruct (collection_get None) as [all_docs|e]; cbn [bind]; [|constructor].
    destruct (match all_docs with Some _ => _ | None => _ end) as [added|e];
      cbn [bind]; [|constructor].
    rewrite map_map.
    rewrite (map_ext _ (fun id => id)), map_id; [apply py_set_NoDupA|].
    intros id. destruct (video_entry_fields id) as [-> _]. reflexivity.
  - unfold available_videos, get_available_videos, get_available_videos_body.
    intros [[e ->]|[e He]]; [reflexivity|].
    destruct ensure_client as [[]|e']; cbn [bind]; [|reflexivity].
    rewrite He. reflexivity.
Qed.

(** X10.  When the store can be read and the identifiers of its records can
    be put in a set, the lookup of the chat routes finds exactly the videos
    of the store: a string that is the identifier of a record resolves to
    itself, and whatever a requested identifier resolves to is the
    identifier of a record. *)
Theorem stored_video_is_resolved (ensure_client : result unit)
    (collection_get : option where_filter -> result (option (list (gmap string pyval))))
    (metadatas : list (gmap string pyval)) :
  ensure_client = Ok tt ->
  collection_get None = Ok (Some metadatas) ->
  List.Forall (fun metadata => forall items, metadata !! "video_id" <> Some (PList items))
    metadatas ->
  let available_videos :=
    map video_info_of (get_available_videos ensure_client collection_get) in
  (forall metadata s,
     In metadata metadatas -> metadata !! "video_id" = Some (PStr s) ->
     _get_video_id_match s available_videos = Some s) /\
  (forall video_id target,
     _get_video_id_match video_id available_videos = Some target ->
     exists metadata,
       In metadata metadatas /\ metadata !! "video_id" = Some (PStr target)).
Proof.
  intros He Hg Hhash available_videos. split.
  - intros metadata s Hm Hs.
    assert (Hin : In (Some s) (map vi_video_id available_videos)).
    { unfold available_videos, get_available_videos, get_available_videos_body.
      rewrite He, Hg. cbn [bind].
      rewrite mapM_hashable_ok.
      2:{ apply List.Forall_forall. intros id Hid items ->.
          apply metadata_video_ids_In in Hid as (m & Hm' & Hid).
          rewrite List.Forall_forall in Hhash. exact (Hhash m Hm' items Hid). }
      cbn [bind]. rewrite !map_map. apply in_map_iff. exists (PStr s).
      split; [apply video_info_of_entry|].
      apply py_set_str, metadata_video_ids_In. exists metadata. auto. }
    unfold _get_video_id_match. apply str_in_In in Hin. rewrite Hin. reflexivity.
  - intros video_id target Hmatch. apply get_video_id_match_listed in Hmatch.
    unfold available_videos in Hmatch. rewrite map_map in Hmatch.
    apply in_map_iff in Hmatch as (v & Hv & Hin).
    apply get_available_videos_entries in Hin as (id & metadatas' & -> & Hg' & Hid).
    rewrite Hg in Hg'. injection Hg' as <-.
    rewrite video_info_of_entry in Hv. destruct id as [|s|q|items]; try discriminate.
    injection Hv as ->. apply metadata_video_ids_In, Hid.
Qed.

Lemma stored_video_is_resolved_witness :
  let metadatas : list (gmap string pyval) :=
    [ <["video_id" := PStr "youtube_abc"]> (<["content_type" := PStr "transcript"]> ∅);
      <["video_id" := PStr "youtube_abc"]> (<["content_type" := PStr "visual"]> ∅);
      <["video_id" := PStr "talk"]> ∅ ] in
  let available_videos :=
    map video_info_of (get_available_videos (Ok tt) (fun _ => Ok (Some metadatas))) in
  length available_videos = 2%nat /\
  _get_video_id_match "abc" available_videos = Some "youtube_abc" /\
  (forall metadata s,
     In metadata metadatas -> metadata !! "video_id" = Some (PStr s) ->
     _get_video_id_match s available_videos = Some s) /\
  (forall video_id target,
     _get_video_id_match video_id available_videos = Some target ->
     exists metadata,
       In metadata metadatas /\ metadata !! "video_id" = Some (PStr target)).
Proof.
  intros metadatas available_videos.
  split; [vm_compute; reflexivity|]. split; [vm_compute; reflexivity|].
  apply (stored_video_is_resolved (Ok tt) (fun _ => Ok (Some metadatas)) metadatas).
  - reflexivity.
  - reflexivity.
  - repeat constructor; intros items H; vm_compute in H; discriminate.
Defined.

(** ** The chat route *)

Lemma ChatResponse_init_Ok (response : string) (timestamp_references : list Q)
    (confidence : option Q) (sources_used : list string) (r : ChatResponse) :
  ChatResponse_init response timestamp_references confidence sources_used = Ok r ->
  cr_response r = response /\
  validate_timestamps timestamp_references = Ok (cr_timestamp_references r) /\
  cr_confidence r = confidence /\
  cr_sources_used r = sources_used.
Proof.
  unfold ChatResponse_init.
  destruct (validate_timestamps timestamp_references) as [validated|e];
    destruct (confidence_in_range confidence); try discriminate.
  intros H. injection H as <-. auto.
Qed.

(** References that went through the validator after the extraction are
    strictly ascending and not negative. *)
Lemma validated_references (refs delivered : list Q) :
  NoDupA Qeq refs -> validate_timestamps refs = Ok delivered ->
  StronglySorted Qlt delivered /\
  List.Forall (fun t => (0 <= t)%Q) delivered /\
  Permutation delivered refs.
Proof.
  intros Hnd Hval. destruct (validate_timestamps_ok _ _ Hval) as [-> Hpos].
  assert (Hperm := sorted_by_perm (fun t : Q => t) refs).
  split; [|split; [|exact Hperm]].
  - apply Sorted_NoDupA_strict.
    + apply Sorted_key_le_id, sorted_by_sorted.
    + apply (NoDupA_Qeq_perm _ _ (Permutation_sym Hperm)), Hnd.
  - apply List.Forall_forall. intros t Ht. rewrite List.Forall_forall in Hpos.
    apply Hpos. apply (Permutation_in _ Hperm), Ht.
Qed.

Lemma chat_confidence_cases (transcript_chunks : list TranscriptChunk)
    (frames : list FrameData) :
  chat_confidence transcript_chunks frames = (3 # 10)%Q \/
  chat_confidence transcript_chunks frames = (8 # 10)%Q.
Proof. destruct transcript_chunks, frames; cbn; auto. Qed.

Lemma chat_confidence_in_range (transcript_chunks : list TranscriptChunk)
    (frames : list FrameData) :
  confidence_in_range (Some (chat_confidence transcript_chunks frames)) = true.
Proof. destruct transcript_chunks, frames; reflexivity. Qed.

(** X11.  [send_chat_message] fails with HTTP 500 or not at all.  A response
    it returns names no source, has confidence 0, 0.3 or 0.8, and its
    timestamp references are not negative and strictly ascending.  When the
    requested video is not found the response has no reference and confidence
    0.  When it is found, every reference is the start time of one of the
    first five retrieved chunks or the timestamp of one of the first three
    retrieved frames, and the route answers whenever none of these is
    negative. *)
Theorem send_chat_message_spec (ensure_client : result unit)
    (collection_get : option where_filter -> result (option (list (gmap string pyval))))
    (embed_texts : list string -> result (list (list Q)))
    (query_embeddings :
       list (list Q) -> nat -> option where_filter -> result (option QueryResponse))
    (uuid4 : nat -> string)
    (gemini_text_model : option (string -> result (option string)))
    (format_1f : Q -> string) (repr_list : list pyval -> string)
    (request : ChatRequest) :
  let route :=
    send_chat_message ensure_client collection_get embed_texts query_embeddings uuid4
      gemini_text_model format_1f repr_list request in
  let target :=
    _get_video_id_match (creq_video_id request)
      (map video_info_of (get_available_videos ensure_client collection_get)) in
  (forall e, route = Raise e -> e = HTTPException 500) /\
  (forall response, route = Ok response ->
     StronglySorted Qlt (cr_timestamp_references response) /\
     List.Forall (fun t => (0 <= t)%Q) (cr_timestamp_references response) /\
     cr_sources_used response = [] /\
     (cr_confidence response = Some 0%Q \/
      cr_confidence response = Some (3 # 10)%Q \/
      cr_confidence response = Some (8 # 10)%Q)) /\
  (truthy_str target = false ->
     exists text,
       route = Ok {| cr_response := text; cr_timestamp_references := [];
                     cr_confidence := Some 0%Q; cr_sources_used := [] |}) /\
  (forall target_id, target = Some target_id -> target_id <> ""%string ->
     let context :=
       get_context_for_query embed_texts query_embeddings uuid4 format_1f target_id
         (creq_message request) in
     let chunks := firstn 5 (ctx_transcript_chunks context) in
     let frames := firstn 3 (ctx_frames context) in
     (forall response t,
        route = Ok response -> In t (cr_timestamp_references response) ->
        (exists chunk, In chunk chunks /\ t = tc_start_time chunk) \/
        (exists frame, In frame frames /\ t = fd_timestamp frame)) /\
     (List.Forall (fun chunk => (0 <= tc_start_time chunk)%Q) chunks ->
      List.Forall (fun frame => (0 <= fd_timestamp frame)%Q) frames ->
      exists response, route = Ok response)).
Proof.
  intros route target.
  assert (Hroute : forall response, route = Ok response ->
            send_chat_message_body ensure_client collection_get embed_texts
              query_embeddings uuid4 gemini_text_model format_1f repr_list request
            = Ok response).
  { unfold route, send_chat_message. intros response.
    destruct (send_chat_message_body _ _ _ _ _ _ _ _ _); [auto|discriminate]. }
  split; [|split; [|split]].
  - unfold route, send_chat_message. intros e.
    destruct (send_chat_message_body _ _ _ _ _ _ _ _ _); [discriminate|].
    intros H. injection H as <-. reflexivity.
  - intros response H. apply Hroute in H. unfold send_chat_message_body in H.
    fold target in H. destruct (negb (truthy_str target)).
    + apply ChatResponse_init_Ok in H as (_ & Hv & Hc & Hs).
      cbn in Hv. injection Hv as <-. rewrite Hc, Hs.
      repeat split; try constructor. reflexivity.
    + apply ChatResponse_init_Ok in H as (_ & Hv & Hc & Hs).
      destruct (validated_references _ _ (chat_with_video_refs_NoDupA _ _ _ _ _ _ _) Hv)
        as (Hsorted & Hpos & _).
      rewrite Hc, Hs. repeat split; try assumption. right.
      destruct (chat_confidence_cases
                  (ctx_transcript_chunks
                     (get_context_for_query embed_texts query_embeddings uuid4 format_1f
                        (default ""%string target) (creq_message request)))
                  (ctx_frames
                     (get_context_for_query embed_texts query_embeddings uuid4 format_1f
                        (default ""%string target) (creq_message request)))) as [-> | ->];
        auto.
  - intros Ht. unfold route, send_chat_message, send_chat_message_body.
    fold target. rewrite Ht. cbn [negb]. eexists. reflexivity.
  - intros target_id Hid Hne context chunks frames.
    assert (Htruthy : negb (truthy_str target) = false).
    { rewrite Hid. cbn [truthy_str]. destruct (String.eqb_spec target_id ""); [contradiction|].
      reflexivity. }
    split.
    + intros response t H Hin. apply Hroute in H. unfold send_chat_message_body in H.
      fold target in H. rewrite Htruthy, Hid in H. cbv [default from_option id] in H.
      fold context in H.
      apply ChatResponse_init_Ok in H as (_ & Hv & _ & _).
      destruct (validated_references _ _ (chat_with_video_refs_NoDupA _ _ _ _ _ _ _) Hv)
        as (_ & _ & Hperm).
      apply (Permutation_in _ Hperm) in Hin.
      apply chat_with_video_refs_In in Hin as [(chunk & Hc & ->)|(frame & Hf & _ & ->)].
      * left. exists chunk. auto.
      * right. exists frame. auto.
    + intros Hchunks Hframes.
      unfold route, send_chat_message, send_chat_message_body.
      fold target. rewrite Htruthy, Hid. cbv [default from_option id].
      fold context. unfold ChatResponse_init.
      rewrite validate_timestamps_nonneg, chat_confidence_in_range.
      * eexists. reflexivity.
      * apply List.Forall_forall. intros t Ht.
        apply chat_with_video_refs_In in Ht as [(chunk & Hc & ->)|(frame & Hf & _ & ->)].
        -- rewrite List.Forall_forall in Hchunks. apply Hchunks, Hc.
        -- rewrite List.Forall_forall in Hframes. apply Hframes, Hf.
Qed.

(** ** The RAG query and the chat endpoint *)

Lemma source_kwargs_raises (doc : string) (metadata : gmap string pyval) (distance : Q) :
  SearchResult_init (source_kwargs doc metadata distance) = Raise (ValidationError ["id"]).
Proof. apply SearchResult_init_without_id. reflexivity. Qed.

(** The loop over the hits ends only when every hit has an empty metadata,
    and then it finds nothing. *)
Lemma query_sources_Ok format_value (hits : list (string * gmap string pyval * Q))
    (found : list (option (SearchResult * string))) :
  mapM (query_source format_value) hits = Ok found ->
  List.Forall (fun hit => snd (fst hit) = ∅) hits /\ omap (fun x => x) found = [].
Proof.
  revert found. induction hits as [|[[doc metadata] distance] hits IH]; intros found H;
    cbn [mapM] in H.
  - injection H as <-. split; [constructor|reflexivity].
  - unfold query_source at 1 in H.
    destruct (bool_decide (metadata = ∅)) eqn:E.
    + apply bool_decide_eq_true in E. cbn [bind] in H.
      destruct (mapM (query_source format_value) hits) as [found'|e]; [|discriminate].
      cbn [bind] in H. injection H as <-.
      destruct (IH found' eq_refl) as [Hall Hnone]. split.
      * constructor; [exact E|exact Hall].
      * cbn. exact Hnone.
    + rewrite source_kwargs_raises in H. discriminate.
Qed.

Lemma query_body_Ok ensure_client embed_texts collection_query _generate_response
    format_value (query_text : string) (video_id : option string) (max_results : nat)
    (r : QueryResult) :
  query_body ensure_client embed_texts collection_query _generate_response format_value
    query_text video_id max_results = Ok r ->
  r = {| qres_response :=
           ("I couldn't find relevant content in the video to answer your question: '"
            ++ query_text ++ "'")%string;
         qres_sources := []; qres_confidence := 2 # 10; qres_results_found := 0;
         qres_timestamp_references := [] |} /\
  exists embedding where_filter results,
    collection_query [embedding] max_results where_filter = Ok results /\
    List.Forall (fun hit => snd (fst hit) = ∅) (query_hits results).
Proof.
  unfold query_body.
  destruct ensure_client as [[]|e]; cbn [bind]; [|discriminate].
  destruct (embed_texts [query_text]) as [query_embeddings|e]; cbn [bind]; [|discriminate].
  destruct query_embeddings as [|[|x v] rest]; cbn [bind]; try discriminate.
  destruct (collection_query [x :: v] max_results _) as [results|e] eqn:Eq;
    cbn [bind]; [|discriminate].
  destruct (logged_length results) as [n|e]; cbn [bind]; [|discriminate].
  destruct (mapM (query_source format_value) (query_hits results)) as [found|e] eqn:Ef;
    cbn [bind]; [|discriminate].
  apply query_sources_Ok in Ef as [Hall Hnone]. rewrite Hnone. cbn [map].
  unfold QueryResult_init. cbn. intros H. injection H as <-.
  split; [reflexivity|]. eexists _, _, results. split; [exact Eq|exact Hall].
Qed.

(** The response generator is never reached: two queries that differ in
    it only end alike. *)
Lemma query_generator_irrelevant ensure_client embed_texts collection_query
    (generator other_generator : string -> string -> option string -> string)
    format_value (query_text : string) (video_id : option string) (max_results : nat) :
  query ensure_client embed_texts collection_query other_generator format_value
    query_text video_id max_results
  = query ensure_client embed_texts collection_query generator format_value
      query_text video_id max_results.
Proof.
  unfold query, query_body.
  destruct ensure_client as [[]|e0]; cbn [bind]; [|reflexivity].
  destruct (embed_texts [query_text]) as [qe|e0]; cbn [bind]; [|reflexivity].
  destruct qe as [|[|x v] rest]; cbn [bind]; try reflexivity.
  destruct (collection_query [x :: v] max_results _) as [results|e0];
    cbn [bind]; [|reflexivity].
  destruct (logged_length results) as [n|e0]; cbn [bind]; [|reflexivity].
  destruct (mapM (query_source format_value) (query_hits results)) as [found|e0] eqn:Ef;
    cbn [bind]; [|reflexivity].
  apply query_sources_Ok in Ef as [_ Hnone]. rewrite Hnone. reflexivity.
Qed.

(** X12.  [query] never hands back an answer of the model.  When it returns,
    the store gave no hit with a non-empty metadata, and the result is the
    message that no relevant content was found, without sources, with
    confidence 0.2; the response generator has no effect on the outcome.
    When it raises, the message starts with [Failed to process query: ]. *)
Theorem rag_query_outcomes (ensure_client : result unit)
    (embed_texts : list string -> result (list (list Q)))
    (collection_query :
       list (list Q) -> nat -> option where_filter -> result (option QueryResponse))
    (_generate_response : string -> string -> option string -> string)
    (format_value : pyval -> string)
    (query_text : string) (video_id : option string) (max_results : nat) :
  let outcome :=
    query ensure_client embed_texts collection_query _generate_response format_value
      query_text video_id max_results in
  (forall r, outcome = Ok r ->
     qres_response r
       = ("I couldn't find relevant content in the video to answer your question: '"
          ++ query_text ++ "'")%string /\
     qres_sources r = [] /\ (qres_confidence r == 2 # 10)%Q /\
     qres_timestamp_references r = [] /\
     exists embedding where_filter results,
       collection_query [embedding] max_results where_filter = Ok results /\
       List.Forall (fun hit => snd (fst hit) = ∅) (query_hits results)) /\
  (forall e, outcome = Raise e ->
     exists detail, e = RuntimeError ("Failed to process query: " ++ detail)) /\
  (forall other_generator,
     query ensure_client embed_texts collection_query other_generator format_value
       query_text video_id max_results = outcome).
Proof.
  intros outcome. split; [|split].
  - intros r H. unfold outcome, query in H.
    destruct (query_body _ _ _ _ _ _ _ _) as [r'|e] eqn:Eb; [|discriminate].
    injection H as <-. apply query_body_Ok in Eb as [-> Hhits].
    cbn [qres_response qres_sources qres_confidence qres_timestamp_references].
    repeat split; try reflexivity. exact Hhits.
  - intros e H. unfold outcome, query in H.
    destruct (query_body _ _ _ _ _ _ _ _) as [r'|e']; [discriminate|].
    injection H as <-. eexists. reflexivity.
  - intros other. apply query_generator_irrelevant.
Qed.

(** A response built without references and with a confidence in range. *)
Lemma ChatResponse_init_fixed (text : string) (confidence : Q) (r : ChatResponse) :
  ChatResponse_init text [] (Some confidence) [] = Ok r ->
  r = {| cr_response := text; cr_timestamp_references := [];
         cr_confidence := Some confidence; cr_sources_used := [] |}.
Proof.
  unfold ChatResponse_init. cbn [validate_timestamps existsb sorted_by fold_right].
  destruct (confidence_in_range (Some confidence)); [|discriminate].
  intros H. injection H as <-. reflexivity.
Qed.

(** The texts the endpoint can answer with. *)
Lemma before_query_response ensure_client collection_get collection_count repr_list
    (request : ChatRequest) (response : ChatResponse) :
  before_query ensure_client collection_get collection_count repr_list request
    = Ok (inl response) ->
  cr_timestamp_references response = [] /\ cr_sources_used response = [] /\
  ((cr_confidence response = Some 1%Q /\
    cr_response response
      = "I don't have any video content in my database yet. Please upload and process a video first."%string) \/
   (cr_confidence response = Some (8 # 10)%Q /\
    exists listed,
      cr_response response
        = ("Video '" ++ creq_video_id request ++ "' not found. Available videos: "
           ++ listed)%string) \/
   (cr_confidence response = Some (7 # 10)%Q /\
    exists target_video_id,
      cr_response response
        = ("Video '" ++ target_video_id
           ++ "' exists but has no transcript content. It may still be processing.")%string)).
Proof.
  unfold before_query.
  destruct (total_embeddings collection_count =? 0)%nat.
  { destruct (ChatResponse_init _ [] (Some 1%Q) []) as [r|e] eqn:E; cbn [bind];
      [|discriminate].
    intros H. injection H as <-. apply ChatResponse_init_fixed in E. subst r.
    cbn. auto. }
  destruct (nonempty (creq_video_id request)); [|discriminate].
  set (listed := repr_list _).
  assert (Hnot_found : forall r,
            (let* response0 :=
               ChatResponse_init
                 ("Video '" ++ creq_video_id request ++ "' not found. Available videos: "
                  ++ listed)%string [] (Some (8 # 10)%Q) [] in
             Ok (inl response0 : ChatResponse + option string)) = Ok (inl r) ->
            cr_timestamp_references r = [] /\ cr_sources_used r = [] /\
            cr_confidence r = Some (8 # 10)%Q /\
            cr_response r
              = ("Video '" ++ creq_video_id request ++ "' not found. Available videos: "
                 ++ listed)%string).
  { intros r. destruct (ChatResponse_init _ [] (Some (8 # 10)%Q) []) as [r0|e] eqn:E;
      cbn [bind]; [|discriminate].
    intros H. injection H as <-. apply ChatResponse_init_fixed in E. subst r0.
    cbn. auto. }
  destruct (_get_video_id_match _ _) as [target_video_id|].
  - destruct (nonempty target_video_id).
    + destruct (vs_transcript_chunks _ =? 0)%nat; [|discriminate].
      destruct (ChatResponse_init _ [] (Some (7 # 10)%Q) []) as [r|e] eqn:E;
        [|discriminate].
      intros H. injection H as <-. apply ChatResponse_init_fixed in E. subst r.
      cbn. split; [reflexivity|]. split; [reflexivity|]. right. right.
      split; [reflexivity|]. exists target_video_id. reflexivity.
    + intros H. apply Hnot_found in H as (H1 & H2 & H3 & H4).
      split; [exact H1|]. split; [exact H2|]. right. left. split; [exact H3|].
      exists listed. exact H4.
  - intros H. apply Hnot_found in H as (H1 & H2 & H3 & H4).
    split; [exact H1|]. split; [exact H2|]. right. left. split; [exact H3|].
    exists listed. exact H4.
Qed.

(** X13.  The chat endpoint fails with HTTP 500 or answers with one of five
    texts of its own, never with a text of the model: that there is no video
    content, that the video was not found, that the video has no transcript,
    that no specific content could be retrieved, or that no relevant content
    was found for the question.  Every response it returns has no timestamp
    reference and no source, and the response generator has no effect on the
    outcome. *)
Theorem chat_endpoint_outcomes (ensure_client : result unit)
    (collection_get : option where_filter -> result (option (list (gmap string pyval))))
    (collection_count : result nat)
    (embed_texts : list string -> result (list (list Q)))
    (collection_query :
       list (list Q) -> nat -> option where_filter -> result (option QueryResponse))
    (_generate_response : string -> string -> option string -> string)
    (format_value : pyval -> string) (repr_list : list pyval -> string)
    (request : ChatRequest) :
  let outcome :=
    chat_endpoint ensure_client collection_get collection_count embed_texts
      collection_query _generate_response format_value repr_list request in
  (forall e, outcome = Raise e -> e = HTTPException 500) /\
  (forall response, outcome = Ok response ->
     cr_timestamp_references response = [] /\ cr_sources_used response = [] /\
     ((cr_confidence response = Some 1%Q /\
       cr_response response
         = "I don't have any video content in my database yet. Please upload and process a video first."%string) \/
      (cr_confidence response = Some (8 # 10)%Q /\
       exists listed,
         cr_response response
           = ("Video '" ++ creq_video_id request ++ "' not found. Available videos: "
              ++ listed)%string) \/
      (cr_confidence response = Some (7 # 10)%Q /\
       exists target_video_id,
         cr_response response
           = ("Video '" ++ target_video_id
              ++ "' exists but has no transcript content. It may still be processing.")%string) \/
      (cr_confidence response = Some (3 # 10)%Q /\
       cr_response response
         = "I found the video but couldn't retrieve specific content for your question. Please try asking 'Summarize this video'."%string) \/
      (cr_confidence response = Some (2 # 10)%Q /\
       cr_response response
         = ("I couldn't find relevant content in the video to answer your question: '"
            ++ creq_message request ++ "'")%string))) /\
  (forall other_generator,
     chat_endpoint ensure_client collection_get collection_count embed_texts
       collection_query other_generator format_value repr_list request = outcome).
Proof.
  intros outcome. split; [|split].
  - intros e. unfold outcome, chat_endpoint.
    destruct (chat_endpoint_body _ _ _ _ _ _ _ _ _); [discriminate|].
    intros H. injection H as <-. reflexivity.
  - intros response. unfold outcome, chat_endpoint.
    destruct (chat_endpoint_body _ _ _ _ _ _ _ _ _) as [r|e] eqn:Eb; [|discriminate].
    intros H. injection H as <-. unfold chat_endpoint_body in Eb.
    destruct (before_query _ _ _ _ request) as [[early|video_id]|e] eqn:Eq;
      cbn [bind] in Eb; [| |discriminate].
    + injection Eb as <-. apply before_query_response in Eq as (H1 & H2 & H3).
      split; [exact H1|]. split; [exact H2|].
      destruct H3 as [H3|[H3|H3]]; auto.
    + unfold query in Eb.
      destruct (query_body _ _ _ _ _ _ _ _) as [result|e] eqn:Er; cbn [bind] in Eb;
        [|discriminate].
      apply query_body_Ok in Er as [-> _].
      cbn [qres_response qres_sources qres_confidence qres_timestamp_references map] in Eb.
      destruct (_ || _).
      * apply ChatResponse_init_fixed in Eb. subst r. cbn.
        split; [reflexivity|]. split; [reflexivity|]. right. right. right. left. auto.
      * apply ChatResponse_init_fixed in Eb. subst r. cbn.
        split; [reflexivity|]. split; [reflexivity|]. right. right. right. right. auto.
  - intros other. unfold outcome, chat_endpoint, chat_endpoint_body.
    destruct (before_query _ _ _ _ request) as [[early|video_id]|e]; cbn [bind];
      try reflexivity.
    rewrite (query_generator_irrelevant _ _ _ _generate_response other).
    reflexivity.
Qed.

(** ** Visual search and the search routes *)

(** The inner block never appends: a score above the threshold leads to
    reading [frame.video_id], which [FrameData] does not declare. *)
Lemma visual_match_nothing _parse_visual_search_response
    (generate_content : string -> string -> result string) (query : string)
    (frame : FrameData) (found : list SearchResult) :
  visual_match _parse_visual_search_response generate_content query frame = Ok found ->
  found = [].
Proof.
  unfold visual_match.
  destruct (generate_content _ _) as [text|e]; cbn [bind]; [|discriminate].
  destruct (_parse_visual_search_response text) as [score description].
  destruct (Qlt_bool (3 # 10) score).
  - cbn. discriminate.
  - intros H. injection H as <-. reflexivity.
Qed.

Lemma visual_search_frame_nothing path_exists image_open _parse_visual_search_response
    (generate_content : string -> string -> result string) (query : string)
    (frame : FrameData) (found : list SearchResult) :
  visual_search_frame path_exists image_open _parse_visual_search_response
    generate_content query frame = Ok found ->
  found = [].
Proof.
  unfold visual_search_frame.
  destruct (negb (path_exists _)); [intros H; injection H as <-; reflexivity|].
  destruct (image_open _) as [[]|e]; cbn [bind]; [|discriminate].
  destruct (visual_match _ _ _ _) as [found'|e] eqn:E.
  - apply visual_match_nothing in E. subst. intros H. injection H as <-. reflexivity.
  - intros H. injection H as <-. reflexivity.
Qed.

Lemma mapM_all_nil {A B : Type} (f : A -> result (list B)) (l : list A)
    (ys : list (list B)) :
  (forall a y, f a = Ok y -> y = []) -> mapM f l = Ok ys -> concat ys = [].
Proof.
  intros Hf. revert ys. induction l as [|a l IH]; intros ys H; simpl in H.
  - injection H as <-. reflexivity.
  - destruct (f a) as [y|e] eqn:Ea; [|discriminate]. cbn [bind] in H.
    destruct (mapM f l) as [ys'|e]; [|discriminate]. cbn [bind] in H.
    injection H as <-. cbn [concat]. rewrite (Hf a y Ea), (IH ys' eq_refl). reflexivity.
Qed.

Lemma visual_search_nil
    (gemini_vision_model : option (string -> string -> result string))
    (path_exists : string -> bool) (image_open : string -> result unit)
    (_parse_visual_search_response : string -> Q * string)
    (query : string) (frames : list FrameData) :
  visual_search gemini_vision_model path_exists image_open
    _parse_visual_search_response query frames = [].
Proof.
  unfold visual_search.
  destruct gemini_vision_model as [generate_content|]; [|reflexivity].
  destruct frames as [|frame frames]; [reflexivity|].
  destruct (mapM _ (frame :: frames)) as [found|e] eqn:E; [|reflexivity].
  apply mapM_all_nil in E; [rewrite E; reflexivity|].
  intros a y. apply visual_search_frame_nothing.
Qed.

(** X14.  [visual_search] returns the empty list for every query, every list
    of frames and every behaviour of the vision model: a frame that scores
    above the threshold is dropped by the handler of the inner block, because
    building its result reads [frame.video_id], an attribute that
    [FrameData] does not have. *)
Theorem visual_search_finds_nothing
    (gemini_vision_model : option (string -> string -> result string))
    (path_exists : string -> bool) (image_open : string -> result unit)
    (_parse_visual_search_response : string -> Q * string)
    (query : string) (frames : list FrameData) :
  visual_search gemini_vision_model path_exists image_open
    _parse_visual_search_response query frames = [] /\
  (forall generate_content frame text description score,
     generate_content (visual_search_prompt query) (fd_frame_path frame) = Ok text ->
     _parse_visual_search_response text = (score, description) ->
     (3 # 10 < score)%Q ->
     visual_match _parse_visual_search_response generate_content query frame
       = Raise (AttributeError "video_id")).
Proof.
  split.
  - apply visual_search_nil.
  - intros generate_content frame text description score Ht Hp Hs.
    unfold visual_match. rewrite Ht. cbn [bind]. rewrite Hp.
    apply Qlt_bool_iff in Hs. rewrite Hs. reflexivity.
Qed.

Lemma retrieve_relevant_content_Ok embed_texts query_embeddings uuid4
    (query video_id : string) (max_results : nat) (content_types : option (list string)) :
  exists r,
    retrieve_relevant_content embed_texts query_embeddings uuid4 query video_id
      max_results content_types = Ok r.
Proof.
  unfold retrieve_relevant_content.
  destruct (retrieve_relevant_content_body _ _ _ _ _ _ _); eexists; reflexivity.
Qed.

(** X15.  Both search routes answer every request, and with no result: the
    visual search route returns the query and the video identifier with an
    empty list and a total of 0, and the semantic search route returns the
    query with an empty list and a total of 0, whatever the vector store and
    the models answer. *)
Theorem search_routes_return_nothing
    (embed_texts : list string -> result (list (list Q)))
    (query_embeddings :
       list (list Q) -> nat -> option where_filter -> result (option QueryResponse))
    (uuid4 : nat -> string)
    (gemini_vision_model : option (string -> string -> result string))
    (path_exists : string -> bool) (image_open : string -> result unit)
    (_parse_visual_search_response : string -> Q * string) :
  (forall request,
     visual_search_route embed_texts query_embeddings uuid4 gemini_vision_model
       path_exists image_open _parse_visual_search_response request
     = Ok {| vres_query := vreq_query request; vres_results := [];
             vres_total_results := 0; vres_video_id := vreq_video_id request |}) /\
  (forall query video_ids content_type max_results,
     semantic_search embed_texts query_embeddings query video_ids content_type
       max_results
     = Ok {| sem_query := query; sem_results := []; sem_total_results := 0 |}).
Proof.
  split.
  - intros request. unfold visual_search_route, visual_search_route_body.
    destruct (retrieve_relevant_content_Ok embed_texts query_embeddings uuid4
                (vreq_query request) (vreq_video_id request)
                (vreq_max_results request * 2) (Some ["visual"])) as [r ->].
    cbn [bind].
    rewrite visual_search_nil.
    destruct (vreq_time_range request) as [time_range|]; cbn [bind].
    + destruct (bool_decide (time_range = ∅)); cbn [mapM bind concat];
        rewrite firstn_nil; reflexivity.
    + rewrite firstn_nil. reflexivity.
  - intros query video_ids content_type max_results.
    unfold semantic_search, semantic_search_body.
    rewrite search_similar_content_empty. reflexivity.
Qed.

(** ** The pipeline as written and the collection *)

Section PipelineCollection.

Variable path_exists : string -> bool.
Variable analyze_image : string -> string.
Variable extract_frames : string -> string -> list FrameData.
Variable extract_video_frames : string -> string -> list FrameData.
Variable YOUTUBE_TRANSCRIPT_AVAILABLE : bool.
Variable _get_best_transcript : string -> list CaptionEntry.
Variable gemini_embedding_model : option string.
Variable embed_content : string -> result (list Q).
Variable add_embeddings_error : list StoreRecord -> option exn.
Variable video_id : string.
Variable metadata : VideoMetadata.
Variable c0 : list StoreRecord.

(** Writing the tracker leaves the collection as it is. *)
Lemma set_status_collection (entry : StatusEntry) :
  hoare (fun s => collection s = c0) (set_status video_id entry)
        (fun _ s => collection s = c0) (fun s => collection s = c0).
Proof. intros s Hs. exact Hs. Qed.

Lemma update_status_collection (change : StatusEntry -> StatusEntry) :
  hoare (fun s => collection s = c0) (update_status video_id change)
        (fun _ s => collection s = c0) (fun s => collection s = c0).
Proof.
  intros s Hs. unfold update_status. destruct (tracker s !! video_id); exact Hs.
Qed.

Lemma analyze_frames_loop_collection (total_frames : nat) (frames : list FrameData) :
  forall processed_frames,
    hoare (fun s => collection s = c0)
          (analyze_frames_loop analyze_image video_id total_frames processed_frames frames)
          (fun _ s => collection s = c0) (fun s => collection s = c0).
Proof.
  induction frames as [|frame rest IH]; intros processed; cbn [analyze_frames_loop].
  - apply hoare_ret. auto.
  - apply (hoare_and_then _ _ _ (fun _ s => collection s = c0)).
    + destruct (nonempty (analyze_image (fd_frame_path frame))).
      * apply hoare_ret. auto.
      * intros s Hs.
        assert (Hu := update_status_collection
                        (with_progress_only (frame_progress (S processed) total_frames))
                        s Hs).
        destruct (update_status video_id _ s) as [[u|e] s']; exact Hu.
    + intros processed'.
      apply (hoare_and_then _ _ _ (fun _ s => collection s = c0)); [apply IH|].
      intros rest'. apply hoare_ret. auto.
Qed.

Lemma fallback_collection :
  hoare (fun s => collection s = c0)
        (pseudo_transcript_fallback path_exists analyze_image extract_video_frames
           video_id metadata)
        (fun _ s => collection s = c0) (fun s => collection s = c0).
Proof.
  unfold pseudo_transcript_fallback.
  destruct (has_video_file path_exists metadata); [|apply hoare_ret; auto].
  eapply hoare_and_then; [apply update_status_collection|]. intros ?.
  destruct (extract_video_frames _ video_id); [apply hoare_ret; auto|].
  eapply hoare_and_then; [apply update_status_collection|]. intros ?.
  destruct (analyze_video_frames _ _ _); apply hoare_ret; auto.
Qed.

(** The body of the pipeline as written raises, and before the index is
    touched. *)
Lemma pipeline_body_as_written :
  hoare (fun s => collection s = c0)
        (process_video_pipeline_body path_exists analyze_image extract_frames
           extract_video_frames YOUTUBE_TRANSCRIPT_AVAILABLE _get_best_transcript
           gemini_embedding_model embed_content add_embeddings_error
           chapters_call_as_written video_id metadata)
        (fun _ _ => False) (fun s => collection s = c0).
Proof.
  unfold process_video_pipeline_body.
  eapply hoare_and_then; [apply set_status_collection|]. intros ?.
  apply (hoare_and_then _ _ _ (fun _ s => collection s = c0)).
  { destruct (is_transcript_only (vm_status metadata)).
    - eapply hoare_and_then; [apply update_status_collection|]. intros ?.
      apply hoare_ret. auto.
    - destruct (has_video_file path_exists metadata); [|apply hoare_ret; auto].
      eapply hoare_and_then; [apply update_status_collection|]. intros ?.
      apply analyze_frames_loop_collection. }
  intros frames.
  eapply hoare_and_then; [apply update_status_collection|]. intros ?.
  eapply hoare_and_then; [apply update_status_collection|]. intros ?.
  apply (hoare_and_then _ _ _ (fun _ s => collection s = c0)).
  { destruct (match vm_source_url metadata with Some _ => _ | None => _ end).
    - destruct (negb (is_transcript_only (vm_status metadata)));
        [apply fallback_collection|apply hoare_ret; auto].
    - apply hoare_ret. auto. }
  intros content.
  eapply hoare_and_then; [apply update_status_collection|]. intros ?.
  apply (hoare_and_then _ _ _ (fun _ _ => False)).
  { intros s Hs. unfold lift, chapters_call_as_written.
    destruct (_ && _); exact Hs. }
  intros ? s [].
Qed.

End PipelineCollection.

(** X16.  With the chapter synthesis call as the pipeline writes it, a run
    of [process_video_pipeline] never reaches the index: the collection is
    left as it was, whatever the frames, the captions and the models give,
    and the tracker ends with the entry [failed] at progress 0, which is
    what the status endpoint then returns for the video. *)
Theorem pipeline_as_written_indexes_nothing (path_exists : string -> bool)
    (analyze_image : string -> string)
    (extract_frames extract_video_frames : string -> string -> list FrameData)
    (available : bool) (provider : string -> list CaptionEntry)
    (gemini_embedding_model : option string) (embed_content : string -> result (list Q))
    (add_embeddings_error : list StoreRecord -> option exn)
    (storage : string -> option (result (gmap string pyval)))
    (video_id : string) (metadata : VideoMetadata) (s0 : PipelineState) :
  let s :=
    process_video_pipeline path_exists analyze_image extract_frames
      extract_video_frames available provider gemini_embedding_model
      embed_content add_embeddings_error chapters_call_as_written
      video_id metadata s0 in
  collection s = collection s0 /\
  exists e,
    tracker s !! video_id
      = Some {| se_status := "failed"; se_progress := 0;
                se_message := Some ("Processing failed: " ++ exn_str e)%string;
                se_note := None |} /\
    get_processing_status storage (tracker s) video_id
      = (Ok {| ps_video_id := video_id; ps_status := "failed"; ps_progress := 0;
               ps_message := Some ("Processing failed: " ++ exn_str e)%string;
               ps_note := None |},
         tracker s).
Proof.
  intros s. unfold s, process_video_pipeline.
  assert (Hbody := pipeline_body_as_written path_exists analyze_image extract_frames
                     extract_video_frames available provider gemini_embedding_model
                     embed_content add_embeddings_error video_id metadata
                     (collection s0) s0 eq_refl).
  destruct (process_video_pipeline_body _ _ _ _ _ _ _ _ _ _ _ _ s0) as [[u|e] s1];
    [destruct Hbody|].
  unfold set_status. cbn [snd collection tracker]. split; [exact Hbody|].
  exists e. split; [apply lookup_insert_eq|].
  unfold get_processing_status. rewrite lookup_insert_eq. reflexivity.
Qed.

(** ** The video library routes *)

Lemma insert_by_id_perm (v : VideoListing) (l : list VideoListing) :
  Permutation (insert_by_id v l) (v :: l).
Proof.
  induction l as [|w l IH]; simpl; [apply Permutation_refl|].
  destruct (String.leb (vl_id v) (vl_id w)); [apply Permutation_refl|].
  eapply Permutation_trans; [apply perm_skip, IH|apply perm_swap].
Qed.

Lemma sort_by_id_perm (l : list VideoListing) : Permutation (sort_by_id l) l.
Proof.
  induction l as [|v l IH]; simpl; [apply Permutation_refl|].
  eapply Permutation_trans; [apply insert_by_id_perm|apply perm_skip, IH].
Qed.

Lemma insert_by_id_sorted (v : VideoListing) (l : list VideoListing) :
  Sorted (fun a b => String.leb (vl_id a) (vl_id b) = true) l ->
  Sorted (fun a b => String.leb (vl_id a) (vl_id b) = true) (insert_by_id v l).
Proof.
  induction 1 as [|w l Hs IH Hhd]; simpl.
  - repeat constructor.
  - destruct (String.leb (vl_id v) (vl_id w)) eqn:E.
    + constructor; [constructor; assumption|constructor; exact E].
    + constructor; [exact IH|].
      assert (Hwv : String.leb (vl_id w) (vl_id v) = true).
      { destruct (String.leb_total (vl_id v) (vl_id w)); congruence. }
      destruct Hhd as [|x l' Hwx]; simpl.
      * constructor. exact Hwv.
      * destruct (String.leb (vl_id v) (vl_id x)); constructor; assumption.
Qed.

Lemma sort_by_id_sorted (l : list VideoListing) :
  Sorted (fun a b => String.leb (vl_id a) (vl_id b) = true) (sort_by_id l).
Proof.
  induction l as [|v l IH]; simpl; [constructor|apply insert_by_id_sorted, IH].
Qed.

(** A turn of the loop reads and writes the tracker at its own identifier
    only. *)
Lemma list_entry_other format_value (t : gmap string StatusEntry) (k k' : string)
    (e : StorageEntry) :
  k' <> k -> snd (list_entry format_value t k e) !! k' = t !! k'.
Proof.
  intros Hne. unfold list_entry. destruct e as [|m]; [reflexivity|].
  destruct (t !! k); [reflexivity|].
  destruct m as [[d|x]|]; try reflexivity.
  cbn [snd]. apply lookup_insert_ne. congruence.
Qed.

Lemma list_entry_local format_value (t t' : gmap string StatusEntry) (k : string)
    (e : StorageEntry) :
  t !! k = t' !! k ->
  fst (list_entry format_value t k e) = fst (list_entry format_value t' k e) /\
  snd (list_entry format_value t k e) !! k = snd (list_entry format_value t' k e) !! k.
Proof.
  intros H. unfold list_entry. destruct e as [|m]; [auto|].
  rewrite <- H. destruct (t !! k) eqn:E.
  - cbn [fst snd]. rewrite E, <- H. auto.
  - destruct m as [[d|x]|]; cbn [fst snd].
    + rewrite !lookup_insert_eq. auto.
    + rewrite E, <- H. auto.
    + rewrite E, <- H. auto.
Qed.

Lemma list_entry_ids format_value (t : gmap string StatusEntry) (k : string)
    (e : StorageEntry) :
  map vl_id (fst (list_entry format_value t k e))
  = match e with StoredFile => [] | StoredDir _ => [k] end.
Proof.
  unfold list_entry. destruct e as [|m]; [reflexivity|].
  destruct (t !! k); [reflexivity|].
  destruct m as [[d|x]|]; reflexivity.
Qed.

(** The loop over entries of distinct names: each entry is treated as if
    it were the only one. *)
Lemma list_entries_spec format_value (entries : list (string * StorageEntry)) :
  List.NoDup (map fst entries) ->
  forall t : gmap string StatusEntry,
    (forall k, ~ In k (map fst entries) ->
       snd (list_entries format_value entries t) !! k = t !! k) /\
    (forall k e, In (k, e) entries ->
       snd (list_entries format_value entries t) !! k
         = snd (list_entry format_value t k e) !! k) /\
    (forall v, In v (fst (list_entries format_value entries t)) <->
       exists k e, In (k, e) entries /\ In v (fst (list_entry format_value t k e))) /\
    map vl_id (fst (list_entries format_value entries t))
      = flat_map (fun p => match snd p with StoredFile => [] | StoredDir _ => [fst p] end)
          entries.
Proof.
  induction entries as [|[k0 e0] rest IH]; intros Hnd t.
  - cbn. repeat split; try tauto.
    intros (k & e & [] & _).
  - apply List.NoDup_cons_iff in Hnd as [Hk0 Hnd]. cbn [map fst] in Hk0.
    specialize (IH Hnd (snd (list_entry format_value t k0 e0))).
    destruct IH as (IHa & IHb & IHc & IHd).
    cbn [list_entries fst snd]. split; [|split; [|split]].
    + intros k Hk. cbn [map fst] in Hk.
      rewrite IHa by (intros H; apply Hk; right; exact H).
      apply list_entry_other. intros ->. apply Hk. left. reflexivity.
    + intros k e [Heq|Hin].
      * injection Heq as <- <-. apply IHa. exact Hk0.
      * assert (Hne : k <> k0).
        { intros ->. apply Hk0. apply in_map_iff. exists (k0, e). auto. }
        rewrite (IHb k e Hin).
        apply list_entry_local. apply list_entry_other. exact Hne.
    + intros v. rewrite in_app_iff, IHc. split.
      * intros [Hv|(k & e & Hin & Hv)].
        -- exists k0, e0. split; [left; reflexivity|exact Hv].
        -- assert (Hne : k <> k0).
           { intros ->. apply Hk0. apply in_map_iff. exists (k0, e). auto. }
           exists k, e. split; [right; exact Hin|].
           destruct (list_entry_local format_value
                       (snd (list_entry format_value t k0 e0)) t k e
                       (list_entry_other format_value t k0 k e0 Hne)) as [<- _].
           exact Hv.
      * intros (k & e & [Heq|Hin] & Hv).
        -- injection Heq as <- <-. left. exact Hv.
        -- assert (Hne : k <> k0).
           { intros ->. apply Hk0. apply in_map_iff. exists (k0, e). auto. }
           right. exists k, e. split; [exact Hin|].
           destruct (list_entry_local format_value
                       (snd (list_entry format_value t k0 e0)) t k e
                       (list_entry_other format_value t k0 k e0 Hne)) as [-> _].
           exact Hv.
    + rewrite map_app, IHd, list_entry_ids. cbn [flat_map fst snd]. reflexivity.
Qed.

Lemma library_entries_NoDup (library : gmap string StorageEntry) :
  List.NoDup (map fst (map_to_list library)).
Proof. apply NoDup_ListNoDup, NoDup_fst_map_to_list. Qed.

Lemma library_entries_In (library : gmap string StorageEntry) (k : string)
    (e : StorageEntry) :
  In (k, e) (map_to_list library) <-> library !! k = Some e.
Proof. rewrite <- list_elem_of_In. apply elem_of_map_to_list. Qed.

(** The identifiers [list_videos] lists are the directories of the storage
    directory. *)
Lemma list_videos_ids format_value (srv : Server) (name : string) :
  In name (map vl_id (fst (list_videos format_value srv))) <->
  exists metadata, srv_library srv !! name = Some (StoredDir metadata).
Proof.
  unfold list_videos. cbn [fst].
  assert (Hperm : Permutation
            (map vl_id (sort_by_id (fst (list_entries format_value
                                           (map_to_list (srv_library srv))
                                           (srv_tracker srv)))))
            (map vl_id (fst (list_entries format_value (map_to_list (srv_library srv))
                               (srv_tracker srv)))))
    by apply Permutation_map, sort_by_id_perm.
  destruct (list_entries_spec format_value (map_to_list (srv_library srv))
              (library_entries_NoDup (srv_library srv)) (srv_tracker srv))
    as (_ & _ & _ & Hids).
  rewrite Hids in Hperm. split.
  - intros Hin. apply (Permutation_in _ Hperm) in Hin.
    apply in_flat_map in Hin as ([k e] & Hke & Hin). cbn [fst snd] in Hin.
    destruct e as [|metadata]; [destruct Hin|]. destruct Hin as [<-|[]].
    exists metadata. apply library_entries_In, Hke.
  - intros [metadata Hm]. apply (Permutation_in _ (Permutation_sym Hperm)).
    apply in_flat_map. exists (name, StoredDir metadata).
    split; [apply library_entries_In, Hm|left; reflexivity].
Qed.

(** X17.  [list_videos] lists each directory of the storage directory once,
    in ascending order of identifier, and nothing else; it leaves the
    storage and the tracker entries that exist as they are.  What it lists
    agrees with the tracker it leaves: a listed video has a tracker entry
    with the status and the progress listed, or it is listed as [unknown]
    at progress 0, has no tracker entry, and the status route answers 404
    for it. *)
Theorem list_videos_spec (format_value : pyval -> string) (srv : Server) :
  let r := list_videos format_value srv in
  srv_library (snd r) = srv_library srv /\
  Sorted (fun a b => String.leb (vl_id a) (vl_id b) = true) (fst r) /\
  List.NoDup (map vl_id (fst r)) /\
  (forall name, In name (map vl_id (fst r)) <->
     exists metadata, srv_library srv !! name = Some (StoredDir metadata)) /\
  (forall name entry, srv_tracker srv !! name = Some entry ->
     srv_tracker (snd r) !! name = Some entry) /\
  (forall v, In v (fst r) ->
     (exists entry,
        srv_tracker (snd r) !! vl_id v = Some entry /\
        se_status entry = vl_status v /\ se_progress entry = vl_progress v) \/
     (srv_tracker (snd r) !! vl_id v = None /\ v = unknown_listing (vl_id v) /\
      fst (status_route (vl_id v) (snd r)) = Raise (HTTPException 404))).
Proof.
  intros r.
  destruct (list_entries_spec format_value (map_to_list (srv_library srv))
              (library_entries_NoDup (srv_library srv)) (srv_tracker srv))
    as (Ha & Hb & Hc & Hids).
  split; [reflexivity|]. split; [apply sort_by_id_sorted|].
  split; [|split; [apply list_videos_ids|split]].
  - unfold r, list_videos. cbn [fst].
    apply (Permutation_NoDup
             (Permutation_sym (Permutation_map vl_id (sort_by_id_perm _)))).
    rewrite Hids. clear. 
    assert (Hnd := library_entries_NoDup (srv_library srv)).
    induction (map_to_list (srv_library srv)) as [|[k e] l IH]; [constructor|].
    cbn [map fst] in Hnd. apply List.NoDup_cons_iff in Hnd as [Hk Hnd].
    cbn [flat_map fst snd]. destruct e as [|m]; cbn [app]; [apply IH, Hnd|].
    apply List.NoDup_cons; [|apply IH, Hnd].
    intros Hin. apply Hk. apply in_flat_map in Hin as ([k' e'] & Hke & Hin).
    cbn [fst snd] in Hin. destruct e' as [|m']; [destruct Hin|].
    destruct Hin as [->|[]].
    apply in_map_iff. exists (k, StoredDir m'). auto.
  - intros name entry Hentry. unfold r, list_videos. cbn [snd srv_tracker].
    destruct (srv_library srv !! name) as [e|] eqn:El.
    + rewrite (Hb name e) by (apply library_entries_In, El).
      unfold list_entry. destruct e as [|m]; [exact Hentry|].
      rewrite Hentry. exact Hentry.
    + rewrite Ha; [exact Hentry|].
      intros Hin. apply in_map_iff in Hin as ([k e] & <- & Hin).
      apply library_entries_In in Hin. cbn [fst] in El. congruence.
  - intros v Hv. unfold r, list_videos in Hv. cbn [fst] in Hv.
    apply (Permutation_in _ (sort_by_id_perm _)) in Hv.
    apply Hc in Hv as (k & e & Hke & Hv).
    assert (Ht := Hb k e Hke). apply library_entries_In in Hke.
    unfold r, list_videos. cbn [snd srv_tracker].
    unfold list_entry in Hv, Ht. destruct e as [|m]; [destruct Hv|].
    destruct (srv_tracker srv !! k) as [status|] eqn:Ek.
    + destruct Hv as [<-|[]]. cbn [vl_id vl_status vl_progress].
      left. exists status. cbn [snd] in Ht. rewrite Ht, Ek. auto.
    + destruct m as [[d|x]|]; cbn [fst snd] in Hv, Ht; destruct Hv as [<-|[]];
        cbn [vl_id vl_status vl_progress unknown_listing].
      * left. eexists. rewrite Ht, lookup_insert_eq. split; [reflexivity|].
        split; reflexivity.
      * right. rewrite Ht, Ek. split; [reflexivity|]. split; [reflexivity|].
        unfold status_route, get_processing_status. cbn [fst srv_tracker srv_library].
        rewrite Ht, Ek. unfold storage_of. rewrite Hke. reflexivity.
      * right. rewrite Ht, Ek. split; [reflexivity|]. split; [reflexivity|].
        unfold status_route, get_processing_status. cbn [fst srv_tracker srv_library].
        rewrite Ht, Ek. unfold storage_of. rewrite Hke. reflexivity.
Qed.


(** ** What the indexer can add *)

Lemma transcript_record_fields (video_id : string) (i : nat)
    (p : TranscriptChunk * list Q) :
  rec_id (transcript_record video_id i p)
    = (video_id ++ "_transcript_" ++ str_of_nat i)%string /\
  rec_metadata (transcript_record video_id i p) !! "content_type"
    = Some (PStr "transcript") /\
  rec_metadata (transcript_record video_id i p) !! "video_id" = Some (PStr video_id).
Proof.
  destruct p as [chunk embedding]. cbn [transcript_record rec_id rec_metadata].
  split; [reflexivity|]. split.
  - rewrite lookup_insert_ne by discriminate. apply lookup_insert_eq.
  - apply lookup_insert_eq.
Qed.

Lemma map_enum_In {A B : Type} (f : nat -> A -> B) (l : list A) (i : nat) (y : B) :
  In y (map_enum f i l) -> exists j a, In a l /\ y = f j a.
Proof.
  revert i. induction l as [|x l IH]; intros i H; [destruct H|].
  destruct H as [<-|H].
  - exists i, x. auto using in_eq.
  - destruct (IH (S i) H) as (j & a & Ha & ->). exists j, a. auto using in_cons.
Qed.

Lemma transcript_records_ids (video_id : string) (l : list (TranscriptChunk * list Q)) :
  forall k,
    map rec_id (map_enum (transcript_record video_id) k l)
    = map (fun i => (video_id ++ "_transcript_" ++ str_of_nat i)%string)
          (seq k (length l)).
Proof.
  induction l as [|p l IH]; intros k; [reflexivity|].
  cbn [map_enum map length seq]. rewrite IH.
  destruct (transcript_record_fields video_id k p) as [-> _]. reflexivity.
Qed.

Lemma transcript_records_NoDup (video_id : string) (l : list (TranscriptChunk * list Q))
    (k : nat) :
  List.NoDup (map rec_id (map_enum (transcript_record video_id) k l)).
Proof.
  rewrite transcript_records_ids. apply Finite.Injective_map_NoDup.
  - intros i j H. apply str_app_inv_head in H.
    apply (str_app_inv_head "_transcript_") in H. apply str_of_nat_inj, H.
  - apply seq_NoDup.
Qed.

(** The first described frame stops the loop over the frames. *)
Lemma frame_records_raise (video_id : string) (frame : FrameData) (embedding : list Q)
    (rest : list (FrameData * list Q)) (k : nat) :
  mapM_enum (frame_record video_id) k ((frame, embedding) :: rest)
  = Raise (AttributeError "thumbnail_path").
Proof. reflexivity. Qed.

(** X19.  With the embeddings of [ai_service], [index_video_content] never
    adds a record of a frame: as soon as one frame carries a description the
    call returns false and the collection is left as it was, the transcript
    chunks of the same call included.  Whatever it adds is a batch of
    transcript records of the video with pairwise distinct identifiers, and
    it returns true only when it added a batch that is not empty. *)
Theorem index_video_content_no_visual (gemini_embedding_model : option string)
    (embed_content : string -> result (list Q))
    (add_embeddings_error : list StoreRecord -> option exn)
    (collection : list StoreRecord) (video_id : string)
    (transcript_chunks : list TranscriptChunk) (frames : list FrameData) :
  let r :=
    index_video_content
      (fun texts => Ok (generate_text_embeddings gemini_embedding_model embed_content texts))
      add_embeddings_error collection video_id transcript_chunks frames in
  (List.Exists (fun frame => truthy_str (fd_scene_description frame) = true) frames ->
   r = (false, collection)) /\
  exists batch,
    snd r = collection ++ batch /\
    List.NoDup (map rec_id batch) /\
    List.Forall (fun record =>
       rec_metadata record !! "content_type" = Some (PStr "transcript") /\
       rec_metadata record !! "video_id" = Some (PStr video_id)) batch /\
    (fst r = true <-> batch <> []).
Proof.
  intros r.
  assert (Hnone : r = (false, collection) ->
            exists batch,
              snd r = collection ++ batch /\ List.NoDup (map rec_id batch) /\
              List.Forall (fun record =>
                 rec_metadata record !! "content_type" = Some (PStr "transcript") /\
                 rec_metadata record !! "video_id" = Some (PStr video_id)) batch /\
              (fst r = true <-> batch <> [])).
  { intros ->. exists []. cbn [fst snd]. rewrite app_nil_r.
    split; [reflexivity|]. split; [constructor|]. split; [constructor|].
    split; [discriminate|intros H; contradiction]. }
  destruct (List.filter (fun frame => truthy_str (fd_scene_description frame)) frames)
    as [|frame described] eqn:Ef.
  - split.
    { intros Hex. apply List.Exists_exists in Hex as (frame & Hin & Hd).
      assert (Hf : In frame (List.filter (fun frame => truthy_str (fd_scene_description frame))
                               frames)) by (apply List.filter_In; auto).
      rewrite Ef in Hf. destruct Hf. }
    assert (Hcases : r = (false, collection) \/
              exists l, map_enum (transcript_record video_id) 0 l <> [] /\
                r = (true, collection ++ map_enum (transcript_record video_id) 0 l)).
    { unfold r, index_video_content, index_video_content_body. rewrite Ef.
      cbn [map bind app].
      destruct (map tc_text transcript_chunks) as [|text texts] eqn:Et; cbn [bind];
        [left; reflexivity|].
      rewrite app_nil_r.
      set (l := combine transcript_chunks _).
      destruct (map_enum (transcript_record video_id) 0 l) as [|record batch'] eqn:Eb;
        [left; reflexivity|].
      unfold add_embeddings.
      destruct (add_embeddings_error (record :: batch')); cbn [bind]; [left; reflexivity|].
      right. exists l. rewrite Eb. split; [discriminate|reflexivity]. }
    destruct Hcases as [Hr|(l & Hne & Hr)]; [apply Hnone, Hr|].
    exists (map_enum (transcript_record video_id) 0 l). rewrite Hr. cbn [fst snd].
    split; [reflexivity|]. split; [apply transcript_records_NoDup|]. split.
    + apply List.Forall_forall. intros x Hx.
      apply map_enum_In in Hx as (j & p & _ & ->).
      apply (transcript_record_fields video_id j p).
    + split; [intros _; exact Hne|reflexivity].
  - assert (Hr : r = (false, collection)).
    { unfold r, index_video_content, index_video_content_body. rewrite Ef.
      assert (Hd : truthy_str (fd_scene_description frame) = true).
      { assert (Hin : In frame (frame :: described)) by apply in_eq.
        rewrite <- Ef in Hin. apply List.filter_In in Hin. tauto. }
      destruct (match map tc_text transcript_chunks with
                | [] => Ok []
                | _ => _
                end) as [transcript_records|e] eqn:Et; cbn [bind]; [|reflexivity].
      cbn [map].
      set (texts := default ""%string (fd_scene_description frame) :: _).
      assert (Hlen := generate_text_embeddings_length gemini_embedding_model embed_content
                        texts).
      destruct (generate_text_embeddings gemini_embedding_model embed_content texts)
        as [|embedding embeddings]; [discriminate Hlen|].
      cbn [bind combine]. rewrite frame_records_raise. reflexivity. }
    split; [intros _; exact Hr|apply Hnone, Hr].
Qed.

(** ** The video summary *)

Lemma summary_transcript_part_firstn (transcript_chunks : list TranscriptChunk) :
  summary_transcript_part (firstn 10 transcript_chunks)
  = summary_transcript_part transcript_chunks.
Proof.
  unfold summary_transcript_part. rewrite firstn_firstn. cbn [Nat.min].
  destruct transcript_chunks; reflexivity.
Qed.

Lemma summary_visual_part_firstn (frames : list FrameData) :
  summary_visual_part (firstn 5 frames) = summary_visual_part frames.
Proof.
  unfold summary_visual_part, summary_descriptions. rewrite firstn_firstn.
  reflexivity.
Qed.

(** X20.  [generate_video_summary] always returns a text.  Only the first
    ten transcript chunks and the first five frames count.  Without a text
    model it says that summaries are not available; with a model but
    without chunks and without a described frame among the first five it
    says that there is no content, and the model is not asked; when the
    model raises, the text names the failure. *)
Theorem generate_video_summary_spec
    (gemini_text_model : option (string -> result (option string)))
    (transcript_chunks : list TranscriptChunk) (frames : list FrameData) :
  let summary := generate_video_summary gemini_text_model transcript_chunks frames in
  summary = generate_video_summary gemini_text_model (firstn 10 transcript_chunks)
              (firstn 5 frames) /\
  (gemini_text_model = None ->
   summary = "Summary generation not available. Please configure Gemini API key."%string) /\
  (forall generate_content,
     gemini_text_model = Some generate_content ->
     transcript_chunks = [] ->
     List.Forall (fun frame => truthy_str (fd_scene_description frame) = false)
       (firstn 5 frames) ->
     summary = "No content available for summary generation."%string) /\
  (forall generate_content e,
     gemini_text_model = Some generate_content ->
     generate_content
       (summary_prompt (summary_transcript_part transcript_chunks
                        ++ summary_visual_part frames)) = Raise e ->
     (summary_transcript_part transcript_chunks ++ summary_visual_part frames <> []) ->
     summary = ("Summary generation failed: " ++ exn_str e)%string).
Proof.
  intros summary. unfold summary, generate_video_summary.
  split; [|split; [|split]].
  - rewrite summary_transcript_part_firstn, summary_visual_part_firstn. reflexivity.
  - intros ->. reflexivity.
  - intros generate_content -> -> Hall.
    assert (Hd : summary_descriptions frames = []).
    { unfold summary_descriptions. induction Hall as [|f l Hf Hl IH]; [reflexivity|].
      cbn [flat_map]. rewrite Hf, IH. reflexivity. }
    unfold summary_visual_part. rewrite Hd. reflexivity.
  - intros generate_content e -> He Hne.
    destruct (summary_transcript_part transcript_chunks ++ summary_visual_part frames)
      as [|part parts]; [contradiction|].
    rewrite He. reflexivity.
Qed.

(** ** Quota strategies *)

Lemma Qlt_bool_false (x y : Q) : Qlt_bool x y = false -> (y <= x)%Q.
Proof.
  unfold Qlt_bool. intros H. apply Qle_bool_iff.
  destruct (Qle_bool y x); [reflexivity|discriminate].
Qed.

(** X21.  Both strategy selectors are monotone in the usage: a higher
    usage never gives more frames per batch nor a shorter delay between
    batches, a strategy that skips the visual analysis is kept at every
    higher usage, and every strategy processes at least one frame per
    batch. *)
Theorem processing_strategies_monotone (low high : Q) :
  (low <= high)%Q ->
  (st_frames_per_batch (get_processing_strategy high)
   <= st_frames_per_batch (get_processing_strategy low))%nat /\
  (st_delay_between_batches (get_processing_strategy low)
   <= st_delay_between_batches (get_processing_strategy high))%nat /\
  (st_skip_visual_analysis (get_processing_strategy low) = Some true ->
   st_skip_visual_analysis (get_processing_strategy high) = Some true) /\
  (1 <= st_frames_per_batch (get_processing_strategy high))%nat /\
  (st_frames_per_batch (get_daily_processing_strategy high)
   <= st_frames_per_batch (get_daily_processing_strategy low))%nat /\
  (st_delay_between_batches (get_daily_processing_strategy low)
   <= st_delay_between_batches (get_daily_processing_strategy high))%nat /\
  (st_skip_visual_analysis (get_daily_processing_strategy low) = Some true ->
   st_skip_visual_analysis (get_daily_processing_strategy high) = Some true) /\
  (1 <= st_frames_per_batch (get_daily_processing_strategy high))%nat.
Proof.
  intros Hle. unfold get_processing_strategy, get_daily_processing_strategy.
  destruct (Qlt_bool 90 low) eqn:L90; destruct (Qlt_bool 70 low) eqn:L70;
    destruct (Qlt_bool 90 high) eqn:H90; destruct (Qlt_bool 70 high) eqn:H70;
    destruct (Qlt_bool low 50) eqn:L50; destruct (Qlt_bool low 80) eqn:L80;
    destruct (Qlt_bool high 50) eqn:H50; destruct (Qlt_bool high 80) eqn:H80;
    repeat match goal with
           | H : Qlt_bool _ _ = true |- _ => apply Qlt_bool_iff in H
           | H : Qlt_bool _ _ = false |- _ => apply Qlt_bool_false in H
           end;
    try (exfalso; lra);
    cbn; repeat split; try lia; try discriminate; auto.
Qed.

Lemma processing_strategies_monotone_witness :
  (50 <= 95)%Q /\
  (st_frames_per_batch (get_processing_strategy 95)
   <= st_frames_per_batch (get_processing_strategy 50))%nat /\
  (st_delay_between_batches (get_processing_strategy 50)
   <= st_delay_between_batches (get_processing_strategy 95))%nat /\
  (st_skip_visual_analysis (get_processing_strategy 50) = Some true ->
   st_skip_visual_analysis (get_processing_strategy 95) = Some true) /\
  (1 <= st_frames_per_batch (get_processing_strategy 95))%nat /\
  (st_frames_per_batch (get_daily_processing_strategy 95)
   <= st_frames_per_batch (get_daily_processing_strategy 50))%nat /\
  (st_delay_between_batches (get_daily_processing_strategy 50)
   <= st_delay_between_batches (get_daily_processing_strategy 95))%nat /\
  (st_skip_visual_analysis (get_daily_processing_strategy 50) = Some true ->
   st_skip_visual_analysis (get_daily_processing_strategy 95) = Some true) /\
  (1 <= st_frames_per_batch (get_daily_processing_strategy 95))%nat.
Proof.
  assert (H : (50 <= 95)%Q) by (vm_compute; discriminate).
  split; [exact H|]. exact (processing_strategies_monotone 50 95 H).
Defined.

(** ** Registration of a YouTube video *)

Lemma take_id_chars_length (n : nat) (s id : string) :
  take_id_chars n s = Some id -> String.length id = n.
Proof.
  revert s id. induction n as [|n IH]; intros s id H; simpl in H.
  - injection H as <-. reflexivity.
  - destruct s as [|c s]; [discriminate|].
    destruct (is_id_char c); [|discriminate].
    destruct (take_id_chars n s) as [id'|] eqn:E; [|discriminate].
    injection H as <-. simpl. f_equal. apply (IH s id' E).
Qed.

(** The identifier found in a URL has eleven characters. *)
Lemma search_video_id_length (url id : string) :
  search_video_id url = Some id -> String.length id = 11%nat.
Proof.
  induction url as [|c rest IH]; intros H; [discriminate|].
  cbn [search_video_id] in H.
  destruct (if Ascii.eqb c "/" then take_id_chars 11 rest
            else if Ascii.eqb c "v"
                 then match rest with
                      | String "=" rest' => take_id_chars 11 rest'
                      | _ => None
                      end
                 else None) as [found|] eqn:E; [|apply IH, H].
  injection H as <-.
  destruct (Ascii.eqb c "/"); [apply (take_id_chars_length _ _ _ E)|].
  destruct (Ascii.eqb c "v"); [|discriminate].
  destruct rest as [|d rest']; [discriminate|].
  destruct (Ascii.eqb_spec d "="); [subst d; apply (take_id_chars_length _ _ _ E)|].
  exfalso. revert E. clear -n.
  destruct d as [[] [] [] [] [] [] [] []]; try discriminate. contradiction.
Qed.

Lemma youtube_metadata_fields today (video_id url : string) (title : option string)
    (info : gmap string pyval) (video_path : option string) (metadata : VideoMetadata) :
  youtube_metadata today video_id url title info video_path = Ok metadata ->
  vm_id metadata = video_id /\ vm_source_url metadata = Some url /\
  vm_file_path metadata = video_path /\
  vm_status metadata = (if truthy_str video_path then PROCESSING else TRANSCRIPT_ONLY).
Proof.
  unfold youtube_metadata.
  destruct (required_str _ "title") as [t|e]; cbn [bind]; [|discriminate].
  destruct (required_str _ "upload_date") as [u|e]; cbn [bind]; [|discriminate].
  destruct (optional_float _ "duration") as [d|e]; cbn [bind]; [|discriminate].
  intros H. injection H as <-. auto.
Qed.

(** X22.  [process_youtube_video] rejects a URL in which no identifier is
    found with [ValueError].  The metadata it returns has the identifier
    [youtube_] followed by the eleven characters found in the URL, which
    are the ones the transcript extraction looks up, the URL as source, and
    the status [transcript_only] exactly when no video file was found,
    always so when downloads are switched off; the chat lookup resolves the
    bare identifier of the URL to the registered video. *)
Theorem process_youtube_video_spec (make_video_dir : string -> result unit)
    (extract_info : string -> result (gmap string pyval))
    (download_youtube_videos : bool)
    (download : string -> string -> result (option string))
    (today : string) (_save_metadata : VideoMetadata -> result unit)
    (url : string) (title : option string) :
  let outcome :=
    process_youtube_video make_video_dir extract_info download_youtube_videos download
      today _save_metadata url title in
  (search_video_id url = None ->
   outcome = Raise (ValueError ("Invalid YouTube URL: " ++ url))) /\
  (forall metadata, outcome = Ok metadata ->
     exists yt_video_id,
       search_video_id url = Some yt_video_id /\
       String.length yt_video_id = 11%nat /\
       vm_id metadata = ("youtube_" ++ yt_video_id)%string /\
       vm_source_url metadata = Some url /\
       (vm_status metadata = TRANSCRIPT_ONLY <->
        truthy_str (vm_file_path metadata) = false) /\
       (vm_status metadata = TRANSCRIPT_ONLY \/ vm_status metadata = PROCESSING) /\
       (download_youtube_videos = false ->
        vm_file_path metadata = None /\ vm_status metadata = TRANSCRIPT_ONLY) /\
       _get_video_id_match yt_video_id
         [ {| vi_video_id := Some (vm_id metadata); vi_status := Some "processed" |} ]
         = Some (vm_id metadata) /\
       (forall provider,
          extract_youtube_transcript true provider url (vm_id metadata)
          = match provider yt_video_id with
            | [] => []
            | transcript_list => caption_chunks (vm_id metadata) 0 transcript_list
            end)).
Proof.
  intros outcome. unfold outcome, process_youtube_video. split.
  - intros ->. reflexivity.
  - intros metadata. destruct (search_video_id url) as [yt|] eqn:Es; [|discriminate].
    destruct (make_video_dir _) as [[]|e]; cbn [bind]; [|discriminate].
    destruct (extract_info url) as [info|e]; cbn [bind]; [|discriminate].
    destruct (if download_youtube_videos then _ else _) as [video_path|e] eqn:Ed;
      cbn [bind]; [|discriminate].
    destruct (youtube_metadata _ _ _ _ _ _) as [m|e] eqn:Em; cbn [bind]; [|discriminate].
    destruct (_save_metadata m) as [[]|e]; cbn [bind]; [|discriminate].
    intros H. injection H as <-.
    apply youtube_metadata_fields in Em as (Hid & Hsrc & Hpath & Hst).
    assert (Hlen := search_video_id_length url yt Es).
    exists yt. rewrite Hid, Hsrc, Hpath, Hst.
    split; [reflexivity|]. split; [exact Hlen|]. split; [reflexivity|].
    split; [reflexivity|]. split; [|split; [|split; [|split]]].
    + destruct (truthy_str video_path); split; intros H; try reflexivity; discriminate.
    + destruct (truthy_str video_path); auto.
    + intros Hoff. rewrite Hoff in Ed. injection Ed as <-. split; reflexivity.
    + unfold _get_video_id_match. cbn [map vi_video_id str_in existsb].
      assert (Hne : String.eqb yt ("youtube_" ++ yt) = false).
      { apply String.eqb_neq. intros Heq. apply (f_equal String.length) in Heq.
        rewrite str_length_app in Heq. cbn [String.length] in Heq. lia. }
      rewrite Hne. cbn [orb]. rewrite String.eqb_refl. reflexivity.
    + intros provider. unfold extract_youtube_transcript. cbn [negb]. rewrite Es.
      reflexivity.
Qed.
